(** * Trailer resolution and verification engine

    A shallow embedding of the trailer logic of [tools/scraper/add_trailers.py]
    and [tools/scraper/mal_scraper.py]: URL-to-id extraction, the two provider
    normalizers, the embedded-JSON extractor, the memoizing embeddability
    check, the search fallback and the two orchestrations; further on, the
    slug of a title and the selection of [tools/scraper/convert_mal_export.py].

    Python [str] is modelled as [string], a sequence of characters of
    which the code itself inspects only ASCII ones (the characters are the
    256 of [ascii]; nothing depends on their number); a trailer [dict] as
    a finite map from keys to optional strings ([None] standing for a key
    bound to [None]), the process-wide caches as [gmap], and the network
    as an oracle threaded through an explicit state.  The library
    functions [str.lower], [urlparse], [parse_qs] and [json.loads] are
    taken through an interface ([PyLib], [json_loads]) with the laws that
    the proofs use; [json.loads] may raise, and only its
    [JSONDecodeError] is caught.  Models of the library on ASCII text
    serve the samples.  Sleeping and the rate limiter only delay calls;
    they are left out. *)

From Stdlib Require Import ZArith Ascii.
From Stdlib Require String.
From stdpp Require Import gmap strings list fin_maps.

Local Open Scope Z_scope.
Set Warnings "-register-all".

(* ===================================================================== *)
(** ** Python string primitives used by the scraper *)
(* ===================================================================== *)

Module Py.

(** what [str.lower] does to an ASCII character: [A]-[Z] are folded *)
Definition lower_ascii (c : ascii) : ascii :=
  let n := nat_of_ascii c in
  if ((65 <=? n)%nat && (n <=? 90)%nat)%bool then ascii_of_nat (n + 32) else c.

(** [all(p(c) for c in s)] *)
Fixpoint all_chars (p : ascii → bool) (s : string) : bool :=
  match s with
  | EmptyString => true
  | String c s' => p c && all_chars p s'
  end.

(** [s.startswith(p)] *)
Fixpoint startswith (p s : string) : bool :=
  match p, s with
  | EmptyString, _ => true
  | String a p', String b s' => if decide (a = b) then startswith p' s' else false
  | String _ _, EmptyString => false
  end.

(** [sub in s] *)
Fixpoint contains (sub s : string) : bool :=
  startswith sub s ||
  match s with
  | EmptyString => false
  | String _ s' => contains sub s'
  end.

(** [s.lstrip(c)] and [s.rstrip(c)] for a one-character set, and [s.strip(c)] *)
Fixpoint lstrip (c : ascii) (s : string) : string :=
  match s with
  | String a s' => if decide (a = c) then lstrip c s' else s
  | EmptyString => EmptyString
  end.

Fixpoint rstrip (c : ascii) (s : string) : string :=
  match s with
  | EmptyString => EmptyString
  | String a s' =>
      match rstrip c s' with
      | EmptyString => if decide (a = c) then EmptyString else String a EmptyString
      | r => String a r
      end
  end.

Definition strip (c : ascii) (s : string) : string := rstrip c (lstrip c s).

(** [s.split(sep)] for a non-empty separator: [cur] is the piece being
    read (reversed), [skip] the number of separator characters still to
    drop after a match. *)
Fixpoint split_go (sep : string) (s : string) (cur : string) (skip : nat)
  : list string :=
  match s with
  | EmptyString => [String.rev cur]
  | String c s' =>
      match skip with
      | S k => split_go sep s' cur k
      | O =>
          if startswith sep s
          then String.rev cur :: split_go sep s' EmptyString (String.length sep - 1)
          else split_go sep s' (String c cur) O
      end
  end.

Definition split (sep s : string) : list string := split_go sep s EmptyString O.

(** [l[i]] on a list known to be long enough *)
Definition item (l : list string) (i : nat) : string := nth i l EmptyString.

(** [s.find(sub)]: index of the first occurrence, [None] for [-1] *)
Fixpoint find (sub s : string) : option nat :=
  if startswith sub s then Some O
  else match s with
       | EmptyString => None
       | String _ s' => S <$> find sub s'
       end.

(** [s[n:]] *)
Fixpoint drop (n : nat) (s : string) : string :=
  match n, s with
  | O, _ => s
  | S k, String _ s' => drop k s'
  | S _, EmptyString => EmptyString
  end.

(** [s[:n]] *)
Fixpoint take (n : nat) (s : string) : string :=
  match n, s with
  | O, _ => EmptyString
  | S k, String c s' => String c (take k s')
  | S _, EmptyString => EmptyString
  end.

(** truth value of an [Optional[str]]: [None] and [""] are falsy *)
Definition truthy (o : option string) : bool :=
  match o with
  | Some (String _ _) => true
  | _ => false
  end.

(** [a or b] on optional strings *)
Definition or_else (a b : option string) : option string :=
  if truthy a then a else b.

End Py.

(* ===================================================================== *)
(** ** The library interface: [str.lower] and [urllib.parse] *)
(* ===================================================================== *)

(** The six fields of [urllib.parse.ParseResult]. *)
Record ParseResult := mkParseResult {
  scheme : string;
  netloc : string;
  path : string;
  params : string;
  query : string;
  fragment : string
}.

(** [str.lower], [urlparse] and [parse_qs] are library functions.

    [str.lower] follows the Unicode tables.  What the engine relies on is
    that it works character by character: [lowered c] says that the
    character [c] is left as it is ([c.lower() == c]); every character of
    a result is of that kind, a text made of such characters is returned
    unchanged, and among the ASCII characters exactly [A]-[Z] are not of
    that kind.

    [urlparse s = None] stands for the [ValueError] it raises on a
    malformed authority.  [parse_qs] is called with its defaults, so blank
    values are dropped ([keep_blank_values=False]) and every key it returns
    is bound to a non-empty list of non-empty strings. *)
Class PyLib := {
  lower : string → string;
  lowered : ascii → bool;
  lower_lowered : ∀ s, Py.all_chars lowered (lower s) = true;
  lowered_fixed : ∀ s, Py.all_chars lowered s = true → lower s = s;
  lowered_ascii :
    ∀ c, (nat_of_ascii c < 128)%nat →
         lowered c = bool_decide (Py.lower_ascii c = c);
  urlparse : string → option ParseResult;
  parse_qs : string → gmap string (list string);
  parse_qs_no_blank :
    ∀ q k vs, parse_qs q !! k = Some vs → vs ≠ [] ∧ Forall (λ v, v ≠ EmptyString) vs
}.

Section ExtractId.
Context `{PyLib}.

(** [x or None] for a string [x] *)
Definition or_none (s : string) : option string :=
  if Py.truthy (Some s) then Some s else None.

(** [extract_youtube_id] (add_trailers.py) and [_extract_youtube_id]
    (mal_scraper.py); the two bodies are the same. *)
Definition extract_youtube_id (url : option string) : option string :=
  if negb (Py.truthy url) then None
  else
    match url ≫= urlparse with
    | None => None
    | Some parsed =>
        let host := lower (netloc parsed) in
        let path := path parsed in
        if Py.contains "youtu.be" host then
          or_none (Py.item (Py.split "/" (Py.strip "/" path)) 0)
        else if Py.contains "youtube.com" host || Py.contains "youtube-nocookie.com" host then
          if Py.startswith "/embed/" path then
            or_none (Py.item (Py.split "/" (Py.item (Py.split "/embed/" path) 1)) 0)
          else if decide (path = "/watch") then
            match parse_qs (query parsed) !! "v" with
            | Some vs => head vs
            | None => None
            end
          else None
        else None
    end.

End ExtractId.

(* ===================================================================== *)
(** ** Trailer dictionaries and the normalizers *)
(* ===================================================================== *)

(** A trailer is a Python [dict] whose values are strings or [None]. *)
Abbreviation dict := (gmap string (option string)).

(** [d.get(k)]: [None] when the key is missing or bound to [None] *)
Definition get (d : dict) (k : string) : option string := d !! k ≫= id.

(** truth value of an [Optional[dict]]: [None] and [{}] are falsy *)
Definition dict_truthy (d : option dict) : bool :=
  match d with
  | Some m => negb (bool_decide (m = ∅))
  | None => false
  end.

(** [a or b] where [b] is a string: always a string *)
Definition str_or (a : option string) (b : string) : string :=
  match a with
  | Some (String _ _ as s) => s
  | _ => b
  end.

(** the fixed URL templates *)
Definition watch_url (video_id : string) : string :=
  "https://www.youtube.com/watch?v=" +:+ video_id.
Definition embed_url (video_id : string) : string :=
  "https://www.youtube.com/embed/" +:+ video_id.
Definition thumbnail_url (video_id : string) : string :=
  "https://i.ytimg.com/vi/" +:+ video_id +:+ "/hqdefault.jpg".

(** [f(video_id) if video_id else ""] *)
Definition if_id (f : string → string) (video_id : option string) : string :=
  match video_id with
  | Some (String _ _ as v) => f v
  | _ => EmptyString
  end.

Section Normalize.
Context `{PyLib}.

(** [normalize_anilist_trailer] / [_normalize_anilist_trailer] *)
Definition normalize_anilist_trailer (trailer : option dict) : option dict :=
  if negb (dict_truthy trailer) then None
  else
    let trailer := default ∅ trailer in
    let site := lower (str_or (get trailer "site") EmptyString) in
    let video_id := get trailer "id" in
    if negb (bool_decide (site = "youtube")) || negb (Py.truthy video_id) then None
    else
      let v := default EmptyString video_id in
      Some (list_to_map [
        ("site", Some "youtube");
        ("id", video_id);
        ("url", Some (watch_url v));
        ("embedUrl", Some (embed_url v));
        ("thumbnail", Some (str_or (get trailer "thumbnail") (thumbnail_url v)));
        ("source", Some "anilist") ]).

(** [normalize_jikan_trailer] / [_normalize_jikan_trailer] *)
Definition normalize_jikan_trailer (trailer : option dict) : option dict :=
  if negb (dict_truthy trailer) then None
  else
    let trailer := default ∅ trailer in
    let video_id := get trailer "youtube_id" in
    let url := get trailer "url" in
    let embed_url_ := get trailer "embed_url" in
    let video_id :=
      if negb (Py.truthy video_id)
      then Py.or_else (extract_youtube_id embed_url_) (extract_youtube_id url)
      else video_id in
    if negb (Py.truthy video_id) && negb (Py.truthy url) && negb (Py.truthy embed_url_)
    then None
    else
      Some (list_to_map [
        ("site", Some "youtube");
        ("id", video_id);
        ("url", Some (str_or url (if_id watch_url video_id)));
        ("embedUrl", Some (str_or embed_url_ (if_id embed_url video_id)));
        ("thumbnail", Some (if_id thumbnail_url video_id));
        ("source", Some "jikan") ]).

End Normalize.

(** [build_youtube_trailer] / [_build_youtube_trailer] *)
Definition build_youtube_trailer (video_id source : string) : dict :=
  list_to_map [
    ("site", Some "youtube");
    ("id", Some video_id);
    ("url", Some (watch_url video_id));
    ("embedUrl", Some (embed_url video_id));
    ("thumbnail", Some (thumbnail_url video_id));
    ("source", Some source) ].

(* ===================================================================== *)
(** ** Parsed JSON and the embedded-JSON extractor *)
(* ===================================================================== *)

(** What [json.loads] returns.  An object is a Python [dict]. *)
Inductive json :=
| JNull
| JBool (b : bool)
| JNum (n : Z)
| JStr (s : string)
| JArr (l : list json)
| JObj (m : gmap string json).

Definition dquote : ascii := "034"%char.
Definition backslash : ascii := "\"%char.
Definition lbrace : ascii := "{"%char.
Definition rbrace : ascii := "}"%char.

Definition marker : string := "ytInitialPlayerResponse = ".

(** The [for idx in range(start, len(html))] loop of
    [extract_player_response]: [s] is [html[idx:]]; the result is [end],
    or [None] when the loop runs off the end of the text. *)
Fixpoint scan (s : string) (idx : nat) (brace_count : Z) (in_string escape : bool)
  : option nat :=
  match s with
  | EmptyString => None
  | String ch s' =>
      if in_string then
        if escape then scan s' (S idx) brace_count in_string false
        else if decide (ch = backslash) then scan s' (S idx) brace_count in_string true
        else if decide (ch = dquote) then scan s' (S idx) brace_count false escape
        else scan s' (S idx) brace_count in_string escape
      else if decide (ch = dquote) then scan s' (S idx) brace_count true escape
      else if decide (ch = lbrace) then scan s' (S idx) (brace_count + 1) in_string escape
      else if decide (ch = rbrace) then
        let brace_count := brace_count - 1 in
        if decide (brace_count = 0) then Some (S idx)
        else scan s' (S idx) brace_count in_string escape
      else scan s' (S idx) brace_count in_string escape
  end.

(** [html[start:end]] *)
Definition slice (html : string) (start end_ : nat) : string :=
  Py.take (end_ - start) (Py.drop start html).

(** The exceptions that matter to the engine.  [Timeout] and
    [ConnectionError] are the [requests.RequestException] subclasses
    that [session.get] raises.  [JSONDecodeError], [ValueError] (an
    integer literal beyond the digit limit) and [RecursionError] (nesting
    beyond the recursion limit) are what [json.loads] raises. *)
Inductive exn :=
| Timeout
| ConnectionError
| AttributeError
| JSONDecodeError
| ValueError
| RecursionError.

Definition is_RequestException (e : exn) : bool :=
  match e with
  | Timeout | ConnectionError => true
  | _ => false
  end.

(** The outcome of a computation: a value or a raised exception. *)
Inductive res (A : Type) :=
| Ok (a : A)
| Raise (e : exn).
Arguments Ok {A} a.
Arguments Raise {A} e.

Section Extract.
(** [json.loads]: the parsed value, or the exception that it raises. *)
Variable json_loads : string → res json.

(** [try: return json.loads(text)] with [except json.JSONDecodeError:
    return None]: any other exception goes through *)
Definition loads_or_none (text : string) : res (option json) :=
  match json_loads text with
  | Ok data => Ok (Some data)
  | Raise JSONDecodeError => Ok None
  | Raise e => Raise e
  end.

(** [extract_player_response] / [_extract_player_response] *)
Definition extract_player_response (html : string) : res (option json) :=
  match Py.find marker html with
  | None => Ok None
  | Some start =>
      let start := (start + String.length marker)%nat in
      match scan (Py.drop start html) start 0 false false with
      | None => Ok None
      | Some end_ => loads_or_none (slice html start end_)
      end
  end.

End Extract.

(* ===================================================================== *)
(** ** Exceptions, the network and the run state *)
(* ===================================================================== *)

(** What one [session.get] meets upstream. *)
Inductive http_outcome :=
| NetTimeout
| NetConnectionFailure
| Response (status_code : Z) (text : string).

(** [response.ok]: no 4xx or 5xx status *)
Definition ok (status_code : Z) : bool :=
  negb ((400 <=? status_code) && (status_code <? 600)).

(** A request: the URL and the query parameters given to [session.get]. *)
Record request := mkRequest {
  req_url : string;
  req_params : list (string * string)
}.

Global Instance request_eq_dec : EqDecision request.
Proof. solve_decision. Defined.

Definition YOUTUBE_SEARCH_URL : string := "https://www.youtube.com/results".
Definition YOUTUBE_WATCH_URL : string := "https://www.youtube.com/watch?v=".
Definition SEARCH_RESULTS_LIMIT : nat := 12.

Definition watch_request (video_id : string) : request :=
  mkRequest (YOUTUBE_WATCH_URL +:+ video_id) [].
Definition search_request (query : string) : request :=
  mkRequest YOUTUBE_SEARCH_URL [("search_query", query)].

(** *** Reading the player response *)

#[global] Instance res_ret : MRet res := @Ok.
#[global] Instance res_bind : MBind res :=
  λ A B k r, match r with Ok a => k a | Raise e => Raise e end.

(** truth value of a parsed JSON value *)
Definition json_truthy (j : json) : bool :=
  match j with
  | JNull => false
  | JBool b => b
  | JNum n => negb (n =? 0)
  | JStr s => Py.truthy (Some s)
  | JArr l => match l with [] => false | _ => true end
  | JObj m => negb (bool_decide (size m = 0%nat))
  end.

(** [j == "OK"] *)
Definition is_OK (j : json) : bool :=
  match j with
  | JStr s => bool_decide (s = "OK")
  | _ => false
  end.

(** [j is False] *)
Definition is_False (j : json) : bool :=
  match j with
  | JBool false => true
  | _ => false
  end.

(** [j.get(k, d)]: only a [dict] has [get] *)
Definition json_get (j : json) (k : string) (d : json) : res json :=
  match j with
  | JObj m => Ok (default d (m !! k))
  | _ => Raise AttributeError
  end.

(** The lines of [is_embeddable] between the fetch and the cache update:
    the verdict read off the player response ([None] when the fetch gave
    none). *)
Definition verdict (data : option json) : res bool :=
  match data with
  | None => Ok false
  | Some data =>
      if negb (json_truthy data) then Ok false
      else
        playability ← json_get data "playabilityStatus" (JObj ∅);
        status ← json_get playability "status" JNull;
        playable_in_embed ← json_get playability "playableInEmbed" JNull;
        Ok (is_OK status && negb (is_False playable_in_embed))
  end.

Section Engine.
Context `{PyLib}.
Variable json_loads : string → res json.

(** The upstream: any deterministic machine answering requests. *)
Variable World : Type.
Variable http_get : request → World → http_outcome * World.

(** The state of one run: the upstream, the embeddability cache
    ([embed_cache] / [self.youtube_embed_cache]), the search cache
    ([self.youtube_search_cache], unused by add_trailers.py) and the
    trace of the requests sent so far. *)
Record state := mkState {
  world : World;
  embed_cache : gmap string bool;
  search_cache : gmap string (list string);
  sent : list request
}.

Definition M (A : Type) : Type := state → res A * state.

Definition ret {A} (a : A) : M A := λ st, (Ok a, st).
Definition raise {A} (e : exn) : M A := λ st, (Raise e, st).
Definition bind {A B} (m : M A) (k : A → M B) : M B :=
  λ st, match m st with
        | (Ok a, st') => k a st'
        | (Raise e, st') => (Raise e, st')
        end.

(** [try: m  except requests.RequestException: h] *)
Definition try_except {A} (m : M A) (h : M A) : M A :=
  λ st, match m st with
        | (Raise e, st') => if is_RequestException e then h st' else (Raise e, st')
        | r => r
        end.

#[global] Instance M_ret : MRet M := @ret.
#[global] Instance M_bind : MBind M := λ A B k m, bind m k.

(** [session.get(url, params=...)] *)
Definition session_get (r : request) : M (Z * string) :=
  λ st,
    let '(o, w) := http_get r (world st) in
    let st' := mkState w (embed_cache st) (search_cache st) (sent st ++ [r]) in
    match o with
    | NetTimeout => (Raise Timeout, st')
    | NetConnectionFailure => (Raise ConnectionError, st')
    | Response status_code text => (Ok (status_code, text), st')
    end.

(** the request, repeated once on status 429 *)
Definition get_retry_429 (r : request) : M (Z * string) :=
  response ← session_get r;
  if decide (response.1 = 429) then session_get r else ret response.

Definition cache_embed (video_id : string) (b : bool) : M () :=
  λ st, (Ok (), mkState (world st) (<[video_id := b]> (embed_cache st))
                        (search_cache st) (sent st)).

Definition cache_search (query : string) (ids : list string) : M () :=
  λ st, (Ok (), mkState (world st) (embed_cache st)
                        (<[query := ids]> (search_cache st)) (sent st)).

(** a pure outcome read inside the run *)
Definition lift {A} (r : res A) : M A := λ st, (r, st).

(** The body shared by [is_embeddable] and [_is_youtube_embeddable],
    over the file's own fetch. *)
Definition is_embeddable_with (fetch : string → M (option json)) (video_id : string)
  : M bool :=
  λ st,
    match embed_cache st !! video_id with
    | Some b => (Ok b, st)
    | None =>
        (data ← fetch video_id;
         embeddable ← lift (verdict data);
         _ ← cache_embed video_id embeddable;
         ret embeddable) st
    end.

(* ------------------------------------------------------------------- *)
(** *** Search-page scanning *)

(** the literal head of the pattern: a quote, [videoId], a quote, a
    colon, a quote *)
Definition videoId_field : string :=
  String dquote ("videoId" +:+ String dquote (String ":"%char (String dquote EmptyString))).

(** the class [[a-zA-Z0-9_-]] *)
Definition id_char (c : ascii) : bool :=
  let n := nat_of_ascii c in
  ((97 <=? n) && (n <=? 122) || (65 <=? n) && (n <=? 90)
   || (48 <=? n) && (n <=? 57) || (n =? 95) || (n =? 45))%nat.

Fixpoint all_id_chars (s : string) : bool :=
  match s with
  | EmptyString => true
  | String c s' => id_char c && all_id_chars s'
  end.

(** the pattern tried at the head of [s]: the field head, eleven id
    characters, a closing quote; the group is returned *)
Definition match_videoId (s : string) : option string :=
  if Py.startswith videoId_field s then
    let r := Py.drop 11 s in
    let g := Py.take 11 r in
    if (String.length g =? 11)%nat && all_id_chars g
       && Py.startswith (String dquote EmptyString) (Py.drop 11 r)
    then Some g else None
  else None.

(** [re.findall] for that pattern: leftmost matches, none overlapping;
    a match is 23 characters long. *)
Fixpoint findall_videoId (s : string) (skip : nat) : list string :=
  match s with
  | EmptyString => []
  | String _ s' =>
      match skip with
      | S k => findall_videoId s' k
      | O =>
          match match_videoId s with
          | Some g => g :: findall_videoId s' 22
          | None => findall_videoId s' O
          end
      end
  end.

(** the [for video_id in matches] loop: first-seen order, no
    duplicates, stop once [limit] ids are kept *)
Fixpoint collect (limit : nat) (matches : list string) (seen : gset string)
    (results : list string) : list string :=
  match matches with
  | [] => results
  | video_id :: rest =>
      if decide (video_id ∈ seen) then collect limit rest seen results
      else
        let seen := {[video_id]} ∪ seen in
        let results := results ++ [video_id] in
        if decide (limit ≤ length results)%nat then results
        else collect limit rest seen results
  end.

Definition ids_of_page (limit : nat) (text : string) : list string :=
  collect limit (findall_videoId text O) ∅ [].

(* ------------------------------------------------------------------- *)
(** *** add_trailers.py *)

(** [fetch_player_response]: nothing is caught *)
Definition fetch_player_response (video_id : string) : M (option json) :=
  response ← get_retry_429 (watch_request video_id);
  if negb (ok response.1) then ret None
  else lift (extract_player_response json_loads response.2).

(** [is_embeddable] *)
Definition is_embeddable : string → M bool :=
  is_embeddable_with fetch_player_response.

(** [search_youtube_video_ids]: nothing is caught, nothing is cached *)
Definition search_youtube_video_ids (query : string) : M (list string) :=
  response ← get_retry_429 (search_request query);
  if negb (ok response.1) then ret []
  else ret (ids_of_page SEARCH_RESULTS_LIMIT response.2).

Definition queries (title : string) : list string :=
  [title +:+ " official trailer"; title +:+ " trailer"; title +:+ " PV"].

(** the inner loop [for video_id in candidates] of the search fallback;
    [Some t] is its [return] *)
Fixpoint try_candidates (check : string → M bool) (candidates : list string)
    (blocked_ids : gset string) : M (option dict) :=
  match candidates with
  | [] => ret None
  | video_id :: rest =>
      if decide (video_id ∈ blocked_ids) then try_candidates check rest blocked_ids
      else
        b ← check video_id;
        if b : bool then ret (Some (build_youtube_trailer video_id "youtube-search"))
        else try_candidates check rest blocked_ids
  end.

(** the outer loop [for query in queries] *)
Fixpoint try_queries (search : string → M (list string)) (check : string → M bool)
    (qs : list string) (blocked_ids : gset string) : M (option dict) :=
  match qs with
  | [] => ret None
  | query :: rest =>
      candidates ← search query;
      r ← try_candidates check candidates blocked_ids;
      match r with
      | Some t => ret (Some t)
      | None => try_queries search check rest blocked_ids
      end
  end.

(** [find_embeddable_trailer] *)
Definition find_embeddable_trailer (title : string) (blocked_ids : gset string)
  : M (option dict) :=
  try_queries search_youtube_video_ids is_embeddable (queries title) blocked_ids.

(* ------------------------------------------------------------------- *)
(** *** mal_scraper.py *)

(** [_fetch_player_response]: a [requests.RequestException] gives [None] *)
Definition _fetch_player_response (video_id : string) : M (option json) :=
  try_except
    (response ← get_retry_429 (watch_request video_id);
     if negb (ok response.1) then ret None
     else lift (extract_player_response json_loads response.2))
    (ret None).

(** [_is_youtube_embeddable] *)
Definition _is_youtube_embeddable : string → M bool :=
  is_embeddable_with _fetch_player_response.

(** [_search_youtube_video_ids]: cached per query; a failed fetch gives
    [[]] and is not cached *)
Definition _search_youtube_video_ids (query : string) (limit : nat) : M (list string) :=
  λ st,
    match search_cache st !! query with
    | Some ids => (Ok ids, st)
    | None =>
        (response ← try_except
                      (response ← get_retry_429 (search_request query);
                       if negb (ok response.1) then ret None
                       else ret (Some response))
                      (ret None);
         match response with
         | None => ret []
         | Some response =>
             let results := ids_of_page limit response.2 in
             _ ← cache_search query results;
             ret results
         end) st
    end.

(** [_find_embeddable_trailer] *)
Definition _find_embeddable_trailer (title : string) (blocked_ids : gset string)
  : M (option dict) :=
  if negb (Py.truthy (Some title)) then ret None
  else
    try_queries (λ query, _search_youtube_video_ids query 12) _is_youtube_embeddable
                (queries title) blocked_ids.

(** [d.get(k, "")] *)
Definition get_or_empty (d : dict) (k : string) : option string :=
  match d !! k with
  | None => Some EmptyString
  | Some v => v
  end.

(** the loop of [_select_embeddable_trailer] over the two candidates,
    followed by the search it falls through to *)
Fixpoint select_from (title : string) (candidates : list (option dict * string))
    (blocked_ids : gset string) : M (option dict) :=
  match candidates with
  | [] => _find_embeddable_trailer title blocked_ids
  | (candidate, source) :: rest =>
      if negb (dict_truthy candidate) then select_from title rest blocked_ids
      else
        let candidate := default ∅ candidate in
        let video_id :=
          Py.or_else (get candidate "id")
                     (extract_youtube_id (get_or_empty candidate "url")) in
        if negb (Py.truthy video_id) then select_from title rest blocked_ids
        else
          let v := default EmptyString video_id in
          b ← _is_youtube_embeddable v;
          if b : bool then
            let candidate := <["id" := video_id]> candidate in
            let candidate :=
              <["source" := Some (str_or (get candidate "source") source)]> candidate in
            ret (Some candidate)
          else select_from title rest ({[v]} ∪ blocked_ids)
  end.

(** [_select_embeddable_trailer] *)
Definition _select_embeddable_trailer (title : string)
    (anilist_trailer jikan_trailer : option dict) : M (option dict) :=
  select_from title [(anilist_trailer, "anilist"); (jikan_trailer, "jikan")] ∅.

(* ------------------------------------------------------------------- *)
(** *** The catalog and the batched orchestration of add_trailers.py *)

(** A catalog entry, with the fields the trailer logic reads: the title
    ([metadata.get("title") or entry.get("title") or ""]), the two
    provider ids ([metadata.get("anilistId")], and
    [metadata.get("malId") or entry.get("mal_id") or entry.get("malId")];
    [0] and [None] are both falsy, hence [option] of a non-zero id),
    [metadata["trailer"]], which the passes read and write, and the
    trailer at the top level of the entry ([entry.get("trailer")]), which
    only [has_trailer] reads. *)
Record entry := mkEntry {
  e_title : string;
  e_anilistId : option Z;
  e_malId : option Z;
  e_trailer : option dict;
  e_top_trailer : option dict
}.

Definition set_trailer (e : entry) (t : option dict) : entry :=
  mkEntry (e_title e) (e_anilistId e) (e_malId e) t (e_top_trailer e).

(** What provider B answers on [/anime/{id}/full], the address that both
    scripts ask: the request fails, the payload has no [data], or it has.
    Of [data] the trailer logic reads the title, the type and the
    trailer; its other keys, which [get_anime_metadata] copies, are taken
    to be absent or of the shape that it expects, so that copying them
    raises nothing. *)
Inductive jikan_answer :=
| JikanError
| JikanNoData
| JikanData (title type : option string) (trailer : option dict).

(** The fixed assignment of provider responses: the table of raw
    trailers that provider A holds (what [fetch_anilist_trailers]
    returned), and the answer of provider B for each MAL id. *)
Variable anilist_trailers : gmap Z (option dict).
Variable jikan_response : Z → jikan_answer.

(** [a or b] on optional dicts *)
Definition dict_or (a b : option dict) : option dict :=
  if dict_truthy a then a else b.

(** [has_trailer] *)
Definition has_trailer (e : entry) : bool :=
  let trailer := default ∅ (dict_or (e_trailer e) (dict_or (e_top_trailer e) (Some ∅))) in
  Py.truthy (Py.or_else (Py.or_else (get trailer "id") (get trailer "url"))
                        (get trailer "embedUrl")).

(** The loop over [needs] (add_trailers.py, lines 371-382).  [needs]
    holds references to entries of [anime_list], so the loop updates the
    catalog in place; the flag tells whether the entry was appended to
    [missing_after_anilist]. *)
Definition anilist_pass (refresh : bool) (e : entry) : entry * bool :=
  if refresh || negb (has_trailer e) then
    let trailer_data := e_anilistId e ≫= λ i, anilist_trailers !! i ≫= id in
    let normalized :=
      if dict_truthy trailer_data then normalize_anilist_trailer trailer_data else None in
    if dict_truthy normalized then (set_trailer e normalized, false)
    else (e, true)
  else (e, false).

(** [fetch_jikan_trailer]: [None] stands for the exception that the loop
    catches, [Some] for the value of [payload.get("data", {}).get("trailer")] *)
Definition fetch_jikan_trailer (mal_id : Z) : option (option dict) :=
  match jikan_response mal_id with
  | JikanError => None
  | JikanNoData => Some None
  | JikanData _ _ trailer => Some trailer
  end.

(** The loop over [missing_after_anilist] (lines 390-408). *)
Definition jikan_pass (em : entry * bool) : entry :=
  let '(e, missing) := em in
  if missing then
    match e_malId e with
    | None => e
    | Some mal_id =>
        match fetch_jikan_trailer mal_id with
        | None => e
        | Some trailer_data =>
            let normalized := normalize_jikan_trailer trailer_data in
            if dict_truthy normalized then set_trailer e normalized else e
        end
    end
  else e.

(** the acquire pass over the whole catalog *)
Definition acquire (refresh : bool) (anime_list : list entry) : list entry :=
  jikan_pass <$> (anilist_pass refresh <$> anime_list).

(** One turn of the loop [for entry in anime_list] that checks
    embeddability and swaps blocked trailers (lines 418-450). *)
Definition verify_entry (e : entry) : M entry :=
  if negb (dict_truthy (e_trailer e)) then ret e
  else
    let trailer := default ∅ (e_trailer e) in
    let video_id :=
      Py.or_else (get trailer "id")
                 (extract_youtube_id (Some (str_or (get trailer "url") EmptyString))) in
    if negb (Py.truthy video_id) then ret e
    else
      let v := default EmptyString video_id in
      b ← is_embeddable v;
      if b : bool then ret (set_trailer e (Some (<["id" := video_id]> trailer)))
      else
        alternative ← find_embeddable_trailer (e_title e) {[v]};
        if dict_truthy alternative then ret (set_trailer e alternative)
        else ret (set_trailer e None).

Fixpoint verify_pass (anime_list : list entry) : M (list entry) :=
  match anime_list with
  | [] => ret []
  | e :: rest =>
      e' ← verify_entry e;
      rest' ← verify_pass rest;
      ret (e' :: rest')
  end.

(** The batched orchestration of add_trailers.py: acquire over the whole
    catalog, then verify and repair in a second pass. *)
Definition batched (refresh : bool) (anime_list : list entry) : M (list entry) :=
  verify_pass (acquire refresh anime_list).

(** The raw trailers that the acquire pass of add_trailers.py reads for
    an entry: provider A's from the table, and provider B's from
    [fetch_jikan_trailer], where a request that fails leaves the pass
    without a trailer.  (mal_scraper.py reads provider B through
    [get_anime_metadata], below, and stops when that request fails.) *)
Definition provider_a (e : entry) : option dict :=
  e_anilistId e ≫= λ i, anilist_trailers !! i ≫= id.
Definition provider_b (e : entry) : option dict :=
  e_malId e ≫= λ mal_id, fetch_jikan_trailer mal_id ≫= id.

(* ------------------------------------------------------------------- *)
(** *** The per-item orchestration of mal_scraper.py *)

(** An item of the list that [scrape_batch] goes through:
    [anime["mal_id"]] and [anime["title"]]. *)
Record item := mkItem {
  i_mal_id : Z;
  i_title : string
}.

(** What [get_anilist_id] returns for a MAL id: the AniList id, [None]
    when the request fails or the id is unknown ([0] is falsy as well). *)
Variable anilist_id_response : Z → option Z.

(** What [get_anime_metadata] returns, as far as the trailer logic reads
    it: [None] when the request fails or the payload has no [data], and
    else the title, the type and the trailer of the payload, the trailer
    being normalized ([_normalize_jikan_trailer(anime.get("trailer") or {})]). *)
Definition get_anime_metadata (anime_id : Z)
  : option (option string * option string * option dict) :=
  match jikan_response anime_id with
  | JikanError | JikanNoData => None
  | JikanData title type trailer =>
      Some (title, type, normalize_jikan_trailer (Some (default ∅ trailer)))
  end.

(** [get_anilist_trailer]: the normalized trailer of provider A, [None]
    when the request fails or provider A holds none *)
Definition get_anilist_trailer (anilist_id : Z) : option dict :=
  normalize_anilist_trailer (anilist_trailers !! anilist_id ≫= id).

(** What [scrape_anime] leaves in [result["metadata"]]: nothing when the
    metadata could not be fetched; for a type other than TV the metadata
    as fetched, with provider B's normalized trailer in it; and else the
    metadata with the selected trailer. *)
Inductive scraped :=
| WithoutMetadata
| NonTV (trailer : option dict)
| Selected (trailer : option dict).


(** The metadata part of [scrape_anime] (mal_scraper.py, lines 632-662). *)
Definition scrape_anime (it : item) : M scraped :=
  match get_anime_metadata (i_mal_id it) with
  | None => ret WithoutMetadata
  | Some (title, type, jikan_trailer) =>
      if Py.truthy type && negb (bool_decide (type = Some "TV"))
      then ret (NonTV jikan_trailer)
      else
        let anilist_trailer :=
          match anilist_id_response (i_mal_id it) with
          | Some anilist_id => get_anilist_trailer anilist_id
          | None => None
          end in
        selected_trailer ←
          _select_embeddable_trailer (str_or title (i_title it))
                                     anilist_trailer jikan_trailer;
        if dict_truthy selected_trailer then ret (Selected selected_trailer)
        else ret (Selected None)
  end.

(** [scrape_batch] *)
Fixpoint scrape_batch (anime_list : list item) : M (list scraped) :=
  match anime_list with
  | [] => ret []
  | it :: rest =>
      r ← scrape_anime it;
      rest' ← scrape_batch rest;
      ret (r :: rest')
  end.

End Engine.

Arguments mkState {World}.
Arguments world {World}.
Arguments embed_cache {World}.
Arguments search_cache {World}.
Arguments sent {World}.

(* ===================================================================== *)
(** ** Library models for running the engine on samples *)
(* ===================================================================== *)

(** Executable models of [urlparse], [parse_qs] and [json.loads], and a
    scripted upstream.  The theorems below hold for every library
    behaviour and every upstream; the models serve to run the engine on
    sample inputs. *)
Module Model.

(** [s.partition(c)]: the text before the first [c] and the text after
    it, or [None] when [c] does not occur *)
Fixpoint partition (c : ascii) (s : string) : option (string * string) :=
  match s with
  | EmptyString => None
  | String a s' =>
      if decide (a = c) then Some (EmptyString, s')
      else '(l, r) ← partition c s'; Some (String a l, r)
  end.

(** the text before the first character satisfying [p], and the rest *)
Fixpoint break_at (p : ascii → bool) (s : string) : string * string :=
  match s with
  | EmptyString => (EmptyString, EmptyString)
  | String a s' =>
      if p a then (EmptyString, s)
      else let '(l, r) := break_at p s' in (String a l, r)
  end.

Definition is_alpha (c : ascii) : bool :=
  let n := nat_of_ascii c in
  ((97 <=? n) && (n <=? 122) || (65 <=? n) && (n <=? 90))%nat.

Definition scheme_char (c : ascii) : bool :=
  let n := nat_of_ascii c in
  is_alpha c || ((48 <=? n) && (n <=? 57) || (n =? 43) || (n =? 45) || (n =? 46))%nat.

(** [str.lower] on ASCII text *)
Fixpoint lower (s : string) : string :=
  match s with
  | EmptyString => EmptyString
  | String c s' => String (Py.lower_ascii c) (lower s')
  end.

(** the characters that it leaves as they are *)
Definition lowered (c : ascii) : bool := bool_decide (Py.lower_ascii c = c).

(** the schemes of [urllib.parse.uses_params] *)
Definition uses_params : list string :=
  [""; "ftp"; "hdl"; "prospero"; "http"; "imap"; "https"; "shttp"; "rtsp";
   "rtspu"; "sip"; "sips"; "mms"; "sftp"; "tel"].

(** the last path segment cut at its first semicolon *)
Fixpoint splitparams (url : string) : string * string :=
  match url with
  | EmptyString => (EmptyString, EmptyString)
  | String c s' =>
      if Py.contains "/" s' then
        let '(l, r) := splitparams s' in (String c l, r)
      else
        match partition ";"%char url with
        | Some (l, r) => (l, r)
        | None => (url, EmptyString)
        end
  end.

(** [urllib.parse.urlparse] on text without control characters: scheme,
    authority, fragment, query and parameters are split off in the
    library's order; unbalanced brackets in the authority raise. *)
Definition urlparse (url : string) : option ParseResult :=
  let '(scheme, url) :=
    match partition ":"%char url with
    | Some (String c0 l as sch, r) =>
        if is_alpha c0 && Py.all_chars scheme_char sch then (lower sch, r)
        else (EmptyString, url)
    | _ => (EmptyString, url)
    end in
  let '(netloc, url) :=
    if Py.startswith "//" url then
      break_at (λ c, bool_decide (c = "/"%char) || bool_decide (c = "?"%char)
                     || bool_decide (c = "#"%char)) (Py.drop 2 url)
    else (EmptyString, url) in
  if xorb (Py.contains "[" netloc) (Py.contains "]" netloc) then None
  else
    let '(url, fragment) :=
      match partition "#"%char url with
      | Some (l, r) => (l, r)
      | None => (url, EmptyString)
      end in
    let '(url, query) :=
      match partition "?"%char url with
      | Some (l, r) => (l, r)
      | None => (url, EmptyString)
      end in
    let '(url, params) :=
      if bool_decide (scheme ∈ uses_params) && Py.contains ";" url
      then splitparams url else (url, EmptyString) in
    Some (mkParseResult scheme netloc url params query fragment).

Definition hex_digit (c : ascii) : option nat :=
  let n := nat_of_ascii c in
  if ((48 <=? n) && (n <=? 57))%nat then Some (n - 48)%nat
  else if ((97 <=? n) && (n <=? 102))%nat then Some (n - 87)%nat
  else if ((65 <=? n) && (n <=? 70))%nat then Some (n - 55)%nat
  else None.

(** [urllib.parse.unquote] on percent-escapes of single bytes *)
Fixpoint unquote (s : string) : string :=
  match s with
  | EmptyString => EmptyString
  | String c s' =>
      match s' with
      | String a (String b s'') =>
          match hex_digit a, hex_digit b with
          | Some x, Some y =>
              if decide (c = "%"%char)
              then String (ascii_of_nat (16 * x + y)) (unquote s'')
              else String c (unquote s')
          | _, _ => String c (unquote s')
          end
      | _ => String c (unquote s')
      end
  end.

Fixpoint plus_to_space (s : string) : string :=
  match s with
  | EmptyString => EmptyString
  | String c s' =>
      String (if decide (c = "+"%char) then " "%char else c) (plus_to_space s')
  end.

(** one [name=value] piece of the query, as [parse_qsl] reads it with
    blank values dropped *)
Definition parse_pair (name_value : string) : option (string * string) :=
  match partition "="%char name_value with
  | Some (name, String c v) =>
      Some (unquote (plus_to_space name), unquote (plus_to_space (String c v)))
  | _ => None
  end.

Definition add_pair (m : gmap string (list string)) (nv : string * string)
  : gmap string (list string) :=
  <[nv.1 := default [] (m !! nv.1) ++ [nv.2]]> m.

(** [urllib.parse.parse_qs] with its defaults *)
Definition parse_qs (qs : string) : gmap string (list string) :=
  foldl add_pair ∅ (omap parse_pair (Py.split "&" qs)).

End Model.

Module JsonModel.

Definition is_ws (c : ascii) : bool :=
  let n := nat_of_ascii c in ((n =? 32) || (n =? 9) || (n =? 10) || (n =? 13))%nat.

Fixpoint skip_ws (s : string) : string :=
  match s with
  | String c s' => if is_ws c then skip_ws s' else s
  | EmptyString => EmptyString
  end.

(** the text of a string literal after its opening quote, with the
    escapes of a quote, a backslash and a slash; other escapes are not
    supported *)
Fixpoint parse_string (s : string) : option (string * string) :=
  match s with
  | EmptyString => None
  | String c s' =>
      if decide (c = dquote) then Some (EmptyString, s')
      else if decide (c = backslash) then
        match s' with
        | String e s'' =>
            if bool_decide (e = dquote) || bool_decide (e = backslash)
               || bool_decide (e = "/"%char)
            then '(l, r) ← parse_string s''; Some (String e l, r)
            else None
        | EmptyString => None
        end
      else '(l, r) ← parse_string s'; Some (String c l, r)
  end.

Definition digit (c : ascii) : option Z :=
  let n := nat_of_ascii c in
  if ((48 <=? n) && (n <=? 57))%nat then Some (Z.of_nat n - 48) else None.

Fixpoint parse_digits (s : string) (acc : Z) : Z * string :=
  match s with
  | String c s' =>
      match digit c with
      | Some d => parse_digits s' (10 * acc + d)
      | None => (acc, s)
      end
  | EmptyString => (acc, EmptyString)
  end.

(** a recursive-descent reader of objects, arrays, strings, integers
    and the three literals; [fuel] bounds the nesting and the number of
    members read *)
Fixpoint parse_value (fuel : nat) (s : string) : option (json * string) :=
  match fuel with
  | O => None
  | S fuel =>
      match skip_ws s with
      | EmptyString => None
      | String c r =>
          if decide (c = lbrace) then
            match skip_ws r with
            | String c' r' =>
                if decide (c' = rbrace) then Some (JObj ∅, r')
                else parse_members fuel r ∅
            | EmptyString => None
            end
          else if decide (c = "["%char) then
            match skip_ws r with
            | String c' r' =>
                if decide (c' = "]"%char) then Some (JArr [], r')
                else parse_elements fuel r []
            | EmptyString => None
            end
          else if decide (c = dquote) then
            '(str, r') ← parse_string r; Some (JStr str, r')
          else if Py.startswith "true" (String c r) then Some (JBool true, Py.drop 4 (String c r))
          else if Py.startswith "false" (String c r) then Some (JBool false, Py.drop 5 (String c r))
          else if Py.startswith "null" (String c r) then Some (JNull, Py.drop 4 (String c r))
          else if decide (c = "-"%char) then
            match r with
            | String d _ =>
                match digit d with
                | Some _ => let '(n, r') := parse_digits r 0 in Some (JNum (- n), r')
                | None => None
                end
            | EmptyString => None
            end
          else
            match digit c with
            | Some _ => let '(n, r') := parse_digits (String c r) 0 in Some (JNum n, r')
            | None => None
            end
      end
  end
with parse_members (fuel : nat) (s : string) (acc : gmap string json)
  : option (json * string) :=
  match fuel with
  | O => None
  | S fuel =>
      match skip_ws s with
      | String c r =>
          if decide (c = dquote) then
            '(key, r1) ← parse_string r;
            match skip_ws r1 with
            | String c1 r2 =>
                if decide (c1 = ":"%char) then
                  '(v, r3) ← parse_value fuel r2;
                  let acc := <[key := v]> acc in
                  match skip_ws r3 with
                  | String c3 r4 =>
                      if decide (c3 = ","%char) then parse_members fuel r4 acc
                      else if decide (c3 = rbrace) then Some (JObj acc, r4)
                      else None
                  | EmptyString => None
                  end
                else None
            | EmptyString => None
            end
          else None
      | EmptyString => None
      end
  end
with parse_elements (fuel : nat) (s : string) (acc : list json)
  : option (json * string) :=
  match fuel with
  | O => None
  | S fuel =>
      '(v, r1) ← parse_value fuel s;
      let acc := acc ++ [v] in
      match skip_ws r1 with
      | String c r2 =>
          if decide (c = ","%char) then parse_elements fuel r2 acc
          else if decide (c = "]"%char) then Some (JArr acc, r2)
          else None
      | EmptyString => None
      end
  end.

(** the value that a text of that fragment of JSON stands for *)
Definition parse (s : string) : option json :=
  '(j, r) ← parse_value (S (String.length s)) s;
  if decide (skip_ws r = EmptyString) then Some j else None.

(** [json.loads] on that fragment of JSON; anything else is refused with
    [JSONDecodeError] *)
Definition json_loads (s : string) : res json :=
  match parse s with
  | Some j => Ok j
  | None => Raise JSONDecodeError
  end.

End JsonModel.

(** A scripted upstream: the answer to a request depends on the request
    and on how many times it was sent before. *)
Module Scripted.

Definition World : Type := list request.

Definition http_get (script : request → nat → http_outcome)
    (r : request) (w : World) : http_outcome * World :=
  (script r (length (filter (λ r', r' = r) w)), r :: w).

(** the start of a run: nothing sent, both caches empty *)
Definition init : state World := mkState [] ∅ ∅ [].

End Scripted.

(* ===================================================================== *)
(** ** The library models meet the interface *)
(* ===================================================================== *)

Module ModelFacts.
Import Model.

Lemma unquote_cons c s : ∃ c' s', unquote (String c s) = String c' s'.
Proof.
  destruct s as [|a [|b s'']]; simpl; eauto.
  destruct (hex_digit a), (hex_digit b); try case_decide; eauto.
Qed.

Lemma parse_pair_value nv name v : parse_pair nv = Some (name, v) → v ≠ EmptyString.
Proof.
  unfold parse_pair. destruct (partition _ nv) as [[n [|c w]]|]; try done.
  assert (Hu : ∀ c0 w0, unquote (String c0 w0) ≠ EmptyString).
  { intros c0 w0. by destruct (unquote_cons c0 w0) as (c' & s' & ->). }
  intros [= _ <-].
  apply (Hu (if decide (c = "+"%char) then " "%char else c) (plus_to_space w)).
Qed.

(** every key is bound to a non-empty list of non-empty strings *)
Definition no_blank (m : gmap string (list string)) : Prop :=
  ∀ k vs, m !! k = Some vs → vs ≠ [] ∧ Forall (λ v, v ≠ EmptyString) vs.

Lemma no_blank_add m nv : no_blank m → nv.2 ≠ EmptyString → no_blank (add_pair m nv).
Proof.
  intros Hm Hv k vs. unfold add_pair.
  destruct (decide (nv.1 = k)) as [<-|Hne].
  - rewrite lookup_insert_eq. intros [= <-]. split.
    + destruct (default [] (m !! nv.1)); done.
    + apply Forall_app. split; [|by constructor].
      destruct (m !! nv.1) as [l|] eqn:E; simpl; [|constructor].
      by destruct (Hm _ _ E).
  - rewrite lookup_insert_ne; [|done]. apply Hm.
Qed.

Lemma no_blank_foldl l m :
  no_blank m → Forall (λ nv : string * string, nv.2 ≠ EmptyString) l →
  no_blank (foldl add_pair m l).
Proof.
  revert m. induction l as [|nv l IH]; intros m Hm Hl; [done|].
  inversion_clear Hl. simpl. apply IH; [by apply no_blank_add | done].
Qed.

Lemma parse_qs_no_blank qs : no_blank (parse_qs qs).
Proof.
  apply no_blank_foldl.
  - intros k vs. by rewrite lookup_empty.
  - apply Forall_forall. intros [name v] Hin.
    apply list_elem_of_omap in Hin as (nv & _ & Hnv).
    by eapply parse_pair_value.
Qed.

Lemma lower_ascii_again c : Py.lower_ascii (Py.lower_ascii c) = Py.lower_ascii c.
Proof. destruct c as [[] [] [] [] [] [] [] []]; reflexivity. Qed.

Lemma lower_lowered s : Py.all_chars lowered (lower s) = true.
Proof.
  induction s as [|c s IH]; [done|]. cbn [lower Py.all_chars]. unfold lowered at 1.
  rewrite bool_decide_eq_true_2 by apply lower_ascii_again. done.
Qed.

Lemma lowered_fixed s : Py.all_chars lowered s = true → lower s = s.
Proof.
  induction s as [|c s IH]; [done|]. cbn [lower Py.all_chars].
  intros [Hc%bool_decide_eq_true Hs]%andb_true_iff. by rewrite Hc, IH.
Qed.

Lemma lowered_ascii c :
  (nat_of_ascii c < 128)%nat → lowered c = bool_decide (Py.lower_ascii c = c).
Proof. done. Qed.

End ModelFacts.

(** the modelled library: ASCII text *)
Definition model_lib : PyLib :=
  {| lower := Model.lower;
     lowered := Model.lowered;
     lower_lowered := ModelFacts.lower_lowered;
     lowered_fixed := ModelFacts.lowered_fixed;
     lowered_ascii := ModelFacts.lowered_ascii;
     urlparse := Model.urlparse;
     parse_qs := Model.parse_qs;
     parse_qs_no_blank := ModelFacts.parse_qs_no_blank |}.

(* ===================================================================== *)
(** ** Id extraction *)
(* ===================================================================== *)

Section ExtractIdFacts.
Context `{PyLib}.

Lemma or_none_not_empty s : or_none s ≠ Some EmptyString.
Proof. by destruct s. Qed.

Lemma extract_youtube_id_not_empty url : extract_youtube_id url ≠ Some EmptyString.
Proof.
  unfold extract_youtube_id.
  destruct (negb (Py.truthy url)); [done|].
  destruct (url ≫= urlparse) as [parsed|]; [|done].
  repeat case_match; try done; try apply or_none_not_empty.
  match goal with E : parse_qs _ !! _ = Some ?l |- _ =>
    destruct (parse_qs_no_blank _ _ _ E) as [Hne Hall]; destruct l; [done|] end.
  inversion_clear Hall. simpl. congruence.
Qed.

Lemma extract_youtube_id_truthy url v :
  extract_youtube_id url = Some v → Py.truthy (Some v) = true.
Proof.
  intros E. destruct v; [|done]. by destruct (extract_youtube_id_not_empty url).
Qed.

Lemma extract_youtube_id_falsy url :
  Py.truthy url = false → extract_youtube_id url = None.
Proof. unfold extract_youtube_id. by intros ->. Qed.

Lemma extract_youtube_id_other_host s parsed :
  urlparse s = Some parsed →
  Py.contains "youtu.be" (lower (netloc parsed)) = false →
  Py.contains "youtube.com" (lower (netloc parsed)) = false →
  Py.contains "youtube-nocookie.com" (lower (netloc parsed)) = false →
  extract_youtube_id (Some s) = None.
Proof.
  intros Hp H1 H2 H3. unfold extract_youtube_id.
  destruct (negb _); [done|]. simpl. rewrite Hp, H1, H2, H3. done.
Qed.

(** C10, as the code has it.  For every input, [extract_youtube_id]
    returns either [None] or a non-empty video id, never the empty
    string; and it returns [None] for every URL whose host, lower-cased
    by [str.lower], contains none of [youtu.be], [youtube.com] and
    [youtube-nocookie.com].  The host as written decides nothing, as
    the upper-case host below shows. *)
Theorem extract_youtube_id_none_or_nonempty (url : option string) :
  extract_youtube_id url ≠ Some EmptyString ∧
  ∀ s parsed,
    url = Some s → urlparse s = Some parsed →
    Py.contains "youtu.be" (lower (netloc parsed)) = false →
    Py.contains "youtube.com" (lower (netloc parsed)) = false →
    Py.contains "youtube-nocookie.com" (lower (netloc parsed)) = false →
    extract_youtube_id url = None.
Proof.
  split; [apply extract_youtube_id_not_empty|].
  intros s parsed -> Hp H1 H2 H3. by eapply extract_youtube_id_other_host.
Qed.

End ExtractIdFacts.

(** The statement of C10 at a Vimeo address and at a short YouTube link,
    with the modelled library. *)
Lemma extract_youtube_id_none_or_nonempty_witness :
  @extract_youtube_id model_lib (Some "https://vimeo.com/76979871") = None
  ∧ @extract_youtube_id model_lib (Some "https://youtu.be/abc12345678") ≠ Some EmptyString.
Proof.
  split.
  - eapply (proj2 (@extract_youtube_id_none_or_nonempty model_lib _));
      reflexivity.
  - exact (proj1 (@extract_youtube_id_none_or_nonempty model_lib _)).
Defined.

(** C10 refuted as worded: the host [YOUTUBE.COM] contains none of the
    three names as it is written, and the id is returned all the same,
    because the names are looked for in the lower-cased host. *)
Lemma extract_youtube_id_upper_case_host :
  netloc <$> @urlparse model_lib "https://YOUTUBE.COM/watch?v=abc12345678"
  = Some "YOUTUBE.COM"
  ∧ Py.contains "youtu.be" "YOUTUBE.COM" = false
  ∧ Py.contains "youtube.com" "YOUTUBE.COM" = false
  ∧ Py.contains "youtube-nocookie.com" "YOUTUBE.COM" = false
  ∧ @extract_youtube_id model_lib (Some "https://YOUTUBE.COM/watch?v=abc12345678")
    = Some "abc12345678".
Proof. repeat split; reflexivity. Qed.

(* ===================================================================== *)
(** ** The normalizers *)
(* ===================================================================== *)

Lemma truthy_false_cases (o : option string) :
  Py.truthy o = false → o = None ∨ o = Some EmptyString.
Proof. destruct o as [[|]|]; naive_solver. Qed.

Lemma truthy_true_cases (o : option string) :
  Py.truthy o = true → ∃ v, o = Some v ∧ v ≠ EmptyString.
Proof. destruct o as [[|c s]|]; naive_solver. Qed.

Section NormalizeFacts.
Context `{PyLib}.

(** the id that [normalize_jikan_trailer] settles on is [None] or a
    non-empty string *)
Lemma resolved_id_cases (video_id e u : option string) :
  let r := if negb (Py.truthy video_id)
           then Py.or_else (extract_youtube_id e) (extract_youtube_id u)
           else video_id in
  r = None ∨ ∃ v, r = Some v ∧ v ≠ EmptyString.
Proof.
  simpl. destruct (Py.truthy video_id) eqn:E; simpl.
  - right. by apply truthy_true_cases.
  - unfold Py.or_else. destruct (Py.truthy (extract_youtube_id e)) eqn:E1.
    + right. by apply truthy_true_cases.
    + destruct (extract_youtube_id u) as [v|] eqn:E2; [|by left].
      right. exists v. split; [done|]. intros ->.
      by destruct (extract_youtube_id_not_empty u).
Qed.

(** C3, as the code has it.  [normalize_jikan_trailer] returns [None]
    exactly when [youtube_id], [url] and [embed_url] are all empty or
    absent.  A candidate it returns carries either a non-empty id, or
    the id [None] together with the provider's own non-empty [url] or
    [embed_url]: an address from which no id can be resolved is kept,
    not discarded. *)
Theorem normalize_jikan_trailer_discards (trailer : option dict) :
  (normalize_jikan_trailer trailer = None ↔
     Py.truthy (get (default ∅ trailer) "youtube_id") = false
     ∧ Py.truthy (get (default ∅ trailer) "url") = false
     ∧ Py.truthy (get (default ∅ trailer) "embed_url") = false)
  ∧ ∀ c, normalize_jikan_trailer trailer = Some c →
      (∃ v, v ≠ EmptyString ∧ c !! "id" = Some (Some v))
      ∨ (c !! "id" = Some None
         ∧ (Py.truthy (get (default ∅ trailer) "url") = true
            ∧ get c "url" = get (default ∅ trailer) "url"
            ∨ Py.truthy (get (default ∅ trailer) "embed_url") = true
              ∧ get c "embedUrl" = get (default ∅ trailer) "embed_url")).
Proof.
  unfold normalize_jikan_trailer.
  destruct (dict_truthy trailer) eqn:Ht; simpl.
  2:{ split; [|done]. split; [|done]. intros _.
      destruct trailer as [m|]; simpl in *; [|done].
      apply negb_false_iff, bool_decide_eq_true in Ht as ->. done. }
  set (t := default ∅ trailer).
  destruct (resolved_id_cases (get t "youtube_id") (get t "embed_url") (get t "url"))
    as [Hr|([|a v] & Hr & Hv)]; try done; simpl in Hr; rewrite Hr; simpl.
  - assert (Hy : Py.truthy (get t "youtube_id") = false).
    { destruct (Py.truthy (get t "youtube_id")) eqn:E; [|done].
      simpl in Hr. by rewrite Hr in E. }
    destruct (Py.truthy (get t "url")) eqn:Eu; simpl.
    + split; [split; [done|intros (? & ? & ?); congruence]|].
      intros c [= <-]. right. split; [reflexivity|]. left. split; [done|].
      apply truthy_true_cases in Eu as (u & Eu & Hu). rewrite Eu.
      destruct u; [done|]. reflexivity.
    + destruct (Py.truthy (get t "embed_url")) eqn:Ee; simpl.
      * split; [split; [done|intros (? & ? & ?); congruence]|].
        intros c [= <-]. right. split; [reflexivity|]. right. split; [done|].
        apply truthy_true_cases in Ee as (u & Ee & Hu). rewrite Ee.
        destruct u; [done|]. reflexivity.
      * split; [|done]. done.
  - split.
    + split; [done|]. intros (Hy & Hu & He). rewrite Hy in Hr. simpl in Hr.
      rewrite (extract_youtube_id_falsy _ Hu), (extract_youtube_id_falsy _ He) in Hr.
      done.
    + intros c [= <-]. left. exists (String a v). split; [done|]. reflexivity.
Qed.

End NormalizeFacts.

(** C3 refuted as stated: provider B hands over a trailer whose only
    field is a Vimeo address; no id can be resolved from it, and
    normalization still returns a candidate, whose id is [None]. *)
Lemma normalize_jikan_trailer_keeps_unresolved :
  let raw : dict := {[ "url" := Some "https://vimeo.com/76979871" ]} in
  get raw "youtube_id" = None
  ∧ @extract_youtube_id model_lib (get raw "embed_url") = None
  ∧ @extract_youtube_id model_lib (get raw "url") = None
  ∧ @normalize_jikan_trailer model_lib (Some raw) =
      Some (list_to_map [
        ("site", Some "youtube"); ("id", None);
        ("url", Some "https://vimeo.com/76979871");
        ("embedUrl", Some EmptyString); ("thumbnail", Some EmptyString);
        ("source", Some "jikan") ]).
Proof. vm_compute. repeat split; reflexivity. Qed.

(** The amended C3 at that trailer and at an empty one. *)
Lemma normalize_jikan_trailer_discards_witness :
  @normalize_jikan_trailer model_lib (Some ∅) = None.
Proof.
  apply (proj1 (@normalize_jikan_trailer_discards model_lib (Some ∅))).
  repeat split; reflexivity.
Defined.

Section CanonicalFacts.
Context `{PyLib}.

Lemma build_youtube_trailer_truthy v src :
  dict_truthy (Some (build_youtube_trailer v src)) = true.
Proof.
  simpl. apply negb_true_iff, bool_decide_eq_false. intros E.
  apply (f_equal (λ m : dict, m !! "site")) in E. vm_compute in E. done.
Qed.

Lemma lower_youtube : lower "youtube" = "youtube".
Proof.
  apply lowered_fixed. cbn [Py.all_chars].
  rewrite !lowered_ascii by (vm_compute; lia). reflexivity.
Qed.

(** C9, as the code has it.  On a canonical candidate (site youtube, a
    non-empty id, URLs and thumbnail built from the templates) each
    normalizer returns that candidate with the [source] field set to its
    own provider tag; provider B's does so when the id can be read back
    from the watch URL.  So a normalizer is the identity exactly on the
    canonical candidates that carry its own tag. *)
Theorem normalize_canonical (v src : string) :
  v ≠ EmptyString →
  normalize_anilist_trailer (Some (build_youtube_trailer v src))
    = Some (build_youtube_trailer v "anilist")
  ∧ (extract_youtube_id (Some (watch_url v)) = Some v →
     normalize_jikan_trailer (Some (build_youtube_trailer v src))
       = Some (build_youtube_trailer v "jikan")).
Proof.
  intros Hv. destruct v as [|a v]; [done|]. split.
  - unfold normalize_anilist_trailer.
    rewrite build_youtube_trailer_truthy. cbn [negb default from_option]. unfold id.
    change (str_or (get (build_youtube_trailer (String a v) src) "site") EmptyString)
      with "youtube".
    rewrite lower_youtube. reflexivity.
  - intros Hx. unfold normalize_jikan_trailer.
    rewrite build_youtube_trailer_truthy. cbn [negb default from_option]. unfold id.
    change (get (build_youtube_trailer (String a v) src) "youtube_id") with (@None string).
    change (get (build_youtube_trailer (String a v) src) "embed_url") with (@None string).
    change (get (build_youtube_trailer (String a v) src) "url")
      with (Some (watch_url (String a v))).
    rewrite Hx. reflexivity.
Qed.

End CanonicalFacts.

(** C9 refuted as stated: the canonical candidate that the search
    fallback builds for an id is not returned field for field by provider
    A's normalizer, which stamps its own tag on it. *)
Lemma normalize_anilist_trailer_restamps :
  @normalize_anilist_trailer model_lib
    (Some (build_youtube_trailer "abc12345678" "youtube-search"))
  ≠ Some (build_youtube_trailer "abc12345678" "youtube-search").
Proof.
  intros E. apply (f_equal (λ o : option dict, o ≫= λ m, get m "source")) in E.
  vm_compute in E. done.
Qed.

(** The amended C9 at the id [abc12345678], with the modelled library. *)
Lemma normalize_canonical_witness :
  @normalize_anilist_trailer model_lib
    (Some (build_youtube_trailer "abc12345678" "anilist"))
    = Some (build_youtube_trailer "abc12345678" "anilist")
  ∧ @normalize_jikan_trailer model_lib (Some (build_youtube_trailer "abc12345678" "jikan"))
    = Some (build_youtube_trailer "abc12345678" "jikan").
Proof.
  assert (Hv : "abc12345678" ≠ EmptyString) by done.
  destruct (@normalize_canonical model_lib "abc12345678" "anilist" Hv) as [Ha _].
  destruct (@normalize_canonical model_lib "abc12345678" "jikan" Hv) as [_ Hj].
  split; [exact Ha | apply Hj; reflexivity].
Defined.

(* ===================================================================== *)
(** ** The embedded-JSON extractor *)
(* ===================================================================== *)




Section StringFacts.

Lemma app_cons (x : ascii) (a b : string) : String x a +:+ b = String x (a +:+ b).
Proof. reflexivity. Qed.

Lemma app_empty (b : string) : EmptyString +:+ b = b.
Proof. reflexivity. Qed.


Lemma app_assoc (a b c : string) : (a +:+ b) +:+ c = a +:+ b +:+ c.
Proof. induction a as [|x a IH]; [done|]. by rewrite !app_cons, IH. Qed.




End StringFacts.

Section ScanFacts.





End ScanFacts.


(** A sample page: the object has a key with an escaped quote and a brace
    in it, and a value with braces in it; more script text with braces
    follows the object. *)
Module Sample.

Definition q (s : string) : string := String dquote s.



End Sample.



(* ===================================================================== *)
(** ** The run monad and the cache *)
(* ===================================================================== *)

(** The two scripts that carry the engine. *)
Inductive script := AddTrailers | MalScraper.

Section EngineFacts.
Context `{PyLib}.
Variable json_loads : string → res json.
Variable World : Type.
Variable http_get : request → World → http_outcome * World.

Local Abbreviation state := (state World).
Local Abbreviation M := (M World).

(** the fetch and the embeddability check of each script *)
Definition fetch_of (s : script) : string → M (option json) :=
  match s with
  | AddTrailers => fetch_player_response json_loads World http_get
  | MalScraper => _fetch_player_response json_loads World http_get
  end.

Definition embeddable_of (s : script) : string → M bool :=
  match s with
  | AddTrailers => is_embeddable json_loads World http_get
  | MalScraper => _is_youtube_embeddable json_loads World http_get
  end.

(** the search fallback of each script *)
Definition fallback_of (s : script) : string → gset string → M (option dict) :=
  match s with
  | AddTrailers => find_embeddable_trailer json_loads World http_get
  | MalScraper => _find_embeddable_trailer json_loads World http_get
  end.

Lemma embeddable_of_with s : embeddable_of s = is_embeddable_with World (fetch_of s).
Proof. by destruct s. Qed.

(** [st'] still knows every verdict that [st] knows *)
Definition extends (st st' : state) : Prop :=
  ∀ v b, embed_cache st !! v = Some b → embed_cache st' !! v = Some b.

(** a computation that forgets no verdict *)
Definition keeps {A} (m : M A) : Prop := ∀ st, extends st (m st).2.

(** a computation that leaves the verdict cache as it is *)
Definition frames {A} (m : M A) : Prop := ∀ st, embed_cache (m st).2 = embed_cache st.

Lemma extends_refl st : extends st st.
Proof. by intros v b. Qed.

Lemma extends_trans st1 st2 st3 : extends st1 st2 → extends st2 st3 → extends st1 st3.
Proof. intros H12 H23 v b Hv. by apply H23, H12. Qed.

Lemma frames_keeps {A} (m : M A) : frames m → keeps m.
Proof. intros Hm st v b. by rewrite Hm. Qed.

Lemma frames_ret {A} (a : A) : frames (mret a : M A).
Proof. by intros st. Qed.

Lemma frames_lift {A} (r : res A) : frames (lift World r).
Proof. by intros st. Qed.

Lemma frames_bind {A B} (m : M A) (k : A → M B) :
  frames m → (∀ a, frames (k a)) → frames (m ≫= k).
Proof.
  intros Hm Hk st. unfold mbind, M_bind, bind. specialize (Hm st).
  destruct (m st) as [[a|e] st1]; simpl in *; [|done].
  by rewrite (Hk a st1).
Qed.

Lemma keeps_ret {A} (a : A) : keeps (mret a : M A).
Proof. intros st. apply extends_refl. Qed.

Lemma keeps_bind {A B} (m : M A) (k : A → M B) :
  keeps m → (∀ a, keeps (k a)) → keeps (m ≫= k).
Proof.
  intros Hm Hk st. unfold mbind, M_bind, bind. specialize (Hm st).
  destruct (m st) as [[a|e] st1]; simpl in *; [|done].
  eapply extends_trans; [done|apply Hk].
Qed.

Lemma frames_try_except {A} (m h : M A) :
  frames m → frames h → frames (try_except World m h).
Proof.
  intros Hm Hh st. unfold try_except. specialize (Hm st).
  destruct (m st) as [[a|e] st1]; simpl in *; [done|].
  destruct (is_RequestException e); simpl; [|done]. by rewrite Hh.
Qed.

Lemma frames_session_get r : frames (session_get World http_get r).
Proof.
  intros st. unfold session_get.
  by destruct (http_get r (world st)) as [[| |status text] w].
Qed.

Lemma frames_get_retry_429 r : frames (get_retry_429 World http_get r).
Proof.
  apply frames_bind; [apply frames_session_get|].
  intros response. case_decide; [apply frames_session_get|apply frames_ret].
Qed.

Lemma frames_fetch_of s v : frames (fetch_of s v).
Proof.
  destruct s; simpl.
  - apply frames_bind; [apply frames_get_retry_429|].
    intros r. destruct (negb _); [apply frames_ret|apply frames_lift].
  - apply frames_try_except; [|apply frames_ret].
    apply frames_bind; [apply frames_get_retry_429|].
    intros r. destruct (negb _); [apply frames_ret|apply frames_lift].
Qed.

(** the check, one case at a time *)
Lemma is_embeddable_with_eq (fetch : string → M (option json)) v st :
  is_embeddable_with World fetch v st =
  match embed_cache st !! v with
  | Some b => (Ok b, st)
  | None =>
      match fetch v st with
      | (Ok data, st1) =>
          match verdict data with
          | Ok b => (Ok b, mkState (world st1) (<[v := b]> (embed_cache st1))
                                   (search_cache st1) (sent st1))
          | Raise e => (Raise e, st1)
          end
      | (Raise e, st1) => (Raise e, st1)
      end
  end.
Proof.
  unfold is_embeddable_with. destruct (embed_cache st !! v); [done|].
  unfold mbind, M_bind, bind, lift. destruct (fetch v st) as [[data|e] st1]; [|done].
  by destruct (verdict data).
Qed.

Lemma embeddable_of_cached s v b st :
  embed_cache st !! v = Some b → embeddable_of s v st = (Ok b, st).
Proof. intros Hc. by rewrite embeddable_of_with, is_embeddable_with_eq, Hc. Qed.

Lemma embeddable_of_caches s v b st st1 :
  embeddable_of s v st = (Ok b, st1) → embed_cache st1 !! v = Some b.
Proof.
  rewrite embeddable_of_with, is_embeddable_with_eq.
  destruct (embed_cache st !! v) as [b'|] eqn:Hc; [by intros [= <- <-]|].
  destruct (fetch_of s v st) as [[data|e] st2]; [|done].
  destruct (verdict data); [|done]. intros [= <- <-]. simpl.
  apply lookup_insert_eq.
Qed.

Lemma keeps_embeddable_of s v : keeps (embeddable_of s v).
Proof.
  intros st. rewrite embeddable_of_with, is_embeddable_with_eq.
  destruct (embed_cache st !! v) as [b'|] eqn:Hc; [apply extends_refl|].
  pose proof (frames_fetch_of s v st) as Hf.
  destruct (fetch_of s v st) as [[data|e] st2]; simpl in *;
    [|intros w b; by rewrite Hf].
  destruct (verdict data); simpl; [|intros w b; by rewrite Hf].
  intros w b' Hw. simpl. rewrite Hf.
  rewrite lookup_insert_ne; [done|]. intros ->. congruence.
Qed.

(* --------------------------------------------------------------------- *)
(** *** The verdict *)

(** A player response that passes: an object whose [playabilityStatus]
is an object with [status] "OK" and no [playableInEmbed] set to false. *)
Definition playable (data : json) : Prop :=
  ∃ m p, data = JObj m
         ∧ m !! "playabilityStatus" = Some (JObj p)
         ∧ p !! "status" = Some (JStr "OK")
         ∧ p !! "playableInEmbed" ≠ Some (JBool false).

Lemma json_truthy_obj (m : gmap string json) k x :
  m !! k = Some x → json_truthy (JObj m) = true.
Proof.
  intros Hk. simpl. apply negb_true_iff, bool_decide_eq_false.
  intros Hs. apply map_size_empty_iff in Hs. subst. by rewrite lookup_empty in Hk.
Qed.

Lemma verdict_playability (m p : gmap string json) :
  m !! "playabilityStatus" = Some (JObj p) →
  verdict (Some (JObj m))
  = Ok (is_OK (default JNull (p !! "status"))
        && negb (is_False (default JNull (p !! "playableInEmbed")))).
Proof.
  intros Hp. unfold verdict. rewrite (json_truthy_obj _ _ _ Hp). simpl.
  by rewrite Hp.
Qed.

Lemma verdict_true_iff data : verdict (Some data) = Ok true ↔ playable data.
Proof.
  split.
  - unfold verdict. destruct (negb (json_truthy data)); [done|].
    destruct data as [| | | | |m]; try done. simpl.
    destruct (m !! "playabilityStatus") as [[| | | | |p]|] eqn:Hp; try done.
    simpl. intros [= Hv]. apply andb_true_iff in Hv as [Hs Hf].
    exists m, p. repeat split; [done| |].
    + destruct (p !! "status") as [[| |?|s| |]|]; try done.
      simpl in Hs. by apply bool_decide_eq_true in Hs as ->.
    + intros Hpie. by rewrite Hpie in Hf.
  - intros (m & p & -> & Hp & Hs & Hpie).
    rewrite (verdict_playability _ _ Hp), Hs. simpl. do 2 f_equal.
    destruct (p !! "playableInEmbed") as [[|[]| | | |]|]; done.
Qed.

(** C6.  When the id is not cached and the fetch hands over a parsed
player response, the check of either script returns true if and only if
the nested playability status is "OK" and [playableInEmbed] is not
false.  In particular, for a response with a [playabilityStatus] object:
status "OK" and no [playableInEmbed] gives true; status "OK" and
[playableInEmbed] false gives false; status "LOGIN_REQUIRED" gives
false. *)
Theorem embeddable_iff_playable (s : script) (v : string) (st st1 : state)
    (data : json) :
  embed_cache st !! v = None →
  fetch_of s v st = (Ok (Some data), st1) →
  ((embeddable_of s v st).1 = Ok true ↔ playable data)
  ∧ ∀ m p, data = JObj m → m !! "playabilityStatus" = Some (JObj p) →
      (p !! "status" = Some (JStr "OK") → p !! "playableInEmbed" = None →
       (embeddable_of s v st).1 = Ok true)
      ∧ (p !! "status" = Some (JStr "OK") →
         p !! "playableInEmbed" = Some (JBool false) →
         (embeddable_of s v st).1 = Ok false)
      ∧ (p !! "status" = Some (JStr "LOGIN_REQUIRED") →
         (embeddable_of s v st).1 = Ok false).
Proof.
  intros Hc Hf.
  assert (Hv : (embeddable_of s v st).1 = verdict (Some data)).
  { rewrite embeddable_of_with, is_embeddable_with_eq, Hc, Hf.
    by destruct (verdict (Some data)). }
  rewrite Hv. split; [apply verdict_true_iff|].
  intros m p -> Hp. rewrite (verdict_playability _ _ Hp).
  repeat split.
  - by intros -> ->.
  - by intros -> ->.
  - by intros ->.
Qed.

(* --------------------------------------------------------------------- *)
(** *** The cache *)

Lemma frames_search_add query :
  frames (search_youtube_video_ids World http_get query).
Proof.
  apply frames_bind; [apply frames_get_retry_429|].
  intros r. destruct (negb _); apply frames_ret.
Qed.

Lemma frames_search_mal query limit :
  frames (_search_youtube_video_ids World http_get query limit).
Proof.
  intros st. unfold _search_youtube_video_ids.
  destruct (search_cache st !! query); [done|].
  revert st. apply frames_bind.
  - apply frames_try_except; [|apply frames_ret].
    apply frames_bind; [apply frames_get_retry_429|].
    intros r. destruct (negb _); apply frames_ret.
  - intros [r|]; [|apply frames_ret].
    apply frames_bind; [by intros st|]. intros _. apply frames_ret.
Qed.

Lemma keeps_try_candidates (check : string → M bool) candidates blocked_ids :
  (∀ v, keeps (check v)) → keeps (try_candidates World check candidates blocked_ids).
Proof.
  intros Hc. induction candidates as [|v rest IH]; simpl; [apply keeps_ret|].
  case_decide; [done|]. apply keeps_bind; [apply Hc|].
  intros [|]; [apply keeps_ret|done].
Qed.

Lemma keeps_try_queries (search : string → M (list string)) (check : string → M bool)
    qs blocked_ids :
  (∀ q, keeps (search q)) → (∀ v, keeps (check v)) →
  keeps (try_queries World search check qs blocked_ids).
Proof.
  intros Hs Hc. induction qs as [|q rest IH]; simpl; [apply keeps_ret|].
  apply keeps_bind; [apply Hs|]. intros candidates.
  apply keeps_bind; [by apply keeps_try_candidates|].
  intros [t|]; [apply keeps_ret|done].
Qed.

Lemma keeps_fallback_of s title blocked_ids : keeps (fallback_of s title blocked_ids).
Proof.
  destruct s; simpl.
  - apply keeps_try_queries.
    + intros q. apply frames_keeps, frames_search_add.
    + apply (keeps_embeddable_of AddTrailers).
  - unfold _find_embeddable_trailer. destruct (negb _); [apply keeps_ret|].
    apply keeps_try_queries.
    + intros q. apply frames_keeps, frames_search_mal.
    + apply (keeps_embeddable_of MalScraper).
Qed.

End EngineFacts.

(* ===================================================================== *)
(** ** A sample upstream *)
(* ===================================================================== *)

(** Two videos and one search page.  The watch page of [abc12345678]
says that it may not be embedded, the watch page of [xyz98765432] that
it plays; the search page lists both, in that order. *)
Module Upstream.

Definition q (s : string) : string := String dquote s.

(** the response object with status OK and nothing else *)
Definition playable_page : string :=
  "<script>var " +:+ marker +:+ "{"
  +:+ q ("playabilityStatus" +:+ q (":{" +:+ q ("status" +:+ q (":"
  +:+ q ("OK" +:+ q "}};var meta = {};</script>"))))).

(** the response object with status OK and playableInEmbed false *)
Definition blocked_page : string :=
  "<script>var " +:+ marker +:+ "{"
  +:+ q ("playabilityStatus" +:+ q (":{" +:+ q ("status" +:+ q (":"
  +:+ q ("OK" +:+ q ("," +:+ q ("playableInEmbed" +:+ q ":false}};</script>"))))))).

Definition search_page : string :=
  "var ytInitialData = {" +:+ videoId_field +:+ "abc12345678" +:+ q (","
  +:+ videoId_field +:+ "abc12345678" +:+ q (","
  +:+ videoId_field +:+ "xyz98765432" +:+ q "};")).

(** the answers of the upstream whose search page is found under [query] *)
Definition answer (query : string) (r : request) : http_outcome :=
  if decide (r = watch_request "abc12345678") then Response 200 blocked_page
  else if decide (r = watch_request "xyz98765432") then Response 200 playable_page
  else if decide (r = search_request query) then Response 200 search_page
  else Response 404 EmptyString.

(** an upstream that answers a request the same way each time *)
Definition fixed (answer : request → http_outcome)
    (r : request) (w : Scripted.World) : http_outcome * Scripted.World :=
  Scripted.http_get (λ r _, answer r) r w.

(** an upstream on which every request times out *)
Definition down : request → Scripted.World → http_outcome * Scripted.World :=
  fixed (λ _, NetTimeout).

End Upstream.

(** C6 on the sample upstream: the watch page of [xyz98765432] carries
status OK and no [playableInEmbed], and the check of add_trailers.py
returns true. *)
Lemma embeddable_iff_playable_witness :
  (is_embeddable JsonModel.json_loads Scripted.World
     (Upstream.fixed (Upstream.answer "Title official trailer"))
     "xyz98765432" Scripted.init).1 = Ok true.
Proof.
  refine (proj1 (proj2 (embeddable_iff_playable JsonModel.json_loads Scripted.World
            (Upstream.fixed (Upstream.answer "Title official trailer"))
            AddTrailers "xyz98765432" Scripted.init
            (mkState [watch_request "xyz98765432"] ∅ ∅ [watch_request "xyz98765432"])
            (JObj {[ "playabilityStatus" := JObj {[ "status" := JStr "OK" ]} ]})
            _ _)
          {[ "playabilityStatus" := JObj {[ "status" := JStr "OK" ]} ]}
          {[ "status" := JStr "OK" ]} _ _) _ _);
    reflexivity.
Defined.

(** C4 at a failing input: the watch page of [abc12345678] is asked for
and the request times out.  The check of mal_scraper.py catches the
exception and returns false; the check of add_trailers.py lets it
through to its caller. *)
Theorem is_embeddable_raises_on_timeout :
  (is_embeddable JsonModel.json_loads Scripted.World Upstream.down
     "abc12345678" Scripted.init).1 = Raise Timeout
  ∧ (_is_youtube_embeddable JsonModel.json_loads Scripted.World Upstream.down
       "abc12345678" Scripted.init).1 = Ok false.
Proof. split; reflexivity. Qed.

(* ===================================================================== *)
(** ** The search fallback under a fixed assignment of answers *)
(* ===================================================================== *)

(** the search of each script, with the limit that the fallback uses *)
Definition search_of (World : Type)
    (http_get : request → World → http_outcome * World) (s : script)
  : string → M World (list string) :=
  match s with
  | AddTrailers => search_youtube_video_ids World http_get
  | MalScraper => λ query, _search_youtube_video_ids World http_get query 12
  end.

(** the wrapping of a hit *)
Definition found (v : string) : dict := build_youtube_trailer v "youtube-search".

(** the first id, in the order of the lists, that is not blocked and
that the verdicts [Emb] accept *)
Definition first_embeddable (blocked_ids : gset string) (Emb : string → bool)
    (lists : list (list string)) : option string :=
  head (filter (λ v, (v ∉ blocked_ids) ∧ (Emb v = true)) (mjoin lists)).

Section FixedAnswers.
Context `{PyLib}.
Variable json_loads : string → res json.
Variable World : Type.
Variable http_get : request → World → http_outcome * World.

(** The upstream answers a request the same way whenever it is asked. *)
Variable answer : request → http_outcome.
Hypothesis fixed : ∀ r w, (http_get r w).1 = answer r.

Local Abbreviation state := (state World).
Local Abbreviation M := (M World).
Local Abbreviation fetch_of := (fetch_of json_loads World http_get).
Local Abbreviation embeddable_of := (embeddable_of json_loads World http_get).
Local Abbreviation fallback_of := (fallback_of json_loads World http_get).
Local Abbreviation search_of := (search_of World http_get).

(** what a request comes back with *)
Definition page_of (r : request) : res (Z * string) :=
  match answer r with
  | NetTimeout => Raise Timeout
  | NetConnectionFailure => Raise ConnectionError
  | Response status_code text => Ok (status_code, text)
  end.

(** what the [try] of a script makes of an outcome: mal_scraper.py turns
a [requests.RequestException] into [None] *)
Definition caught {A} (s : script) (r : res (option A)) : res (option A) :=
  match s, r with
  | MalScraper, Raise e => if is_RequestException e then Ok None else Raise e
  | _, _ => r
  end.

(** what the fetch of a script makes of the watch page of an id *)
Definition fetched (s : script) (v : string) : res (option json) :=
  caught s
    (match page_of (watch_request v) with
     | Ok (status_code, text) =>
         if negb (ok status_code) then Ok None
         else extract_player_response json_loads text
     | Raise e => Raise e
     end).

(** the verdict of a script on an id *)
Definition verdict_of (s : script) (v : string) : res bool :=
  mbind verdict (fetched s v).

(** the ids a script reads off the search page of a query *)
Definition results_of (s : script) (query : string) : res (list string) :=
  match page_of (search_request query) with
  | Ok (status_code, text) =>
      Ok (if negb (ok status_code) then [] else ids_of_page 12 text)
  | Raise e => match s with AddTrailers => Raise e | MalScraper => Ok [] end
  end.

(** both caches agree with the answers of the upstream *)
Definition consistent (s : script) (st : state) : Prop :=
  (∀ v b, embed_cache st !! v = Some b → verdict_of s v = Ok b)
  ∧ (∀ query ids, search_cache st !! query = Some ids → results_of s query = Ok ids).

(** a computation that touches neither cache *)
Definition quiet {A} (m : M A) : Prop :=
  ∀ st, embed_cache (m st).2 = embed_cache st
        ∧ search_cache (m st).2 = search_cache st.

Lemma bind_eq {A B} (m : M A) (k : A → M B) st :
  (m ≫= k) st = match m st with
                | (Ok a, st1) => k a st1
                | (Raise e, st1) => (Raise e, st1)
                end.
Proof. reflexivity. Qed.

Lemma quiet_ret {A} (a : A) : quiet (mret a : M A).
Proof. by intros st. Qed.

Lemma quiet_bind {A B} (m : M A) (k : A → M B) :
  quiet m → (∀ a, quiet (k a)) → quiet (m ≫= k).
Proof.
  intros Hm Hk st. rewrite bind_eq. destruct (Hm st) as [He Hs].
  destruct (m st) as [[a|e] st1]; simpl in *; [|done].
  destruct (Hk a st1) as [He' Hs']. by rewrite He', Hs'.
Qed.

Lemma quiet_try_except {A} (m h : M A) :
  quiet m → quiet h → quiet (try_except World m h).
Proof.
  intros Hm Hh st. unfold try_except. destruct (Hm st) as [He Hs].
  destruct (m st) as [[a|e] st1]; simpl in *; [done|].
  destruct (is_RequestException e); simpl; [|done].
  destruct (Hh st1) as [He' Hs']. by rewrite He', Hs'.
Qed.

Lemma quiet_session_get r : quiet (session_get World http_get r).
Proof.
  intros st. unfold session_get.
  by destruct (http_get r (world st)) as [[| |status text] w].
Qed.

Lemma quiet_get_retry_429 r : quiet (get_retry_429 World http_get r).
Proof.
  apply quiet_bind; [apply quiet_session_get|].
  intros response. case_decide; [apply quiet_session_get|apply quiet_ret].
Qed.

Lemma session_get_fixed r st : (session_get World http_get r st).1 = page_of r.
Proof.
  unfold session_get, page_of. rewrite <- (fixed r (world st)).
  by destruct (http_get r (world st)) as [[| |status text] w].
Qed.

Lemma get_retry_429_fixed r st : (get_retry_429 World http_get r st).1 = page_of r.
Proof.
  unfold get_retry_429. rewrite bind_eq.
  pose proof (session_get_fixed r st) as H1.
  destruct (session_get World http_get r st) as [[response|e] st1]; simpl in *; [|done].
  case_decide; [|done]. apply session_get_fixed.
Qed.

(** the body shared by the two fetches *)
Definition fetch_body (v : string) : M (option json) :=
  response ← get_retry_429 World http_get (watch_request v);
  if negb (ok response.1) then mret None
  else lift World (extract_player_response json_loads response.2).

Lemma quiet_lift {A} (r : res A) : quiet (lift World r).
Proof. by intros st. Qed.

Lemma quiet_fetch_body v : quiet (fetch_body v).
Proof.
  apply quiet_bind; [apply quiet_get_retry_429|].
  intros r. destruct (negb _); [apply quiet_ret|apply quiet_lift].
Qed.

Lemma fetch_body_fixed v st :
  (fetch_body v st).1 = fetched AddTrailers v.
Proof.
  unfold fetch_body, fetched, caught. rewrite bind_eq.
  pose proof (get_retry_429_fixed (watch_request v) st) as H1.
  destruct (get_retry_429 _ _ _ st) as [[[status text]|e] st1]; simpl in *;
    rewrite <- H1; [|done].
  by destruct (negb (ok status)).
Qed.

Lemma page_of_raises r e : page_of r = Raise e → is_RequestException e = true.
Proof. unfold page_of. destruct (answer r); by intros [= <-]. Qed.

Lemma quiet_fetch_of s v : quiet (fetch_of s v).
Proof.
  destruct s; [apply quiet_fetch_body|].
  apply quiet_try_except; [apply quiet_fetch_body|apply quiet_ret].
Qed.

Lemma fetch_of_fixed s v st : (fetch_of s v st).1 = fetched s v.
Proof.
  destruct s; [apply fetch_body_fixed|].
  change (fetch_of MalScraper v) with (try_except World (fetch_body v) (mret None)).
  unfold try_except. pose proof (fetch_body_fixed v st) as H1.
  unfold fetched, caught in *.
  destruct (fetch_body v st) as [[data|e] st1]; cbn [fst snd] in *.
  - by rewrite <- H1.
  - rewrite <- H1. by destruct (is_RequestException e).
Qed.

Lemma embeddable_of_fixed s v st :
  consistent s st →
  (embeddable_of s v st).1 = verdict_of s v ∧ consistent s (embeddable_of s v st).2.
Proof.
  intros [Hce Hcs]. rewrite embeddable_of_with, is_embeddable_with_eq.
  destruct (embed_cache st !! v) as [b|] eqn:Hc.
  { split; [by rewrite (Hce _ _ Hc)|done]. }
  pose proof (fetch_of_fixed s v st) as Hf.
  destruct (quiet_fetch_of s v st) as [Qe Qs].
  unfold verdict_of. rewrite <- Hf.
  destruct (fetch_of s v st) as [[data|e] st1];
    simpl in *.
  2:{ split; [done|]. split; intros ? ?; rewrite ?Qe, ?Qs; [apply Hce|apply Hcs]. }
  destruct (verdict data) as [b|e] eqn:Hv; simpl.
  2:{ split; [done|]. split; intros ? ?; rewrite ?Qe, ?Qs; [apply Hce|apply Hcs]. }
  split; [done|]. split; simpl.
  - intros w b'. rewrite Qe. destruct (decide (v = w)) as [<-|Hne].
    + rewrite lookup_insert_eq. intros [= <-]. unfold verdict_of.
      rewrite <- Hf. simpl. exact Hv.
    + rewrite lookup_insert_ne by done. apply Hce.
  - intros query ids. rewrite Qs. apply Hcs.
Qed.

(** the cached search, one case at a time *)
Lemma search_mal_eq query limit st :
  _search_youtube_video_ids World http_get query limit st =
  match search_cache st !! query with
  | Some ids => (Ok ids, st)
  | None =>
      match get_retry_429 World http_get (search_request query) st with
      | (Ok response, st1) =>
          if negb (ok response.1) then (Ok [], st1)
          else (Ok (ids_of_page limit response.2),
                mkState (world st1) (embed_cache st1)
                        (<[query := ids_of_page limit response.2]> (search_cache st1))
                        (sent st1))
      | (Raise e, st1) =>
          if is_RequestException e then (Ok [], st1) else (Raise e, st1)
      end
  end.
Proof.
  unfold _search_youtube_video_ids. destruct (search_cache st !! query); [done|].
  rewrite bind_eq. unfold try_except. rewrite bind_eq.
  destruct (get_retry_429 _ _ _ st) as [[response|e] st1]; simpl.
  - by destruct (negb (ok response.1)).
  - by destruct (is_RequestException e).
Qed.

Lemma search_of_fixed s query st :
  consistent s st →
  (search_of s query st).1 = results_of s query
  ∧ consistent s (search_of s query st).2.
Proof.
  intros [Hce Hcs].
  pose proof (get_retry_429_fixed (search_request query) st) as Hg.
  destruct (quiet_get_retry_429 (search_request query) st) as [Qe Qs].
  assert (Hkeep : ∀ st1 : state,
            embed_cache st1 = embed_cache st → search_cache st1 = search_cache st →
            consistent s st1).
  { intros st1 He Hs. split; intros ? ?; rewrite ?He, ?Hs; [apply Hce|apply Hcs]. }
  destruct s; simpl.
  - unfold search_youtube_video_ids, results_of. rewrite bind_eq.
    destruct (get_retry_429 _ _ _ st) as [[[status text]|e] st1]; simpl in *;
      rewrite <- Hg.
    + split; [by destruct (negb (ok status))|].
      destruct (negb (ok status)); simpl; by apply Hkeep.
    + split; [done|]. by apply Hkeep.
  - rewrite search_mal_eq.
    destruct (search_cache st !! query) as [ids|] eqn:Hc.
    { split; [by rewrite (Hcs _ _ Hc)|done]. }
    unfold results_of.
    destruct (get_retry_429 _ _ _ st) as [[[status text]|e] st1] eqn:Hrun;
      simpl in *; rewrite <- Hg.
    + destruct (negb (ok status)) eqn:Hok; simpl.
      * split; [done|]. by apply Hkeep.
      * split; [done|]. split; simpl.
        -- intros ? ?. rewrite Qe. apply Hce.
        -- intros q' ids'. rewrite Qs. destruct (decide (query = q')) as [<-|Hne].
           ++ rewrite lookup_insert_eq. intros [= <-].
              unfold results_of. rewrite <- Hg. simpl. by rewrite Hok.
           ++ rewrite lookup_insert_ne by done. apply Hcs.
    + rewrite (page_of_raises (search_request query) e) by done. simpl.
      split; [done|]. by apply Hkeep.
Qed.

Lemma try_candidates_fixed s blocked_ids Emb ids st :
  consistent s st →
  (∀ v, v ∈ ids → v ∉ blocked_ids → verdict_of s v = Ok (Emb v)) →
  (try_candidates World (embeddable_of s) ids blocked_ids st).1
    = Ok (found <$> first_embeddable blocked_ids Emb [ids])
  ∧ consistent s (try_candidates World (embeddable_of s) ids blocked_ids st).2.
Proof.
  unfold first_embeddable. simpl. rewrite app_nil_r.
  revert st. induction ids as [|v rest IH]; intros st Hst Hv; [done|].
  simpl. rewrite filter_cons.
  assert (Hrest : ∀ w, w ∈ rest → w ∉ blocked_ids → verdict_of s w = Ok (Emb w)).
  { intros w Hw. apply Hv. by right. }
  destruct (decide (v ∈ blocked_ids)) as [Hb|Hb].
  { rewrite decide_False by tauto. by apply IH. }
  rewrite bind_eq.
  destruct (embeddable_of_fixed s v st Hst) as [Hr Hst1].
  rewrite (Hv v) in Hr by (done || by left).
  destruct (embeddable_of s v st) as [[b|e] st1];
    simpl in *; [|done].
  injection Hr as ->. destruct (Emb v) eqn:HE.
  - rewrite decide_True by done. done.
  - rewrite decide_False by (intros [_ ?]; done). by apply IH.
Qed.

Lemma first_embeddable_cons blocked_ids Emb ids lists :
  first_embeddable blocked_ids Emb (ids :: lists)
  = match first_embeddable blocked_ids Emb [ids] with
    | Some v => Some v
    | None => first_embeddable blocked_ids Emb lists
    end.
Proof.
  unfold first_embeddable. simpl. rewrite app_nil_r, filter_app.
  by destruct (filter _ ids).
Qed.

Lemma try_queries_fixed s blocked_ids Srch Emb qs st :
  consistent s st →
  (∀ query, query ∈ qs → results_of s query = Ok (Srch query)) →
  (∀ query v, query ∈ qs → v ∈ Srch query → v ∉ blocked_ids →
     verdict_of s v = Ok (Emb v)) →
  (try_queries World (search_of s) (embeddable_of s) qs blocked_ids st).1
    = Ok (found <$> first_embeddable blocked_ids Emb (Srch <$> qs))
  ∧ consistent s (try_queries World (search_of s) (embeddable_of s) qs blocked_ids st).2.
Proof.
  revert st. induction qs as [|query rest IH]; intros st Hst Hs Hv; [done|].
  simpl. rewrite first_embeddable_cons, bind_eq.
  destruct (search_of_fixed s query st Hst) as [Hr Hst1].
  rewrite (Hs query) in Hr by by left.
  destruct (search_of s query st) as [[ids|e] st1];
    simpl in *; [|done].
  injection Hr as ->. rewrite bind_eq.
  destruct (try_candidates_fixed s blocked_ids Emb (Srch query) st1 Hst1) as [Hc Hst2].
  { intros v Hin. apply (Hv query); [by left|done]. }
  destruct (try_candidates _ _ _ _ st1) as [[r|e] st2]; simpl in *; [|done].
  injection Hc as ->.
  destruct (first_embeddable blocked_ids Emb [Srch query]) as [v|]; simpl; [done|].
  apply IH; [done| |].
  - intros q' Hq'. apply Hs. by right.
  - intros q' v Hq'. apply Hv. by right.
Qed.

Lemma fallback_of_queries s title blocked_ids :
  (s = MalScraper → title ≠ EmptyString) →
  fallback_of s title blocked_ids
  = try_queries World (search_of s) (embeddable_of s) (queries title) blocked_ids.
Proof.
  destruct s; [done|]. intros Ht. simpl. unfold _find_embeddable_trailer.
  destruct title; [by destruct Ht|done].
Qed.

(** Under a fixed assignment of answers under which no search and no
check of a candidate raises, the fallback returns the first id, queries
in the declared order and ids in page order, that is not blocked and
that the verdicts accept. *)
Lemma fallback_of_fixed s title blocked_ids Srch Emb st :
  (s = MalScraper → title ≠ EmptyString) →
  consistent s st →
  (∀ query, query ∈ queries title → results_of s query = Ok (Srch query)) →
  (∀ query v, query ∈ queries title → v ∈ Srch query → v ∉ blocked_ids →
     verdict_of s v = Ok (Emb v)) →
  (fallback_of s title blocked_ids st).1
    = Ok (found <$> first_embeddable blocked_ids Emb (Srch <$> queries title))
  ∧ consistent s (fallback_of s title blocked_ids st).2.
Proof.
  intros Ht Hst Hs Hv. rewrite (fallback_of_queries s title blocked_ids Ht).
  by apply try_queries_fixed.
Qed.

End FixedAnswers.

Lemma first_embeddable_Some blocked_ids Emb lists v :
  first_embeddable blocked_ids Emb lists = Some v →
  (v ∉ blocked_ids) ∧ Emb v = true ∧ ∃ ids, ids ∈ lists ∧ v ∈ ids.
Proof.
  unfold first_embeddable. intros Hh.
  assert (Hin : v ∈ filter (λ v, (v ∉ blocked_ids) ∧ (Emb v = true)) (mjoin lists)).
  { destruct (filter _ (mjoin lists)) as [|w l]; [done|].
    injection Hh as ->. by left. }
  apply list_elem_of_filter in Hin as [[Hb HE] Hin].
  split; [done|]. split; [done|]. apply list_elem_of_join in Hin as (ids & Hv & Hids).
  by exists ids.
Qed.

Lemma first_embeddable_None blocked_ids Emb lists :
  first_embeddable blocked_ids Emb lists = None ↔
  ∀ ids v, ids ∈ lists → v ∈ ids → v ∈ blocked_ids ∨ Emb v = false.
Proof.
  unfold first_embeddable. split.
  - intros Hh ids v Hids Hv.
    destruct (decide (v ∈ blocked_ids)) as [|Hb]; [by left|]. right.
    destruct (Emb v) eqn:HE; [|done].
    assert (Hin : v ∈ filter (λ v, (v ∉ blocked_ids) ∧ (Emb v = true)) (mjoin lists)).
    { apply list_elem_of_filter. split; [done|]. apply list_elem_of_join. by exists ids. }
    destruct (filter _ (mjoin lists)); [|done]. by apply elem_of_nil in Hin.
  - intros Hall.
    destruct (filter _ (mjoin lists)) as [|w l] eqn:Hf; [done|].
    assert (Hin : w ∈ filter (λ v, (v ∉ blocked_ids) ∧ (Emb v = true)) (mjoin lists))
      by (rewrite Hf; by left).
    apply list_elem_of_filter in Hin as [[Hb HE] Hin].
    apply list_elem_of_join in Hin as (ids & Hv & Hids).
    destruct (Hall ids w Hids Hv); [done|congruence].
Qed.

Section FallbackHit.
Variable json_loads : string → res json.
Variable World : Type.
Variable http_get : request → World → http_outcome * World.

Lemma try_candidates_hit (check : string → M World bool) ids blocked_ids st t st' :
  try_candidates World check ids blocked_ids st = (Ok (Some t), st') →
  ∃ v st0, t = found v ∧ v ∈ ids ∧ (v ∉ blocked_ids) ∧ check v st0 = (Ok true, st').
Proof.
  revert st. induction ids as [|v rest IH]; intros st; simpl; [done|].
  case_decide as Hb.
  { intros Hr. destruct (IH _ Hr) as (w & st0 & ? & ? & ? & ?).
    exists w, st0. repeat split; [done|by right|done|done]. }
  rewrite bind_eq. destruct (check v st) as [[[|]|e] st1] eqn:Hc; [| |done].
  - intros [= <- <-]. exists v, st. repeat split; [by left|done|done].
  - intros Hr. destruct (IH _ Hr) as (w & st0 & ? & ? & ? & ?).
    exists w, st0. repeat split; [done|by right|done|done].
Qed.

Lemma try_queries_hit (search : string → M World (list string))
    (check : string → M World bool) qs blocked_ids st t st' :
  try_queries World search check qs blocked_ids st = (Ok (Some t), st') →
  ∃ v st0, t = found v ∧ (v ∉ blocked_ids) ∧ check v st0 = (Ok true, st').
Proof.
  revert st. induction qs as [|query rest IH]; intros st; simpl; [done|].
  rewrite bind_eq. destruct (search query st) as [[ids|e] st1]; [|done].
  rewrite bind_eq.
  destruct (try_candidates World check ids blocked_ids st1) as [[[t'|]|e] st2] eqn:Hc;
    [| |done].
  - intros [= <- <-].
    destruct (try_candidates_hit _ _ _ _ _ _ Hc) as (v & st0 & ? & ? & ? & ?).
    by exists v, st0.
  - apply IH.
Qed.

(** Whatever the upstream does, a trailer that the fallback of either
script returns is built by [build_youtube_trailer] with the tag
[youtube-search] for an id that is not blocked and that the cache now
holds as embeddable. *)
Lemma fallback_of_hit s title blocked_ids st t st' :
  fallback_of json_loads World http_get s title blocked_ids st = (Ok (Some t), st') →
  ∃ v, t = found v ∧ (v ∉ blocked_ids) ∧ embed_cache st' !! v = Some true.
Proof.
  intros Hr.
  assert (∃ v st0, t = found v ∧ (v ∉ blocked_ids)
            ∧ embeddable_of json_loads World http_get s v st0 = (Ok true, st'))
    as (v & st0 & -> & Hb & Hc).
  { destruct s; simpl in Hr.
    - by apply try_queries_hit in Hr.
    - unfold _find_embeddable_trailer in Hr. destruct (negb _); [done|].
      by apply try_queries_hit in Hr. }
  exists v. repeat split; [done|]. by eapply embeddable_of_caches.
Qed.

End FallbackHit.

(** C7, as the code has it.  For either script, every title and every
set of blocked ids:
- whatever the upstream does, a trailer that the fallback returns is
  built for an id that is not blocked and that was just verified
  embeddable, and carries the provenance tag [youtube-search];
- the queries are [title official trailer], [title trailer] and
  [title PV], in that order;
- under a fixed assignment of search results [Srch] and verdicts [Emb]
  (no search and no check raising), and for a non-empty title in
  mal_scraper.py, the fallback returns the first id, queries in that
  order and ids in page order, that is not blocked and is embeddable,
  and it returns null exactly when every id of every query is blocked or
  not embeddable. *)
Theorem fallback_first_embeddable (json_loads : string → res json) (World : Type)
    (http_get : request → World → http_outcome * World)
    (s : script) (title : string) (blocked_ids : gset string) (st : state World) :
  (∀ t st',
     fallback_of json_loads World http_get s title blocked_ids st = (Ok (Some t), st') →
     ∃ v, t = build_youtube_trailer v "youtube-search"
          ∧ (v ∉ blocked_ids) ∧ embed_cache st' !! v = Some true)
  ∧ queries title = [title +:+ " official trailer"; title +:+ " trailer"; title +:+ " PV"]
  ∧ ∀ (answer : request → http_outcome) (Srch : string → list string)
      (Emb : string → bool),
      (∀ r w, (http_get r w).1 = answer r) →
      (s = MalScraper → title ≠ EmptyString) →
      consistent json_loads World answer s st →
      (∀ query, query ∈ queries title → results_of answer s query = Ok (Srch query)) →
      (∀ query v, query ∈ queries title → v ∈ Srch query → v ∉ blocked_ids →
         verdict_of json_loads answer s v = Ok (Emb v)) →
      (fallback_of json_loads World http_get s title blocked_ids st).1
        = Ok ((λ v, build_youtube_trailer v "youtube-search")
              <$> first_embeddable blocked_ids Emb (Srch <$> queries title))
      ∧ ((fallback_of json_loads World http_get s title blocked_ids st).1 = Ok None ↔
         ∀ query v, query ∈ queries title → v ∈ Srch query →
                    v ∈ blocked_ids ∨ Emb v = false).
Proof.
  split; [intros t st'; apply fallback_of_hit|]. split; [done|].
  intros answer Srch Emb Hfixed Ht Hst Hs Hv.
  destruct (fallback_of_fixed json_loads World http_get answer Hfixed
              s title blocked_ids Srch Emb st Ht Hst Hs Hv) as [Hr _].
  split; [exact Hr|]. rewrite Hr. split.
  - intros Hnone query v Hq Hin.
    destruct (first_embeddable blocked_ids Emb (Srch <$> queries title)) eqn:Hf; [done|].
    apply (proj1 (first_embeddable_None _ _ _) Hf (Srch query)); [|done].
    by apply list_elem_of_fmap_2.
  - intros Hall.
    rewrite (proj2 (first_embeddable_None blocked_ids Emb (Srch <$> queries title)));
      [done|].
    intros ids v Hids Hin. apply list_elem_of_fmap in Hids as (query & -> & Hq).
    by apply (Hall query).
Qed.

(** C7 refuted as stated: with an empty title the first query is
[ official trailer]; on the sample upstream its page lists an id that
is embeddable and not blocked.  The fallback of mal_scraper.py returns
null at once, without sending a request; the fallback of
add_trailers.py returns that id. *)
Lemma mal_fallback_gives_up_on_empty_title :
  _find_embeddable_trailer JsonModel.json_loads Scripted.World
    (Upstream.fixed (Upstream.answer " official trailer")) EmptyString ∅ Scripted.init
  = (Ok None, Scripted.init)
  ∧ (find_embeddable_trailer JsonModel.json_loads Scripted.World
       (Upstream.fixed (Upstream.answer " official trailer")) EmptyString ∅
       Scripted.init).1
    = Ok (Some (build_youtube_trailer "xyz98765432" "youtube-search")).
Proof. split; reflexivity. Qed.

(** the search results and the verdicts of the sample upstream *)
Definition sample_results (query : string) : list string :=
  if decide (query = "Title official trailer") then ["abc12345678"; "xyz98765432"]
  else [].
Definition sample_verdict (v : string) : bool := bool_decide (v = "xyz98765432").

(** The amended C7 on the sample upstream: the entry's own id
[abc12345678] is blocked, the search page of the first query lists it
before [xyz98765432], and the fallback returns the latter. *)
Lemma fallback_first_embeddable_witness :
  (find_embeddable_trailer JsonModel.json_loads Scripted.World
     (Upstream.fixed (Upstream.answer "Title official trailer"))
     "Title" {[ "abc12345678" ]} Scripted.init).1
  = Ok ((λ v, build_youtube_trailer v "youtube-search")
        <$> first_embeddable {[ "abc12345678" ]} sample_verdict
              (sample_results <$> queries "Title")).
Proof.
  refine (proj1 (proj2 (proj2 (fallback_first_embeddable JsonModel.json_loads
            Scripted.World (Upstream.fixed (Upstream.answer "Title official trailer"))
            AddTrailers "Title" {[ "abc12345678" ]} Scripted.init))
          (Upstream.answer "Title official trailer") sample_results sample_verdict
          _ _ _ _ _)).
  - intros r w. reflexivity.
  - intros [=].
  - split; intros ? ?; simpl; rewrite lookup_empty; intros [=].
  - intros query Hq. repeat (apply elem_of_cons in Hq as [->|Hq]); try reflexivity.
    by apply elem_of_nil in Hq.
  - intros query v Hq Hv Hb.
    repeat (apply elem_of_cons in Hq as [->|Hq]); [| | |by apply elem_of_nil in Hq].
    + repeat (apply elem_of_cons in Hv as [->|Hv]); [| |by apply elem_of_nil in Hv].
      * destruct Hb. by apply elem_of_singleton.
      * reflexivity.
    + by apply elem_of_nil in Hv.
    + by apply elem_of_nil in Hv.
Defined.

Example sample_first_embeddable :
  first_embeddable {[ "abc12345678" ]} sample_verdict (sample_results <$> queries "Title")
  = Some "xyz98765432".
Proof. reflexivity. Qed.

(* ===================================================================== *)
(** ** The trace of requests *)
(* ===================================================================== *)

(** the id that both scripts read off a trailer: its [id], else the id
in its [url] *)
Definition candidate_id `{PyLib} (c : option dict) : option string :=
  if dict_truthy c then
    Py.or_else (get (default ∅ c) "id")
      (extract_youtube_id (Some (str_or (get (default ∅ c) "url") EmptyString)))
  else None.



(** a watch request, for any id *)
Definition is_watch (r : request) : Prop := ∃ v, r = watch_request v.

Lemma search_not_watch query : ¬ is_watch (search_request query).
Proof. by intros [v [=]]. Qed.

Section Traces.
Context `{PyLib}.
Variable json_loads : string → res json.
Variable World : Type.
Variable http_get : request → World → http_outcome * World.

Local Abbreviation state := (state World).
Local Abbreviation M := (M World).
Local Abbreviation fetch_of := (fetch_of json_loads World http_get).
Local Abbreviation embeddable_of := (embeddable_of json_loads World http_get).
Local Abbreviation fallback_of := (fallback_of json_loads World http_get).
Local Abbreviation search_of := (search_of World http_get).
Local Abbreviation verify_entry := (verify_entry json_loads World http_get).
Local Abbreviation verify_pass := (verify_pass json_loads World http_get).
Local Abbreviation select_from := (select_from json_loads World http_get).



















Lemma keeps_verify_entry e : keeps World (verify_entry e).
Proof.
  unfold verify_entry. destruct (negb _); [apply keeps_ret|].
  destruct (negb _); [apply keeps_ret|].
  apply keeps_bind; [apply (keeps_embeddable_of json_loads World http_get AddTrailers)|].
  intros [|]; [apply keeps_ret|].
  apply keeps_bind; [apply (keeps_fallback_of json_loads World http_get AddTrailers)|].
  intros alt. destruct (dict_truthy alt); apply keeps_ret.
Qed.

Lemma keeps_verify_pass l : keeps World (verify_pass l).
Proof.
  induction l as [|e rest IH]; simpl; [apply keeps_ret|].
  apply keeps_bind; [apply keeps_verify_entry|]. intros e'.
  apply keeps_bind; [done|]. intros rest'. apply keeps_ret.
Qed.



End Traces.


(* ===================================================================== *)
(** ** The two orchestrations *)
(* ===================================================================== *)

Section Orchestration.
Context `{PyLib}.
Variable json_loads : string → res json.
Variable World : Type.
Variable http_get : request → World → http_outcome * World.
Variable anilist_trailers : gmap Z (option dict).
Variable jikan_response : Z → jikan_answer.

Local Abbreviation state := (state World).
Local Abbreviation anilist_raw := (provider_a anilist_trailers).
Local Abbreviation jikan_raw := (provider_b jikan_response).
Local Abbreviation batched :=
  (batched json_loads World http_get anilist_trailers jikan_response).
Local Abbreviation verify_entry := (verify_entry json_loads World http_get).
Local Abbreviation verify_pass := (verify_pass json_loads World http_get).
Local Abbreviation select_from := (select_from json_loads World http_get).
Local Abbreviation acquire := (acquire anilist_trailers jikan_response).
Local Abbreviation embeddable_of := (embeddable_of json_loads World http_get).

Lemma normalize_anilist_trailer_falsy t :
  dict_truthy t = false → normalize_anilist_trailer t = None.
Proof. unfold normalize_anilist_trailer. by intros ->. Qed.

Lemma normalize_jikan_trailer_falsy t :
  dict_truthy t = false → normalize_jikan_trailer t = None.
Proof. unfold normalize_jikan_trailer. by intros ->. Qed.


Lemma set_trailer_same e : set_trailer e (e_trailer e) = e.
Proof. by destruct e. Qed.

(** what the acquire pass leaves in an entry that it treats *)
Definition acquired (e : entry) : option dict :=
  match normalize_anilist_trailer (anilist_raw e) with
  | Some a => Some a
  | None =>
      match normalize_jikan_trailer (jikan_raw e) with
      | Some b => Some b
      | None => e_trailer e
      end
  end.

(** what the acquire pass does to one entry *)
Definition acquire_step (refresh : bool) (e : entry) : entry :=
  if refresh || negb (has_trailer e) then set_trailer e (acquired e) else e.

Lemma normalize_anilist_trailer_truthy t a :
  normalize_anilist_trailer t = Some a → dict_truthy (Some a) = true.
Proof.
  unfold normalize_anilist_trailer. destruct (negb (dict_truthy t)); [done|].
  destruct (_ || _); [done|]. intros [= <-].
  simpl. apply negb_true_iff, bool_decide_eq_false. intros E.
  apply (f_equal (λ m : dict, m !! "site")) in E. vm_compute in E. done.
Qed.

Lemma normalize_jikan_trailer_truthy t b :
  normalize_jikan_trailer t = Some b → dict_truthy (Some b) = true.
Proof.
  unfold normalize_jikan_trailer. destruct (negb (dict_truthy t)); [done|].
  destruct (_ && _); [done|]. intros [= <-].
  simpl. apply negb_true_iff, bool_decide_eq_false. intros E.
  apply (f_equal (λ m : dict, m !! "site")) in E. vm_compute in E. done.
Qed.

Lemma acquire_entry refresh e :
  refresh || negb (has_trailer e) = true →
  jikan_pass jikan_response (anilist_pass anilist_trailers refresh e)
  = set_trailer e (acquired e).
Proof.
  intros Hneeds. unfold anilist_pass, acquired. rewrite Hneeds.
  fold (anilist_raw e).
  assert (Ha : (if dict_truthy (anilist_raw e)
                then normalize_anilist_trailer (anilist_raw e) else None)
               = normalize_anilist_trailer (anilist_raw e)).
  { destruct (dict_truthy (anilist_raw e)) eqn:E; [done|].
    by rewrite normalize_anilist_trailer_falsy. }
  rewrite Ha.
  destruct (normalize_anilist_trailer (anilist_raw e)) as [a|] eqn:Ea.
  { by rewrite (normalize_anilist_trailer_truthy _ _ Ea). }
  simpl. unfold provider_b.
  destruct (e_malId e) as [mal_id|]; cbn [mbind option_bind].
  2:{ rewrite normalize_jikan_trailer_falsy by done. by rewrite set_trailer_same. }
  destruct (fetch_jikan_trailer jikan_response mal_id) as [t|]; cbn [mbind option_bind].
  2:{ rewrite normalize_jikan_trailer_falsy by done. by rewrite set_trailer_same. }
  unfold id.
  destruct (normalize_jikan_trailer t) as [b|] eqn:Eb.
  - by rewrite (normalize_jikan_trailer_truthy _ _ Eb).
  - simpl. by rewrite set_trailer_same.
Qed.

Lemma acquire_steps refresh anime_list :
  acquire refresh anime_list = acquire_step refresh <$> anime_list.
Proof.
  unfold acquire. rewrite <- list_fmap_compose. apply list_fmap_ext.
  intros i e _. cbn. unfold acquire_step.
  destruct (refresh || negb (has_trailer e)) eqn:E.
  - by apply acquire_entry.
  - unfold anilist_pass. by rewrite E.
Qed.

Lemma verify_entry_no_trailer e st :
  dict_truthy (e_trailer e) = false → verify_entry e st = (Ok e, st).
Proof. unfold verify_entry. by intros ->. Qed.





Lemma id_expr_cases (t : dict) (u : option string) :
  let r := Py.or_else (get t "id") (extract_youtube_id u) in
  r = None ∨ ∃ c v, r = Some (String c v).
Proof.
  simpl. unfold Py.or_else. destruct (Py.truthy (get t "id")) eqn:E.
  - right. apply truthy_true_cases in E as ([|c v] & -> & Hv); [done|]. by exists c, v.
  - destruct (extract_youtube_id u) as [[|c v]|] eqn:Eu; [|right; by exists c, v|by left].
    by destruct (extract_youtube_id_not_empty u).
Qed.

Lemma candidate_id_cases c :
  candidate_id c = None ∨ ∃ a v, candidate_id c = Some (String a v).
Proof.
  unfold candidate_id. destruct (dict_truthy c); [apply id_expr_cases|by left].
Qed.

(** the candidate that the selection of mal_scraper.py returns once the
check has passed: the id and the provenance are written into it *)
Definition stamped (c : dict) (v source : string) : dict :=
  <["source" := Some (str_or (get (<["id" := Some v]> c) "source") source)]>
    (<["id" := Some v]> c).







End Orchestration.


(** The sample providers.  Provider A holds one trailer, which names the
video [abc12345678]; provider B knows six MAL ids. *)
Module SampleProviders.

Definition anilist_trailers : gmap Z (option dict) :=
  {[ 1 := Some {[ "site" := Some "youtube"; "id" := Some "abc12345678" ]} ]}.

Definition plays : option dict := Some {[ "youtube_id" := Some "xyz98765432" ]}.
Definition elsewhere : option dict := Some {[ "url" := Some "https://example.org/clip" ]}.
Definition blocked : option dict := Some {[ "youtube_id" := Some "abc12345678" ]}.

Definition jikan_response (mal_id : Z) : jikan_answer :=
  if decide (mal_id = 2) then JikanData (Some "Other") (Some "TV") plays
  else if decide (mal_id = 3) then JikanData (Some "Title") (Some "TV") None
  else if decide (mal_id = 4) then JikanData (Some "Title") (Some "TV") plays
  else if decide (mal_id = 5) then JikanData (Some "Film") (Some "Movie") blocked
  else if decide (mal_id = 6) then JikanData (Some "Title") (Some "TV") None
  else if decide (mal_id = 8) then JikanData (Some "Title") (Some "TV") elsewhere
  else JikanError.

Definition anilist_id_response (mal_id : Z) : option Z :=
  if decide (mal_id = 4) then Some 1
  else if decide (mal_id = 6) then Some 1
  else None.


(** provider A names the blocked video, provider B has no trailer *)
Definition first : entry := mkEntry "Title" (Some 1) (Some 6) None None.

(** provider A does not know the entry, provider B names the playable
video *)
Definition second : entry := mkEntry "Other" None (Some 2) None None.

(** provider A names the blocked video, provider B the playable one *)
Definition torn : entry := mkEntry "Title" (Some 1) (Some 4) None None.

(** provider A does not know the entry, provider B names an address
from which no id can be read *)
Definition loose : entry := mkEntry "Title" None (Some 8) None None.

(** the item that [scrape_batch] is given for an entry with MAL id
[mal_id] *)
Definition item_of (mal_id : Z) (e : entry) : item := mkItem mal_id (e_title e).

End SampleProviders.


(** A candidate of provider B without a resolvable id: the batched
orchestration keeps it and sends nothing; the per-item one skips it and
takes what the search finds. *)
Example candidate_without_id :
  @candidate_id model_lib (@normalize_jikan_trailer model_lib SampleProviders.elsewhere)
  = None
  ∧ @batched model_lib JsonModel.json_loads Scripted.World
      (Upstream.fixed (Upstream.answer "Title official trailer"))
      SampleProviders.anilist_trailers SampleProviders.jikan_response false
      [SampleProviders.loose] Scripted.init
    = (Ok [set_trailer SampleProviders.loose
             (@normalize_jikan_trailer model_lib SampleProviders.elsewhere)],
       Scripted.init)
  ∧ is_Some (@normalize_jikan_trailer model_lib SampleProviders.elsewhere)
  ∧ (@scrape_anime model_lib JsonModel.json_loads Scripted.World
       (Upstream.fixed (Upstream.answer "Title official trailer"))
       SampleProviders.anilist_trailers SampleProviders.jikan_response
       SampleProviders.anilist_id_response
       (SampleProviders.item_of 8 SampleProviders.loose) Scripted.init).1
    = Ok (Selected (Some (build_youtube_trailer "xyz98765432" "youtube-search"))).
Proof. repeat split; try reflexivity. by eexists. Qed.



(* ===================================================================== *)
(** ** Where the two orchestrations agree *)
(* ===================================================================== *)

Section Agreement.
Context `{PyLib}.
Variable json_loads : string → res json.
Variable World : Type.
Variable http_get : request → World → http_outcome * World.
Variable anilist_trailers : gmap Z (option dict).
Variable jikan_response : Z → jikan_answer.
Variable anilist_id_response : Z → option Z.

(** The fixed assignment: the answers of the upstream, and the search
results and verdicts that add_trailers.py reads off them without an
exception. *)
Variable answer : request → http_outcome.
Variable Srch : string → list string.
Variable Emb : string → bool.
Hypothesis fixed : ∀ r w, (http_get r w).1 = answer r.
Hypothesis searches : ∀ query, results_of answer AddTrailers query = Ok (Srch query).
Hypothesis verdicts : ∀ v, verdict_of json_loads answer AddTrailers v = Ok (Emb v).

Local Abbreviation state := (state World).
Local Abbreviation consistent := (consistent json_loads World answer).
Local Abbreviation anilist_raw := (provider_a anilist_trailers).
Local Abbreviation jikan_raw := (provider_b jikan_response).
Local Abbreviation acquired := (acquired anilist_trailers jikan_response).
Local Abbreviation acquire_step := (acquire_step anilist_trailers jikan_response).
Local Abbreviation select_from := (select_from json_loads World http_get).
Local Abbreviation scrape_anime :=
  (scrape_anime json_loads World http_get anilist_trailers jikan_response
     anilist_id_response).
Local Abbreviation scrape_batch :=
  (scrape_batch json_loads World http_get anilist_trailers jikan_response
     anilist_id_response).



(** the repair: what the search fallback returns for a non-empty title *)
Definition repair (title : string) (blocked_ids : gset string) : option dict :=
  found <$> first_embeddable blocked_ids Emb (Srch <$> queries title).

(** what the search fallback of mal_scraper.py returns *)
Definition mal_repair (title : string) (blocked_ids : gset string) : option dict :=
  if Py.truthy (Some title) then repair title blocked_ids else None.





(** what the verify pass makes of a trailer *)
Definition verified (title : string) (t : option dict) : option dict :=
  match candidate_id t with
  | None => t
  | Some v =>
      if Emb v then Some (<["id" := Some v]> (default ∅ t))
      else repair title {[ v ]}
  end.


(** what [_select_embeddable_trailer] makes of its candidates *)
Fixpoint selected (title : string) (candidates : list (option dict * string))
    (blocked_ids : gset string) : option dict :=
  match candidates with
  | [] => mal_repair title blocked_ids
  | (c, source) :: rest =>
      match candidate_id c with
      | None => selected title rest blocked_ids
      | Some v =>
          if Emb v then Some (stamped (default ∅ c) v source)
          else selected title rest ({[ v ]} ∪ blocked_ids)
      end
  end.



(** what the batched orchestration makes of an entry *)
Definition batched_final (refresh : bool) (e : entry) : entry :=
  let e := acquire_step refresh e in
  set_trailer e (verified (e_title e) (e_trailer e)).

(** what the per-item orchestration makes of an item *)
Definition scrape_final (it : item) : scraped :=
  match get_anime_metadata jikan_response (i_mal_id it) with
  | None => WithoutMetadata
  | Some (title, type, jikan_trailer) =>
      if Py.truthy type && negb (bool_decide (type = Some "TV"))
      then NonTV jikan_trailer
      else
        Selected
          (selected (str_or title (i_title it))
             [(match anilist_id_response (i_mal_id it) with
               | Some anilist_id => get_anilist_trailer anilist_trailers anilist_id
               | None => None
               end, "anilist");
              (jikan_trailer, "jikan")] ∅)
  end.


















End Agreement.


(** The sample assignment: the upstream whose search page for
["Title official trailer"] lists the blocked and the playable video. *)
Module SampleAssignment.

Definition answer : request → http_outcome := Upstream.answer "Title official trailer".




End SampleAssignment.


(** When provider B's request fails the per-item orchestration has no
metadata and selects nothing, on any upstream; the batched one repairs
provider A's trailer. *)
Example scrape_without_metadata :
  (@batched model_lib JsonModel.json_loads Scripted.World
     (Upstream.fixed SampleAssignment.answer)
     SampleProviders.anilist_trailers SampleProviders.jikan_response false
     [mkEntry "Title" (Some 1) (Some 7) None None] Scripted.init).1
  = Ok [mkEntry "Title" (Some 1) (Some 7)
          (Some (build_youtube_trailer "xyz98765432" "youtube-search")) None]
  ∧ @scrape_batch model_lib JsonModel.json_loads Scripted.World
      (Upstream.fixed SampleAssignment.answer)
      SampleProviders.anilist_trailers SampleProviders.jikan_response
      SampleProviders.anilist_id_response [mkItem 7 "Title"] Scripted.init
    = (Ok [WithoutMetadata], Scripted.init).
Proof. split; reflexivity. Qed.

(** For a type other than TV the per-item orchestration returns provider
B's trailer as normalized, unchecked and without any request; the batched
one checks it, searches and removes it. *)
Example scrape_leaves_other_types :
  (@batched model_lib JsonModel.json_loads Scripted.World
     (Upstream.fixed SampleAssignment.answer)
     SampleProviders.anilist_trailers SampleProviders.jikan_response false
     [mkEntry "Film" None (Some 5) None None] Scripted.init).1
  = Ok [mkEntry "Film" None (Some 5) None None]
  ∧ @scrape_batch model_lib JsonModel.json_loads Scripted.World
      (Upstream.fixed SampleAssignment.answer)
      SampleProviders.anilist_trailers SampleProviders.jikan_response
      SampleProviders.anilist_id_response [mkItem 5 "Film"] Scripted.init
    = (Ok [NonTV (@normalize_jikan_trailer model_lib SampleProviders.blocked)],
       Scripted.init)
  ∧ @candidate_id model_lib (@normalize_jikan_trailer model_lib SampleProviders.blocked)
    = Some "abc12345678"
  ∧ sample_verdict "abc12345678" = false.
Proof. repeat split; reflexivity. Qed.


(** the trailers of the sample: the two entries that agree, and the one
that does not *)
Example orchestrations_agree_sample :
  @batched_final model_lib SampleProviders.anilist_trailers
    SampleProviders.jikan_response sample_results sample_verdict false
  <$> [SampleProviders.first; SampleProviders.second; SampleProviders.torn]
  = [set_trailer SampleProviders.first
       (Some (build_youtube_trailer "xyz98765432" "youtube-search"));
     set_trailer SampleProviders.second
       (Some (build_youtube_trailer "xyz98765432" "jikan"));
     set_trailer SampleProviders.torn
       (Some (build_youtube_trailer "xyz98765432" "youtube-search"))]
  ∧ @scrape_final model_lib SampleProviders.anilist_trailers
      SampleProviders.jikan_response SampleProviders.anilist_id_response
      sample_results sample_verdict
    <$> [SampleProviders.item_of 6 SampleProviders.first;
         SampleProviders.item_of 2 SampleProviders.second;
         SampleProviders.item_of 4 SampleProviders.torn]
    = [Selected (Some (build_youtube_trailer "xyz98765432" "youtube-search"));
       Selected (Some (build_youtube_trailer "xyz98765432" "jikan"));
       Selected (Some (build_youtube_trailer "xyz98765432" "jikan"))].
Proof. split; reflexivity. Qed.


(* ===================================================================== *)
(** ** The cache and the requests of one check *)
(* ===================================================================== *)

(** an explicit rate-limit answer *)
Definition is_429 (o : http_outcome) : bool :=
  match o with
  | Response status_code _ => bool_decide (status_code = 429)
  | _ => false
  end.

Section Memo.
Variable json_loads : string → res json.
Variable World : Type.
Variable http_get : request → World → http_outcome * World.

Local Abbreviation state := (state World).
Local Abbreviation M := (M World).
Local Abbreviation fetch_of := (fetch_of json_loads World http_get).
Local Abbreviation embeddable_of := (embeddable_of json_loads World http_get).
Local Abbreviation fallback_of := (fallback_of json_loads World http_get).

(** what one request with its retry adds to the trace: one fetch
episode *)
Definition attempts (r : request) (st : state) : list request :=
  if is_429 (http_get r (world st)).1 then [r; r] else [r].

Lemma session_get_sent r st :
  sent (session_get World http_get r st).2 = sent st ++ [r].
Proof.
  unfold session_get. by destruct (http_get r (world st)) as [[| |status text] w].
Qed.

Lemma session_get_world r st :
  world (session_get World http_get r st).2 = (http_get r (world st)).2.
Proof.
  unfold session_get. by destruct (http_get r (world st)) as [[| |status text] w].
Qed.

Lemma session_get_outcome r st :
  (session_get World http_get r st).1
  = match (http_get r (world st)).1 with
    | NetTimeout => Raise Timeout
    | NetConnectionFailure => Raise ConnectionError
    | Response status_code text => Ok (status_code, text)
    end.
Proof.
  unfold session_get. by destruct (http_get r (world st)) as [[| |status text] w].
Qed.

Lemma get_retry_429_sent r st :
  sent (get_retry_429 World http_get r st).2 = sent st ++ attempts r st.
Proof.
  unfold get_retry_429. rewrite bind_eq.
  pose proof (session_get_sent r st) as Hs.
  pose proof (session_get_outcome r st) as Ho.
  unfold attempts, is_429.
  destruct (session_get World http_get r st) as [[resp|e] st1]; cbn [fst snd] in *.
  - destruct ((http_get r (world st)).1) as [| |sc t]; [done|done|].
    injection Ho as ->. cbn [fst]. case_decide.
    + rewrite bool_decide_eq_true_2 by done.
      rewrite session_get_sent, Hs, <- (assoc_L (++)). done.
    + by rewrite bool_decide_eq_false_2.
  - by destruct ((http_get r (world st)).1) as [| |sc t].
Qed.

Lemma fetch_of_sent s v st :
  sent (fetch_of s v st).2 = sent st ++ attempts (watch_request v) st.
Proof.
  pose proof (get_retry_429_sent (watch_request v) st) as Hg.
  destruct s; cbn [fetch_of].
  - unfold fetch_player_response. rewrite bind_eq.
    destruct (get_retry_429 _ _ _ st) as [[r|e] st1]; cbn [snd] in *; [|done].
    destruct (negb (ok r.1)); exact Hg.
  - unfold _fetch_player_response, try_except. rewrite bind_eq.
    destruct (get_retry_429 _ _ _ st) as [[r|e] st1]; cbn [snd] in *.
    + destruct (negb (ok r.1)); [exact Hg|]. unfold lift.
      destruct (extract_player_response json_loads r.2) as [d|e]; [exact Hg|].
      by destruct (is_RequestException e).
    + by destruct (is_RequestException e).
Qed.

Lemma attempts_cases r st : attempts r st = [r] ∨ attempts r st = [r; r].
Proof. unfold attempts. destruct (is_429 _); [by right|by left]. Qed.

(** the first check of an id: the state after a fetch that returned
[data] with verdict [b] *)
Lemma embeddable_of_first s v st data st1 b :
  embed_cache st !! v = None →
  fetch_of s v st = (Ok data, st1) →
  verdict data = Ok b →
  embeddable_of s v st
  = (Ok b, mkState (world st1) (<[v := b]> (embed_cache st)) (search_cache st1)
                   (sent st ++ attempts (watch_request v) st)).
Proof.
  intros Hc Hf Hv. rewrite embeddable_of_with, is_embeddable_with_eq, Hc, Hf, Hv.
  pose proof (fetch_of_sent s v st) as Hs.
  pose proof (frames_fetch_of json_loads World http_get s v st) as He.
  rewrite Hf in Hs, He. cbn [snd] in Hs, He. by rewrite Hs, He.
Qed.

Lemma embeddable_of_miss s v st :
  embed_cache st !! v = None →
  sent (embeddable_of s v st).2 = sent st ++ attempts (watch_request v) st.
Proof.
  intros Hc. rewrite embeddable_of_with, is_embeddable_with_eq, Hc.
  pose proof (fetch_of_sent s v st) as Hf.
  destruct (fetch_of s v st) as [[data|e] st1]; cbn [snd] in *; [|done].
  by destruct (verdict data).
Qed.

Lemma embeddable_of_returned s v st b st1 :
  embed_cache st !! v = None →
  embeddable_of s v st = (Ok b, st1) →
  ∃ data, (fetch_of s v st).1 = Ok data ∧ verdict data = Ok b
          ∧ embed_cache st1 = <[v := b]> (embed_cache st).
Proof.
  intros Hc. rewrite embeddable_of_with, is_embeddable_with_eq, Hc.
  pose proof (frames_fetch_of json_loads World http_get s v st) as He.
  destruct (fetch_of s v st) as [[data|e] st2]; cbn [snd] in *; [|done].
  destruct (verdict data) as [b'|e] eqn:Hv; [|done].
  intros [= <- <-]. exists data. by rewrite He.
Qed.

(** C8.  The cache of verdicts is filled by the first check of an id and
keeps what it holds.
- The first check, from a state whose cache does not hold the id, sends
  one fetch episode: the watch request, and once more when the answer
  was a rate limit.  When the fetch returns a page whose verdict is [b],
  the check returns [b] and stores [b] under the id, and changes nothing
  else in the cache.
- Once a check of either script has returned [b], the cache holds [b];
  the next check, of either script, returns [b] and leaves the state as
  it is, so that the trace after it is the trace before the first check
  plus that one fetch episode; the same holds for every later check from
  any state whose cache holds the entry; and no check and no search
  fallback of either script removes or changes the entry. *)
Theorem embeddable_memoized (s : script) (v : string) (st : state) :
  (embed_cache st !! v = None →
     sent (embeddable_of s v st).2 = sent st ++ attempts (watch_request v) st
     ∧ (attempts (watch_request v) st = [watch_request v]
        ∨ attempts (watch_request v) st = [watch_request v; watch_request v])
     ∧ (∀ data st1 b,
          fetch_of s v st = (Ok data, st1) → verdict data = Ok b →
          embeddable_of s v st
          = (Ok b, mkState (world st1) (<[v := b]> (embed_cache st)) (search_cache st1)
                           (sent st ++ attempts (watch_request v) st)))
     ∧ (∀ b st1, embeddable_of s v st = (Ok b, st1) →
          (∃ data, (fetch_of s v st).1 = Ok data ∧ verdict data = Ok b
                   ∧ embed_cache st1 = <[v := b]> (embed_cache st))
          ∧ ∀ s', sent (embeddable_of s' v st1).2
                  = sent st ++ attempts (watch_request v) st))
  ∧ (∀ b st1, embeddable_of s v st = (Ok b, st1) →
       embed_cache st1 !! v = Some b
       ∧ (∀ s', embeddable_of s' v st1 = (Ok b, st1))
       ∧ (∀ s' st2, embed_cache st2 !! v = Some b →
            embeddable_of s' v st2 = (Ok b, st2))
       ∧ (∀ s' w st2, embed_cache st2 !! v = Some b →
            embed_cache (embeddable_of s' w st2).2 !! v = Some b)
       ∧ (∀ s' title blocked_ids st2, embed_cache st2 !! v = Some b →
            embed_cache (fallback_of s' title blocked_ids st2).2 !! v = Some b)).
Proof.
  split.
  - intros Hc. split; [by apply embeddable_of_miss|].
    split; [apply attempts_cases|].
    split; [intros data st1 b; by apply embeddable_of_first|].
    intros b st1 Hrun. split; [by apply embeddable_of_returned|].
    intros s'. pose proof (embeddable_of_miss s v st Hc) as Hs.
    rewrite Hrun in Hs. cbn [snd] in Hs.
    rewrite (embeddable_of_cached json_loads World http_get s' v b st1); [done|].
    by eapply embeddable_of_caches.
  - intros b st1 Hrun.
    assert (Hc : embed_cache st1 !! v = Some b) by (by eapply embeddable_of_caches).
    split; [done|]. repeat split.
    + intros s'. by apply embeddable_of_cached.
    + intros s' st2 Hc2. by apply embeddable_of_cached.
    + intros s' w st2 Hc2. by apply keeps_embeddable_of.
    + intros s' title blocked_ids st2 Hc2. by apply keeps_fallback_of.
Qed.

End Memo.

(** C8 on the sample upstream: the first check of [xyz98765432] sends
the watch request once, returns true and stores it; a second check from
the state reached returns true and changes nothing. *)
Lemma embeddable_memoized_witness :
  let st1 := mkState [watch_request "xyz98765432"] {[ "xyz98765432" := true ]} ∅
                     [watch_request "xyz98765432"] in
  _is_youtube_embeddable JsonModel.json_loads Scripted.World
    (Upstream.fixed (Upstream.answer "Title official trailer"))
    "xyz98765432" Scripted.init
  = (Ok true, st1)
  ∧ embed_cache st1 !! "xyz98765432" = Some true
  ∧ _is_youtube_embeddable JsonModel.json_loads Scripted.World
      (Upstream.fixed (Upstream.answer "Title official trailer")) "xyz98765432" st1
    = (Ok true, st1).
Proof.
  intros st1.
  destruct (embeddable_memoized JsonModel.json_loads Scripted.World
              (Upstream.fixed (Upstream.answer "Title official trailer"))
              MalScraper "xyz98765432" Scripted.init)
    as [Hfirst Hlater].
  destruct (Hfirst eq_refl) as (_ & _ & Hrun & _).
  specialize (Hrun
    (Some (JObj {[ "playabilityStatus" := JObj {[ "status" := JStr "OK" ]} ]}))
    (mkState [watch_request "xyz98765432"] ∅ ∅ [watch_request "xyz98765432"])
    true eq_refl eq_refl).
  split; [exact Hrun|].
  destruct (Hlater true st1 Hrun) as (Hc & Hagain & _).
  split; [exact Hc|]. exact (Hagain MalScraper).
Defined.

(* ===================================================================== *)
(** ** Further properties of the scripts *)
(* ===================================================================== *)

(** *** Batches of provider ids (add_trailers.py, [chunked]) *)

(** [range(0, n, step)] for a positive step *)
Definition range_step (n step : nat) : list nat :=
  (λ k, k * step)%nat <$> seq 0 ((n + step - 1) `div` step)%nat.

(** [chunked]: the slices [items[i : i + size]] for [i] in
[range(0, len(items), size)]; a zero size makes [range] raise
[ValueError], which is [None]. *)
Definition chunked {A} (items : list A) (size : nat) : option (list (list A)) :=
  match size with
  | O => None
  | S _ => Some ((λ i, take size (drop i items)) <$> range_step (length items) size)
  end.

Lemma concat_slices {A} (items : list A) (size m : nat) :
  mjoin ((λ i, take size (drop i items)) <$> ((λ k, k * size)%nat <$> seq 0 m))
  = take (m * size) items.
Proof.
  induction m as [|m IH]; [done|].
  rewrite seq_S, !fmap_app, join_app, IH. cbn [fmap list_fmap mjoin list_join].
  rewrite app_nil_r. cbn [Nat.add].
  replace (S m * size)%nat with (m * size + size)%nat by lia.
  by rewrite take_take_drop.
Qed.

Lemma range_step_bound (n step k : nat) :
  (1 ≤ step)%nat → (k < (n + step - 1) `div` step)%nat → (k * step < n)%nat.
Proof.
  intros Hs Hk.
  assert (Hle : (S k * step ≤ n + step - 1)%nat).
  { transitivity (((n + step - 1) `div` step) * step)%nat.
    - apply Nat.mul_le_mono_r. lia.
    - rewrite Nat.mul_comm. apply Nat.Div0.mul_div_le. }
  lia.
Qed.

Lemma range_step_cover (n step : nat) :
  (1 ≤ step)%nat → (n ≤ ((n + step - 1) `div` step) * step)%nat.
Proof.
  intros Hs.
  pose proof (Nat.div_mod_eq (n + step - 1) step) as Hd.
  pose proof (Nat.mod_upper_bound (n + step - 1) step ltac:(lia)) as Hm.
  nia.
Qed.

(** X1.  For a positive size, the batches put end to end give the list
back, no batch is empty and no batch is longer than the size. *)
Theorem chunked_partition {A} (items : list A) (size : nat) :
  (1 ≤ size)%nat →
  ∃ chunks, chunked items size = Some chunks
            ∧ mjoin chunks = items
            ∧ Forall (λ c, (1 ≤ length c ≤ size)%nat) chunks.
Proof.
  intros Hs. destruct size as [|k]; [lia|]. eexists. split; [reflexivity|].
  unfold range_step. split.
  - rewrite concat_slices. apply take_ge. by apply range_step_cover.
  - apply Forall_fmap, Forall_fmap, Forall_forall. intros i Hi.
    apply elem_of_seq in Hi as [_ Hi]. cbn [Nat.add] in Hi.
    pose proof (range_step_bound (length items) (S k) i Hs Hi) as Hb.
    cbn [compose]. rewrite length_take, length_drop. lia.
Qed.

Lemma chunked_partition_witness :
  ∃ chunks, chunked [1; 2; 3; 4; 5]%nat 2 = Some chunks
            ∧ mjoin chunks = [1; 2; 3; 4; 5]%nat
            ∧ Forall (λ c, (1 ≤ length c ≤ 2)%nat) chunks.
Proof. apply (chunked_partition [1; 2; 3; 4; 5]%nat 2). lia. Defined.

(** *** The ids read off a search page *)

Lemma match_videoId_shape s g :
  match_videoId s = Some g → String.length g = 11%nat ∧ all_id_chars g = true.
Proof.
  unfold match_videoId. destruct (Py.startswith videoId_field s); [|done].
  destruct (_ && _) eqn:E; [|done]. intros [= <-].
  apply andb_true_iff in E as [E _]. apply andb_true_iff in E as [E1 E2].
  split; [by apply Nat.eqb_eq|done].
Qed.

Lemma findall_videoId_shape s skip g :
  g ∈ findall_videoId s skip → String.length g = 11%nat ∧ all_id_chars g = true.
Proof.
  revert skip. induction s as [|c s IH]; intros skip; cbn [findall_videoId].
  { by intros ?%elem_of_nil. }
  destruct skip as [|k]; [|apply IH].
  destruct (match_videoId (String c s)) as [g'|] eqn:Hm; [|apply IH].
  intros [->|Hin]%elem_of_cons; [by eapply match_videoId_shape|by eapply IH].
Qed.

(** the loop keeps [seen] and [results] in step *)
Lemma collect_spec limit matches (seen : gset string) results :
  (∀ x, x ∈ seen ↔ x ∈ results) → NoDup results →
  (length results < limit)%nat ∨ limit = O →
  let r := collect limit matches seen results in
  NoDup r
  ∧ (∀ x, x ∈ r → x ∈ results ∨ x ∈ matches)
  ∧ (length r ≤ Nat.max limit (S (length results)))%nat
  ∧ ((length r < limit)%nat → ∀ x, x ∈ matches → x ∈ r)
  ∧ (∀ x, x ∈ results → x ∈ r).
Proof.
  revert seen results. induction matches as [|m matches IH];
    intros seen results Hseen Hnd Hlen; cbn [collect].
  { repeat split; [done|by left|lia|by intros _ x ?%elem_of_nil|done]. }
  destruct (decide (m ∈ seen)) as [Hin|Hin].
  { destruct (IH seen results Hseen Hnd Hlen) as (H1 & H2 & H3 & H4 & H5).
    repeat split; [done| |done| |done].
    - intros x Hx. destruct (H2 x Hx); [by left|right; by right].
    - intros Hl x [->|Hx]%elem_of_cons; [|by apply H4].
      apply H5. by apply Hseen. }
  assert (Hnd' : NoDup (results ++ [m])).
  { apply NoDup_app. repeat split; [done| |apply NoDup_singleton].
    intros x Hx E%list_elem_of_singleton. subst. by apply Hin, Hseen. }
  assert (Hseen' : ∀ x, x ∈ {[m]} ∪ seen ↔ x ∈ results ++ [m]).
  { intros x. rewrite elem_of_union, elem_of_singleton, elem_of_app,
      list_elem_of_singleton, Hseen. tauto. }
  destruct (decide (limit ≤ length (results ++ [m]))%nat) as [Hfull|Hfree].
  { rewrite length_app in *. cbn [length] in *. repeat split; [done| |lia|lia|].
    - intros x [Hx|E%list_elem_of_singleton]%elem_of_app; subst;
        [by left|right; by left].
    - intros x Hx. apply elem_of_app. by left. }
  destruct (IH ({[m]} ∪ seen) (results ++ [m]) Hseen' Hnd') as (H1 & H2 & H3 & H4 & H5).
  { left. lia. }
  rewrite length_app in *. cbn [length] in *.
  repeat split; [done| |lia| |].
  - intros x Hx. destruct (H2 x Hx) as [[?|E%list_elem_of_singleton]%elem_of_app|?];
      subst; [by left|right; by left|right; by right].
  - intros Hl x [->|Hx]%elem_of_cons; [|by apply H4].
    apply H5, elem_of_app. right. by left.
  - intros x Hx. apply H5, elem_of_app. by left.
Qed.

(** X2.  The ids that a search reads off a page: each is made of exactly
eleven characters of the class [[a-zA-Z0-9_-]], no id is listed twice,
there are at most [limit] of them (for a positive limit), and as long as
the limit is not reached every id matched in the page is listed. *)
Theorem ids_of_page_sound (limit : nat) (text : string) :
  NoDup (ids_of_page limit text)
  ∧ (∀ g, g ∈ ids_of_page limit text →
       String.length g = 11%nat ∧ all_id_chars g = true
       ∧ g ∈ findall_videoId text O)
  ∧ ((1 ≤ limit)%nat → (length (ids_of_page limit text) ≤ limit)%nat)
  ∧ ((length (ids_of_page limit text) < limit)%nat →
     ∀ g, g ∈ findall_videoId text O → g ∈ ids_of_page limit text).
Proof.
  unfold ids_of_page.
  destruct (collect_spec limit (findall_videoId text O) ∅ [])
    as (H1 & H2 & H3 & H4 & _).
  { intros x. split; [by intros ?%elem_of_empty|by intros ?%elem_of_nil]. }
  { constructor. }
  { cbn [length]. lia. }
  repeat split; [done| | | |cbn [length] in H3; lia|done].
  - destruct (H2 g H) as [?%elem_of_nil|Hin]; [done|].
    by eapply findall_videoId_shape.
  - destruct (H2 g H) as [?%elem_of_nil|Hin]; [done|].
    by eapply findall_videoId_shape.
  - by destruct (H2 g H) as [?%elem_of_nil|Hin].
Qed.

Lemma ids_of_page_sound_witness :
  (length (ids_of_page 12 Upstream.search_page) ≤ 12)%nat
  ∧ ids_of_page 12 Upstream.search_page = ["abc12345678"; "xyz98765432"].
Proof.
  split; [|reflexivity].
  apply (proj1 (proj2 (proj2 (ids_of_page_sound 12 Upstream.search_page)))). lia.
Defined.

(** *** Requests, retries and failures *)

Section Requests.
Variable json_loads : string → res json.
Variable World : Type.
Variable http_get : request → World → http_outcome * World.

Local Abbreviation state := (state World).
Local Abbreviation M := (M World).
Local Abbreviation fetch_of := (fetch_of json_loads World http_get).
Local Abbreviation embeddable_of := (embeddable_of json_loads World http_get).
Local Abbreviation search_of := (search_of World http_get).
Local Abbreviation attempts := (attempts World http_get).

(** X3.  One check sends nothing when the id is cached; otherwise it
sends the watch request once, and a second time exactly when the first
answer was an explicit rate limit (status 429); never more.  The same
holds for one search, which mal_scraper.py skips for a cached query. *)
Theorem one_retry (s : script) (v query : string) (st : state) :
  sent (embeddable_of s v st).2
  = sent st ++ match embed_cache st !! v with
               | Some _ => []
               | None => attempts (watch_request v) st
               end
  ∧ sent (search_of s query st).2
    = sent st ++ match s, search_cache st !! query with
                 | MalScraper, Some _ => []
                 | _, _ => attempts (search_request query) st
                 end.
Proof.
  split.
  - rewrite embeddable_of_with, is_embeddable_with_eq.
    destruct (embed_cache st !! v); [by rewrite app_nil_r|].
    pose proof (fetch_of_sent json_loads World http_get s v st) as Hf.
    destruct (fetch_of s v st) as [[data|e] st1]; cbn [snd] in *; [|done].
    by destruct (verdict data).
  - pose proof (get_retry_429_sent World http_get (search_request query) st) as Hg.
    destruct s; cbn [search_of].
    + unfold search_youtube_video_ids. rewrite bind_eq.
      destruct (get_retry_429 _ _ _ st) as [[r|e] st1]; cbn [snd] in *; [|done].
      by destruct (negb (ok r.1)).
    + rewrite search_mal_eq. destruct (search_cache st !! query); [by rewrite app_nil_r|].
      destruct (get_retry_429 _ _ _ st) as [[r|e] st1]; cbn [snd] in *.
      * by destruct (negb (ok r.1)).
      * by destruct (is_RequestException e).
Qed.

(** what [json.loads] lets through the [except json.JSONDecodeError] of
[extract_player_response]: an exception of another class that it raises
on some text *)
Definition loads_raises (e : exn) : Prop :=
  ∃ text, json_loads text = Raise e ∧ e ≠ JSONDecodeError.

(** a computation out of which no transport failure comes: what it may
raise is the exception of a malformed player response, or what
[json.loads] raised on the text cut from a page *)
Definition shielded {A} (m : M A) : Prop :=
  ∀ st e, (m st).1 = Raise e →
          is_RequestException e = false ∧ (e = AttributeError ∨ loads_raises e).

Lemma shielded_ret {A} (a : A) : shielded (mret a : M A).
Proof. by intros st e. Qed.

Lemma shielded_bind {A B} (m : M A) (k : A → M B) :
  shielded m → (∀ a, shielded (k a)) → shielded (m ≫= k).
Proof.
  intros Hm Hk st e. rewrite bind_eq. specialize (Hm st).
  destruct (m st) as [[a|e'] st1]; cbn [fst] in *; [apply Hk|].
  intros [= <-]. by apply Hm.
Qed.

Lemma session_get_raises r st e :
  (session_get World http_get r st).1 = Raise e → is_RequestException e = true.
Proof.
  rewrite session_get_outcome.
  destruct ((http_get r (world st)).1); by intros [= <-].
Qed.

Lemma get_retry_429_raises r st e :
  (get_retry_429 World http_get r st).1 = Raise e → is_RequestException e = true.
Proof.
  unfold get_retry_429. rewrite bind_eq.
  pose proof (session_get_raises r st) as H1.
  destruct (session_get World http_get r st) as [[resp|e'] st1]; cbn [fst] in *.
  - case_decide; [apply session_get_raises|done].
  - intros [= <-]. by apply H1.
Qed.

Lemma loads_or_none_raises text e :
  loads_or_none json_loads text = Raise e → loads_raises e.
Proof.
  unfold loads_or_none. destruct (json_loads text) as [j|e'] eqn:Hl; [done|].
  destruct e'; intros [= <-]; by exists text.
Qed.

Lemma extract_player_response_raises html e :
  extract_player_response json_loads html = Raise e → loads_raises e.
Proof.
  unfold extract_player_response.
  destruct (Py.find marker html) as [i|]; [|done].
  destruct (scan _ _ _ _ _) as [j|]; [|done].
  apply loads_or_none_raises.
Qed.

Lemma shielded_fetch_mal v : shielded (_fetch_player_response json_loads World http_get v).
Proof.
  intros st e. unfold _fetch_player_response, try_except. rewrite bind_eq.
  pose proof (get_retry_429_raises (watch_request v) st) as H1.
  destruct (get_retry_429 _ _ _ st) as [[resp|e'] st1]; cbn [fst] in *.
  - destruct (negb (ok resp.1)); [done|]. unfold lift.
    destruct (extract_player_response json_loads resp.2) as [d|e'] eqn:Hx; [done|].
    destruct (is_RequestException e') eqn:He; [done|].
    intros [= <-]. split; [done|]. right. by apply extract_player_response_raises in Hx.
  - by rewrite (H1 e').
Qed.

Lemma shielded_check_mal v :
  shielded (_is_youtube_embeddable json_loads World http_get v).
Proof.
  intros st e. unfold _is_youtube_embeddable. rewrite is_embeddable_with_eq.
  destruct (embed_cache st !! v); [done|].
  pose proof (shielded_fetch_mal v st) as Hf.
  destruct (_fetch_player_response _ _ _ v st) as [[data|e'] st1]; cbn [fst] in *.
  - destruct data as [data|]; [|done]. unfold verdict.
    destruct (negb (json_truthy data)); [done|].
    destruct data as [| | | | |m]; cbn; try (intros [= <-]; split; [done|by left]).
    destruct (default (JObj ∅) (m !! "playabilityStatus")); cbn;
      try done; (intros [= <-]; split; [done|by left]).
  - intros [= <-]. by apply Hf.
Qed.

Lemma search_mal_returns query limit st :
  ∃ ids, (_search_youtube_video_ids World http_get query limit st).1 = Ok ids.
Proof.
  rewrite search_mal_eq. destruct (search_cache st !! query) as [ids|]; [by exists ids|].
  pose proof (get_retry_429_raises (search_request query) st) as H1.
  destruct (get_retry_429 _ _ _ st) as [[resp|e] st1]; cbn [fst] in *.
  - destruct (negb (ok resp.1)); eauto.
  - rewrite (H1 e) by done. eauto.
Qed.

Lemma shielded_try_candidates (check : string → M bool) candidates blocked_ids :
  (∀ v, shielded (check v)) →
  shielded (try_candidates World check candidates blocked_ids).
Proof.
  intros Hc. induction candidates as [|v rest IH]; cbn [try_candidates];
    [apply shielded_ret|].
  case_decide; [done|]. apply shielded_bind; [apply Hc|].
  intros [|]; [apply shielded_ret|done].
Qed.

Lemma shielded_find_mal title blocked_ids :
  shielded (_find_embeddable_trailer json_loads World http_get title blocked_ids).
Proof.
  unfold _find_embeddable_trailer. destruct (negb _); [apply shielded_ret|].
  induction (queries title) as [|query rest IH]; cbn [try_queries];
    [apply shielded_ret|].
  apply shielded_bind.
  { intros st e He. by destruct (search_mal_returns query 12 st) as [ids Hids];
      rewrite Hids in He. }
  intros candidates. apply shielded_bind.
  { apply shielded_try_candidates, shielded_check_mal. }
  intros [t|]; [apply shielded_ret|done].
Qed.

Lemma shielded_select_mal `{PyLib} title candidates blocked_ids :
  shielded (select_from json_loads World http_get title candidates blocked_ids).
Proof.
  revert blocked_ids.
  induction candidates as [|[c source] rest IH]; intros blocked_ids; cbn [select_from].
  { apply shielded_find_mal. }
  destruct (negb (dict_truthy c)); [apply IH|].
  destruct (negb (Py.truthy _)); [apply IH|].
  apply shielded_bind; [apply shielded_check_mal|].
  intros [|]; [apply shielded_ret|apply IH].
Qed.

End Requests.

(** X4.  No transport failure comes out of the trailer selection of
mal_scraper.py.  Whatever the upstream does (time-outs, refused
connections, error statuses), an exception that comes out of the check,
the search fallback or [_select_embeddable_trailer] is no
[requests.RequestException]: it is the [AttributeError] of a player
response whose [playabilityStatus] is not an object, or an exception
other than [JSONDecodeError] that [json.loads] raised on some text
([ValueError], [RecursionError]).  The search never raises at all. *)
Theorem mal_scraper_shielded `{PyLib} (json_loads : string → res json)
    (World : Type) (http_get : request → World → http_outcome * World)
    (st : state World) :
  (∀ v e, (_is_youtube_embeddable json_loads World http_get v st).1 = Raise e →
          is_RequestException e = false
          ∧ (e = AttributeError ∨ loads_raises json_loads e))
  ∧ (∀ query limit, ∃ ids,
       (_search_youtube_video_ids World http_get query limit st).1 = Ok ids)
  ∧ (∀ title blocked_ids e,
       (_find_embeddable_trailer json_loads World http_get title blocked_ids st).1
         = Raise e →
       is_RequestException e = false
       ∧ (e = AttributeError ∨ loads_raises json_loads e))
  ∧ (∀ title a b e,
       (_select_embeddable_trailer json_loads World http_get title a b st).1 = Raise e →
       is_RequestException e = false
       ∧ (e = AttributeError ∨ loads_raises json_loads e)).
Proof.
  split; [intros v e; apply shielded_check_mal|].
  split; [intros query limit; apply search_mal_returns|].
  split; [intros title blocked_ids e; apply shielded_find_mal|].
  intros title a b e. apply shielded_select_mal.
Qed.

(** both exceptions that [json.loads] lets through do come out of the
check of mal_scraper.py, when the text behind the marker makes
[json.loads] raise them *)
Example mal_scraper_lets_through (e : exn) :
  is_RequestException e = false →
  e ≠ JSONDecodeError →
  _is_youtube_embeddable (λ _, Raise e) Scripted.World
    (Upstream.fixed (Upstream.answer "Title official trailer"))
    "xyz98765432" Scripted.init
  = (Raise e, mkState [watch_request "xyz98765432"] ∅ ∅ [watch_request "xyz98765432"]).
Proof. by destruct e. Qed.

(** *** Failing closed, and the search cache *)

Section FailClosed.
Variable json_loads : string → res json.
Variable World : Type.
Variable http_get : request → World → http_outcome * World.

Local Abbreviation state := (state World).
Local Abbreviation fetch_of := (fetch_of json_loads World http_get).
Local Abbreviation embeddable_of := (embeddable_of json_loads World http_get).

Lemma extract_player_response_no_marker html :
  Py.find marker html = None → extract_player_response json_loads html = Ok None.
Proof. unfold extract_player_response. by intros ->. Qed.

Lemma session_get_response r st status_code text w :
  http_get r (world st) = (Response status_code text, w) →
  session_get World http_get r st
  = (Ok (status_code, text),
     mkState w (embed_cache st) (search_cache st) (sent st ++ [r])).
Proof. unfold session_get. by intros ->. Qed.

(** the body of both fetches on an answer that is not retried *)
Lemma fetch_body_answer v st status_code text w :
  http_get (watch_request v) (world st) = (Response status_code text, w) →
  status_code ≠ 429 →
  (response ← get_retry_429 World http_get (watch_request v);
   if negb (ok response.1) then mret None
   else lift World (extract_player_response json_loads response.2)) st
  = (if ok status_code then extract_player_response json_loads text else Ok None,
     mkState w (embed_cache st) (search_cache st) (sent st ++ [watch_request v])).
Proof.
  intros Hg Hs. unfold get_retry_429. rewrite !bind_eq.
  rewrite (session_get_response _ _ _ _ _ Hg). cbn [fst snd].
  rewrite decide_False by done. unfold ret at 1. cbn [fst snd].
  by destruct (ok status_code).
Qed.

Lemma fetch_of_answer s v st status_code text w :
  http_get (watch_request v) (world st) = (Response status_code text, w) →
  status_code ≠ 429 →
  fetch_of s v st
  = (match (if ok status_code then extract_player_response json_loads text
            else Ok None), s with
     | Raise e, MalScraper => if is_RequestException e then Ok None else Raise e
     | r, _ => r
     end,
     mkState w (embed_cache st) (search_cache st) (sent st ++ [watch_request v])).
Proof.
  intros Hg Hs. pose proof (fetch_body_answer v st status_code text w Hg Hs) as Hbody.
  destruct s.
  - change (fetch_of AddTrailers v st)
      with ((response ← get_retry_429 World http_get (watch_request v);
             if negb (ok response.1) then mret None
             else lift World (extract_player_response json_loads response.2)) st).
    rewrite Hbody. by destruct (if ok status_code then _ else _).
  - change (fetch_of MalScraper v st)
      with (try_except World
              (response ← get_retry_429 World http_get (watch_request v);
               if negb (ok response.1) then mret None
               else lift World (extract_player_response json_loads response.2))
              (mret None) st).
    unfold try_except. rewrite Hbody.
    destruct (if ok status_code then _ else _) as [d|e]; [done|].
    by destruct (is_RequestException e).
Qed.

(** X5.  The check fails closed where it answers.  Let the watch page
come back with a status other than the rate limit (which is retried),
for an id that is not cached.
- With an error status, or without the marker, or when
  [extract_player_response] returns [None] (no balanced object behind
  the marker, or one that [json.loads] refuses with [JSONDecodeError]),
  the check of either script returns false, records false in the cache,
  and has sent exactly one request.
- When the status is fine and [json.loads] raises another exception on
  the object ([ValueError], [RecursionError]), the check of either script
  raises that exception after the one request and records nothing. *)
Theorem check_fails_closed (s : script) (v : string) (st : state)
    (status_code : Z) (text : string) (w : World) :
  embed_cache st !! v = None →
  http_get (watch_request v) (world st) = (Response status_code text, w) →
  status_code ≠ 429 →
  (ok status_code = false
   ∨ Py.find marker text = None
   ∨ extract_player_response json_loads text = Ok None →
   embeddable_of s v st
   = (Ok false, mkState w (<[v := false]> (embed_cache st)) (search_cache st)
                        (sent st ++ [watch_request v])))
  ∧ (∀ e, ok status_code = true →
          extract_player_response json_loads text = Raise e →
          is_RequestException e = false →
          embeddable_of s v st
          = (Raise e, mkState w (embed_cache st) (search_cache st)
                              (sent st ++ [watch_request v]))).
Proof.
  intros Hc Hg Hs. split.
  - intros Hbad.
    assert (Hnone : (if ok status_code then extract_player_response json_loads text
                     else Ok None) = Ok None).
    { destruct (ok status_code); [|done].
      destruct Hbad as [|[Hm|]]; [done| |done].
      by apply extract_player_response_no_marker. }
    rewrite embeddable_of_with, is_embeddable_with_eq, Hc.
    rewrite (fetch_of_answer s v st status_code text w Hg Hs), Hnone.
    by destruct s.
  - intros e Hok Hx He.
    rewrite embeddable_of_with, is_embeddable_with_eq, Hc.
    rewrite (fetch_of_answer s v st status_code text w Hg Hs), Hok, Hx.
    destruct s; [done|]. by rewrite He.
Qed.

(** X6.  The search of mal_scraper.py remembers what it found and
forgets what failed.  After a search, if the cache holds a list for the
query, that list is what the search returned and a repeated search
returns it again without changing the state; if the cache holds nothing
for the query, the search returned the empty list and left the cache as
it was, so that a later search asks again.  The cache of verdicts is not
touched. *)
Theorem mal_search_memoized (query : string) (limit : nat) (st : state) :
  let r := _search_youtube_video_ids World http_get query limit st in
  (∀ ids, search_cache r.2 !! query = Some ids →
     r.1 = Ok ids
     ∧ _search_youtube_video_ids World http_get query limit r.2 = (Ok ids, r.2))
  ∧ (search_cache r.2 !! query = None →
     r.1 = Ok [] ∧ search_cache r.2 = search_cache st)
  ∧ embed_cache r.2 = embed_cache st.
Proof.
  cbv zeta. rewrite search_mal_eq.
  destruct (search_cache st !! query) as [ids0|] eqn:Hc.
  { cbn [fst snd]. rewrite Hc. split; [|split; [done|done]].
    intros ids [= <-]. split; [done|]. by rewrite search_mal_eq, Hc. }
  pose proof (frames_get_retry_429 World http_get (search_request query) st) as He.
  assert (Hs : search_cache (get_retry_429 World http_get (search_request query) st).2
               = search_cache st).
  { unfold get_retry_429. rewrite bind_eq. unfold session_get.
    destruct (http_get (search_request query) (world st)) as [[| |sc t] w];
      cbn [fst snd]; [done|done|].
    case_decide; [|done].
    cbn [world]. by destruct (http_get (search_request query) w) as [[| |sc' t'] w']. }
  pose proof (get_retry_429_raises World http_get (search_request query) st) as Hr.
  destruct (get_retry_429 _ _ _ st) as [[resp|e] st1]; cbn [fst snd] in *.
  - destruct (negb (ok resp.1)); cbn [fst snd].
    + rewrite Hs, Hc. split; [done|]. by split.
    + cbn [search_cache embed_cache]. rewrite lookup_insert_eq.
      split; [|split; [by intros [=]|done]].
      intros ids [= <-]. split; [done|]. rewrite search_mal_eq. cbn [search_cache].
      by rewrite lookup_insert_eq.
  - rewrite (Hr e) by done. cbn [fst snd]. rewrite Hs, Hc. split; [done|]. by split.
Qed.

End FailClosed.

(** X5 on the sample upstream: an id that it does not know gets status
404, and the check of add_trailers.py records it as not embeddable. *)
Lemma check_fails_closed_witness :
  is_embeddable JsonModel.json_loads Scripted.World
    (Upstream.fixed (Upstream.answer "Title official trailer"))
    "unknown0000" Scripted.init
  = (Ok false,
     mkState [watch_request "unknown0000"] {[ "unknown0000" := false ]} ∅
             [watch_request "unknown0000"]).
Proof.
  refine (proj1 (check_fails_closed JsonModel.json_loads Scripted.World
                   (Upstream.fixed (Upstream.answer "Title official trailer"))
                   AddTrailers "unknown0000" Scripted.init 404 EmptyString
                   [watch_request "unknown0000"] _ _ _) _).
  - reflexivity.
  - reflexivity.
  - done.
  - by left.
Defined.

(** a [json.loads] that raises [ValueError] on the object of a page that
the sample upstream serves with status 200: both checks raise it, and
the cache stays empty *)
Example check_raises_value_error (s : script) :
  embeddable_of (λ _, Raise ValueError) Scripted.World
    (Upstream.fixed (Upstream.answer "Title official trailer"))
    s "xyz98765432" Scripted.init
  = (Raise ValueError,
     mkState [watch_request "xyz98765432"] ∅ ∅ [watch_request "xyz98765432"]).
Proof. by destruct s. Qed.

(** *** The normalizers, once more *)

Lemma thumbnail_url_nonempty v : ∃ c s, thumbnail_url v = String c s.
Proof. unfold thumbnail_url. rewrite app_cons. eauto. Qed.

Lemma str_or_nonempty a c s : ∃ c' s', str_or a (String c s) = String c' s'.
Proof. destruct a as [[|b r]|]; cbn; eauto. Qed.

(** X7.  Provider A's normalizer accepts a trailer exactly when its
[site] is [youtube] in any letter case and its [id] is not empty, and
it is idempotent: a candidate it returned is returned unchanged when
normalized again. *)
Theorem normalize_anilist_trailer_idempotent `{PyLib} (t : option dict) :
  (is_Some (normalize_anilist_trailer t) ↔
   ∃ d v, t = Some d
          ∧ lower (str_or (get d "site") EmptyString) = "youtube"
          ∧ get d "id" = Some v ∧ v ≠ EmptyString)
  ∧ (normalize_anilist_trailer t ≫= λ c, normalize_anilist_trailer (Some c))
    = normalize_anilist_trailer t.
Proof.
  split.
  - unfold normalize_anilist_trailer. split.
    + destruct t as [d|]; [|intros [? E]; by vm_compute in E].
      destruct (negb (dict_truthy (Some d))); [by intros [? [=]]|].
      cbn [default from_option]. unfold id.
      destruct (bool_decide (lower (str_or (get d "site") EmptyString) = "youtube"))
        eqn:Hs; [|cbn [negb orb]; by intros [? [=]]].
      destruct (Py.truthy (get d "id")) eqn:Hi; [|cbn [negb orb]; by intros [? [=]]].
      intros _. apply bool_decide_eq_true in Hs.
      apply truthy_true_cases in Hi as (v & Hi & Hv). by exists d, v.
    + intros (d & v & -> & Hs & Hi & Hv).
      assert (Hd : dict_truthy (Some d) = true).
      { cbn [dict_truthy]. apply negb_true_iff, bool_decide_eq_false. intros ->.
        unfold get in Hi. by rewrite lookup_empty in Hi. }
      rewrite Hd. cbn [negb default from_option]. unfold id.
      rewrite Hs, Hi. destruct v; [done|].
      rewrite bool_decide_eq_true_2 by done. cbn [negb orb Py.truthy]. eauto.
  - destruct (normalize_anilist_trailer t) as [c|] eqn:E; [|reflexivity].
    cbn [mbind option_bind].
    unfold normalize_anilist_trailer in E.
    destruct (negb (dict_truthy t)); [done|].
    destruct (Py.truthy (get (default ∅ t) "id")) eqn:Hid.
    2:{ by rewrite orb_true_r in E. }
    apply truthy_true_cases in Hid as ([|a v] & Hid & Hv); [done|].
    destruct (_ || _); [done|]. injection E as <-. rewrite Hid.
    cbn [default from_option]. unfold id.
    destruct (thumbnail_url_nonempty (String a v)) as (c0 & s0 & Ht). rewrite Ht.
    match goal with |- context [str_or ?x (String c0 s0)] =>
      destruct (str_or_nonempty x c0 s0) as (c1 & s1 & Hs) end.
    rewrite Hs. clear.
    unfold normalize_anilist_trailer.
    match goal with |- context [dict_truthy (Some ?m)] =>
      assert (Hd : dict_truthy (Some m) = true) end.
    { cbn [dict_truthy]. apply negb_true_iff, bool_decide_eq_false. intros E.
      apply (f_equal (λ m : dict, m !! "site")) in E. vm_compute in E. done. }
    rewrite Hd. cbn [negb default from_option]. unfold id.
    change (str_or (get _ "site") EmptyString) with "youtube".
    rewrite lower_youtube. reflexivity.
Qed.

(* ===================================================================== *)
(** ** What a finished catalog holds *)
(* ===================================================================== *)

(** the entry's trailer names no video, or one that the cache holds as
embeddable *)
Definition checked {World} (st : state World) (e : entry) : Prop :=
  ∀ v, get (default ∅ (e_trailer e)) "id" = Some v → v ≠ EmptyString →
       embed_cache st !! v = Some true.

(** the fields of an entry that the trailer logic only reads *)
Definition same_entry (e e' : entry) : Prop :=
  e_title e' = e_title e ∧ e_anilistId e' = e_anilistId e ∧ e_malId e' = e_malId e
  ∧ e_top_trailer e' = e_top_trailer e.



Section Checked.
Context `{PyLib}.
Variable json_loads : string → res json.
Variable World : Type.
Variable http_get : request → World → http_outcome * World.
Variable anilist_trailers : gmap Z (option dict).
Variable jikan_response : Z → jikan_answer.
Variable anilist_id_response : Z → option Z.

Local Abbreviation state := (state World).
Local Abbreviation verify_entry := (verify_entry json_loads World http_get).
Local Abbreviation verify_pass := (verify_pass json_loads World http_get).
Local Abbreviation select_from := (select_from json_loads World http_get).
Local Abbreviation scrape_anime :=
  (scrape_anime json_loads World http_get anilist_trailers jikan_response
     anilist_id_response).
Local Abbreviation scrape_batch :=
  (scrape_batch json_loads World http_get anilist_trailers jikan_response
     anilist_id_response).

Lemma checked_extends (st st' : state) e :
  extends World st st' → checked st e → checked st' e.
Proof. intros Hx Hc v Hv Hne. apply Hx. by apply Hc. Qed.

Lemma get_found_id w v : get (found w) "id" = Some v → v = w.
Proof. by intros [= <-]. Qed.

Lemma get_insert_id (t : dict) (o : option string) : get (<["id" := o]> t) "id" = o.
Proof. unfold get. by rewrite lookup_insert_eq. Qed.

Lemma truthy_default o : Py.truthy o = true → o = Some (default EmptyString o).
Proof. by destruct o as [[|]|]. Qed.

Lemma verify_entry_checked e st e' st' :
  verify_entry e st = (Ok e', st') → same_entry e e' ∧ checked st' e'.
Proof.
  unfold verify_entry.
  destruct (dict_truthy (e_trailer e)) eqn:Ht; cbn [negb].
  2:{ intros [= <- <-]. split; [done|]. intros v Hv.
      destruct (e_trailer e) as [m|]; [|done].
      cbn in Ht. apply negb_false_iff, bool_decide_eq_true in Ht. by subst. }
  set (t := default ∅ (e_trailer e)).
  set (video_id := Py.or_else (get t "id") _).
  destruct (Py.truthy video_id) eqn:Hid; cbn [negb].
  2:{ intros [= <- <-]. split; [done|]. intros v Hv Hne. fold t in Hv.
      unfold video_id, Py.or_else in Hid. rewrite Hv in Hid.
      destruct v; [done|]. cbn in Hid. done. }
  rewrite bind_eq.
  destruct (is_embeddable json_loads World http_get (default EmptyString video_id) st)
    as [[[|]|x] st1] eqn:Hc; [| |done].
  - intros [= <- <-]. split; [done|]. intros v Hv Hne. cbn [e_trailer set_trailer] in Hv.
    cbn [default from_option] in Hv. unfold id in Hv. rewrite get_insert_id in Hv.
    rewrite Hv in Hc. cbn [default from_option] in Hc. unfold id in Hc.
    by apply (embeddable_of_caches json_loads World http_get AddTrailers) in Hc.
  - rewrite bind_eq.
    destruct (find_embeddable_trailer json_loads World http_get (e_title e) _ st1)
      as [[alt|x] st2] eqn:Hf; [|done].
    destruct (dict_truthy alt) eqn:Ha; intros [= <- <-]; (split; [done|]).
    + destruct alt as [c|]; [|done].
      apply (fallback_of_hit json_loads World http_get AddTrailers) in Hf
        as (w & -> & _ & Hw).
      intros v Hv Hne. cbn [e_trailer set_trailer default from_option] in Hv.
      unfold id in Hv. apply get_found_id in Hv. by subst.
    + intros v Hv. by cbn in Hv.
Qed.

(** X8.  Whatever the upstream answers, when the verify pass of
add_trailers.py returns, the catalog has the same entries in the same
order with title and provider ids untouched, and every non-empty video
id left in a trailer is one that the check accepted: the cache of the
final state holds it as embeddable. *)
Theorem verify_pass_checked (l l' : list entry) (st st' : state) :
  verify_pass l st = (Ok l', st') →
  Forall2 same_entry l l' ∧ Forall (checked st') l'.
Proof.
  revert l' st. induction l as [|e rest IH]; intros l' st; simpl.
  { intros [= <- <-]. by split. }
  rewrite bind_eq. destruct (verify_entry e st) as [[e1|x] st1] eqn:He; [|done].
  rewrite bind_eq. destruct (verify_pass rest st1) as [[rest1|x] st2] eqn:Hr; [|done].
  intros [= <- <-]. apply verify_entry_checked in He as [Hs Hc].
  destruct (IH _ _ Hr) as [Hss Hcs]. split; [by constructor|].
  constructor; [|done]. apply (checked_extends st1); [|done].
  pose proof (keeps_verify_pass json_loads World http_get rest st1) as Hk.
  by rewrite Hr in Hk.
Qed.







End Checked.

(** a catalog whose first trailer names the blocked video of the sample
upstream and whose second names the playable one *)
Definition sample_catalog : list entry :=
  [ mkEntry "Title" (Some 1) None (Some {[ "id" := Some "abc12345678" ]}) None;
    mkEntry "Other" None (Some 2) (Some {[ "id" := Some "xyz98765432" ]}) None ].

(** The verify pass on the sample catalog and the sample upstream. *)
Lemma verify_pass_checked_witness :
  ∃ l' st',
    @verify_pass model_lib JsonModel.json_loads Scripted.World
      (Upstream.fixed SampleAssignment.answer) sample_catalog Scripted.init = (Ok l', st')
    ∧ Forall2 same_entry sample_catalog l' ∧ Forall (checked st') l'.
Proof.
  destruct (@verify_pass model_lib JsonModel.json_loads Scripted.World
              (Upstream.fixed SampleAssignment.answer) sample_catalog Scripted.init)
    as [[l'|x] st'] eqn:Hrun.
  - exists l', st'. split; [reflexivity|].
    exact (@verify_pass_checked model_lib JsonModel.json_loads Scripted.World
             (Upstream.fixed SampleAssignment.answer) sample_catalog l' Scripted.init st'
             Hrun).
  - vm_compute in Hrun. discriminate Hrun.
Defined.

(** the items of the sample: two of type TV, a film, and one that
provider B does not know *)
Definition sample_items : list item :=
  [ SampleProviders.item_of 6 SampleProviders.first;
    SampleProviders.item_of 2 SampleProviders.second;
    mkItem 5 "Film"; mkItem 7 "Title" ].


(** the results of that run *)
Example scrape_batch_sample :
  (@scrape_batch model_lib JsonModel.json_loads Scripted.World
     (Upstream.fixed SampleAssignment.answer)
     SampleProviders.anilist_trailers SampleProviders.jikan_response
     SampleProviders.anilist_id_response sample_items Scripted.init).1
  = Ok [Selected (Some (build_youtube_trailer "xyz98765432" "youtube-search"));
        Selected (Some (build_youtube_trailer "xyz98765432" "jikan"));
        NonTV (@normalize_jikan_trailer model_lib SampleProviders.blocked);
        WithoutMetadata].
Proof. reflexivity. Qed.

(* ===================================================================== *)
(** ** The acquire pass, entry by entry *)
(* ===================================================================== *)

Section Acquire.
Context `{PyLib}.
Variable anilist_trailers : gmap Z (option dict).
Variable jikan_response : Z → jikan_answer.

Local Abbreviation acquire := (acquire anilist_trailers jikan_response).
Local Abbreviation acquired := (acquired anilist_trailers jikan_response).
Local Abbreviation acquire_step := (acquire_step anilist_trailers jikan_response).

Lemma acquired_again e : acquired (set_trailer e (acquired e)) = acquired e.
Proof.
  unfold acquired, provider_a, provider_b. cbn [set_trailer e_anilistId e_malId e_trailer].
  destruct (normalize_anilist_trailer _); [done|].
  by destruct (normalize_jikan_trailer _).
Qed.

Lemma acquire_step_again refresh e :
  acquire_step refresh (acquire_step refresh e) = acquire_step refresh e.
Proof.
  unfold acquire_step at 2 3. destruct (refresh || negb (has_trailer e)) eqn:E.
  - unfold acquire_step.
    destruct (refresh || negb (has_trailer (set_trailer e (acquired e)))); [|done].
    by rewrite acquired_again.
  - unfold acquire_step. by rewrite E.
Qed.

(** X10.  The two loops of the acquire pass of add_trailers.py amount to
one step per entry, in catalog order: without [--refresh] an entry that
has a trailer is left as it is; every other entry gets provider A's
normalized trailer when there is one, else provider B's, and keeps the
trailer it had when both fail.  Title and provider ids are not touched,
and a second pass over the result, with the same provider answers,
changes nothing. *)
Theorem acquire_per_entry (refresh : bool) (anime_list : list entry) :
  acquire refresh anime_list
  = (λ e, if refresh || negb (has_trailer e)
          then set_trailer e (acquired e) else e) <$> anime_list
  ∧ Forall2 same_entry anime_list (acquire refresh anime_list)
  ∧ acquire refresh (acquire refresh anime_list) = acquire refresh anime_list.
Proof.
  split; [apply acquire_steps|split].
  - rewrite acquire_steps. apply Forall2_fmap_r, Forall_Forall2_diag, Forall_forall.
    intros e _. unfold acquire_step, same_entry, compose.
    by destruct (refresh || negb (has_trailer e)).
  - rewrite !acquire_steps, <- list_fmap_compose. apply list_fmap_ext.
    intros i e _. apply acquire_step_again.
Qed.

End Acquire.

(* ===================================================================== *)
(** ** The id in the path of a URL *)
(* ===================================================================== *)

Section PathFacts.

Lemma app_empty_r (s : string) : s +:+ EmptyString = s.
Proof. induction s as [|c s IH]; [done|]. by rewrite app_cons, IH. Qed.

Lemma rev_app_spec (s acc : string) : String.rev_app s acc = String.rev s +:+ acc.
Proof.
  revert acc. induction s as [|c s IH]; intros acc; [done|].
  unfold String.rev. cbn [String.rev_app]. rewrite (IH (String c acc)), (IH (String c EmptyString)).
  by rewrite app_assoc, app_cons, app_empty.
Qed.

Lemma rev_cons c (s : string) : String.rev (String c s) = String.rev s +:+ String c EmptyString.
Proof. unfold String.rev at 1. cbn [String.rev_app]. apply rev_app_spec. Qed.

Lemma contains_cons sub c s :
  Py.contains sub (String c s) = Py.startswith sub (String c s) || Py.contains sub s.
Proof. reflexivity. Qed.

(** a piece without a slash, followed by nothing or by a slash *)
Definition segment_end (tail : string) : Prop :=
  tail = EmptyString ∨ ∃ t, tail = String "/" t.

Lemma no_slash_cons c v :
  Py.contains "/" (String c v) = false → c ≠ "/"%char ∧ Py.contains "/" v = false.
Proof.
  rewrite contains_cons. intros [Hs Hv]%orb_false_iff. split; [|done].
  intros ->. by cbn in Hs.
Qed.

Lemma split_go_head sep s cur :
  ∃ p, head (Py.split_go sep s cur 0) = Some (String.rev cur +:+ p)
       ∧ (∀ c s', s = String c s' → p = EmptyString ∨ ∃ p', p = String c p').
Proof.
  revert cur. induction s as [|c s IH]; intros cur.
  { exists EmptyString. split; [by rewrite app_empty_r|done]. }
  cbn [Py.split_go]. destruct (Py.startswith sep (String c s)).
  - exists EmptyString. split; [by rewrite app_empty_r|]. intros ? ? _. by left.
  - destruct (IH (String c cur)) as (p & Hp & _). exists (String c p). split.
    + rewrite Hp, rev_cons, app_assoc. by rewrite app_cons, app_empty.
    + intros ? ? [= <- <-]. right. by exists p.
Qed.

Lemma split_go_segment sep v tail cur :
  Py.contains "/" v = false → segment_end tail →
  ∃ t, segment_end t
       ∧ head (Py.split_go (String "/" sep) (v +:+ tail) cur 0)
         = Some (String.rev cur +:+ v +:+ t).
Proof.
  revert cur. induction v as [|c v IH]; intros cur Hv Ht.
  - rewrite app_empty.
    destruct (split_go_head (String "/" sep) tail cur) as (p & Hp & Hc).
    exists p. split; [|by rewrite app_empty].
    destruct Ht as [->|[t ->]]; [|].
    + cbn in Hp. injection Hp as Hp.
      left. clear Hc. revert Hp. generalize (String.rev cur). intros r Hr.
      induction r as [|a r IHr]; [by rewrite app_empty in Hr|].
      rewrite !app_cons in Hr. injection Hr as Hr. by apply IHr.
    + destruct (Hc _ _ eq_refl) as [->|[p' ->]]; [by left|right; by exists p'].
  - apply no_slash_cons in Hv as [Hc Hv]. rewrite !app_cons. cbn [Py.split_go Py.startswith].
    rewrite decide_False by congruence.
    destruct (IH (String c cur) Hv Ht) as (t & Hst & Hh). exists t. split; [done|].
    rewrite Hh, rev_cons, app_assoc. by rewrite !app_cons, app_empty.
Qed.

Lemma split_slash_segment v tail :
  Py.contains "/" v = false → segment_end tail →
  Py.item (Py.split "/" (v +:+ tail)) 0 = v.
Proof.
  intros Hv Ht. unfold Py.split, Py.item.
  assert (Hgo : ∀ cur, head (Py.split_go "/" (v +:+ tail) cur 0)
                       = Some (String.rev cur +:+ v)).
  { induction v as [|c v IH]; intros cur.
    - rewrite app_empty, app_empty_r. destruct Ht as [->|[t ->]]; reflexivity.
    - apply no_slash_cons in Hv as [Hc Hv]. rewrite app_cons.
      cbn [Py.split_go Py.startswith]. rewrite decide_False by congruence.
      rewrite (IH Hv), rev_cons, app_assoc. by rewrite app_cons, app_empty. }
  specialize (Hgo EmptyString).
  destruct (Py.split_go "/" (v +:+ tail) EmptyString 0); [done|].
  injection Hgo as ->. reflexivity.
Qed.

Lemma rstrip_cons c a s :
  a ≠ c → Py.rstrip c (String a s) = String a (Py.rstrip c s).
Proof. intros Ha. cbn [Py.rstrip]. destruct (Py.rstrip c s); [by rewrite decide_False|done]. Qed.

Lemma rstrip_segment v tail :
  Py.contains "/" v = false → v ≠ EmptyString → segment_end tail →
  ∃ t, segment_end t ∧ Py.strip "/" (String "/" (v +:+ tail)) = v +:+ t.
Proof.
  intros Hv Hne Ht. unfold Py.strip.
  destruct v as [|c v]; [done|]. pose proof Hv as Hv0.
  apply no_slash_cons in Hv as [Hc Hv]. rewrite app_cons.
  cbn [Py.lstrip]. rewrite decide_True by done. rewrite decide_False by done.
  exists (Py.rstrip "/" tail). split.
  - destruct Ht as [->|[t ->]]; [by left|]. cbn [Py.rstrip].
    destruct (Py.rstrip "/" t); [left|right]; [by rewrite decide_True|eauto].
  - rewrite <- app_cons. clear Hc Hv Hne. revert Hv0. generalize (String c v). clear.
    intros v. induction v as [|c v IH]; intros Hv; [by rewrite !app_empty|].
    apply no_slash_cons in Hv as [Hc Hv]. rewrite !app_cons, rstrip_cons by done.
    by rewrite IH.
Qed.

End PathFacts.

Section ExtractPath.
Context `{PyLib}.

(** X11.  The id is read from the path of a URL on a YouTube host.  Let
[v] be non-empty and free of slashes.  When the lower-cased host
contains [youtu.be] and the path is [/v], alone or followed by a slash
and anything, the result is [v].  When the host contains [youtube.com]
or [youtube-nocookie.com] but not [youtu.be] and the path is
[/embed/v], alone or followed by a slash and anything, the result is
[v] as well. *)
Theorem extract_youtube_id_path (url : string) (parsed : ParseResult)
    (v tail : string) :
  url ≠ EmptyString → urlparse url = Some parsed →
  v ≠ EmptyString → Py.contains "/" v = false →
  tail = EmptyString ∨ (∃ t, tail = String "/" t) →
  (Py.contains "youtu.be" (lower (netloc parsed)) = true →
   path parsed = "/" +:+ v +:+ tail →
   extract_youtube_id (Some url) = Some v)
  ∧ (Py.contains "youtu.be" (lower (netloc parsed)) = false →
     Py.contains "youtube.com" (lower (netloc parsed))
     || Py.contains "youtube-nocookie.com" (lower (netloc parsed)) = true →
     path parsed = "/embed/" +:+ v +:+ tail →
     extract_youtube_id (Some url) = Some v).
Proof.
  intros Hu Hp Hne Hv Ht.
  assert (Hor : or_none v = Some v) by (by destruct v).
  split.
  - intros Hh Hpath. unfold extract_youtube_id.
    destruct url as [|c0 u0]; [done|]. cbn [Py.truthy negb mbind option_bind].
    rewrite Hp, Hh, Hpath. rewrite app_cons, app_empty.
    destruct (rstrip_segment v tail Hv Hne Ht) as (t & Hst & ->).
    by rewrite split_slash_segment.
  - intros Hh Hy Hpath. unfold extract_youtube_id.
    destruct url as [|c0 u0]; [done|]. cbn [Py.truthy negb mbind option_bind].
    rewrite Hp, Hh, Hy, Hpath.
    assert (Hst : Py.startswith "/embed/" ("/embed/" +:+ v +:+ tail) = true).
    { by rewrite !app_cons, app_empty. }
    rewrite Hst.
    destruct (split_go_segment "embed/" v tail EmptyString Hv Ht) as (t & Hse & Hh').
    assert (Hit : Py.item (Py.split "/embed/" ("/embed/" +:+ v +:+ tail)) 1 = v +:+ t).
    { unfold Py.split, Py.item. rewrite !app_cons, app_empty.
      cbn [Py.split_go Py.startswith String.length Nat.sub].
      rewrite !decide_True by done.
      cbn [nth]. destruct (Py.split_go "/embed/" (v +:+ tail) "" 0); [done|].
      injection Hh' as ->. by rewrite app_empty. }
    rewrite Hit. by rewrite split_slash_segment.
Qed.

End ExtractPath.

(** X11 at a short link and at an embed link with a trailing segment,
with the modelled library. *)
Lemma extract_youtube_id_path_witness :
  @extract_youtube_id model_lib (Some "https://youtu.be/abc12345678?t=10")
    = Some "abc12345678"
  ∧ @extract_youtube_id model_lib
      (Some "https://www.youtube-nocookie.com/embed/abc12345678/x?rel=0")
    = Some "abc12345678".
Proof.
  split.
  - refine (proj1 (@extract_youtube_id_path model_lib
              "https://youtu.be/abc12345678?t=10"
              (mkParseResult "https" "youtu.be" "/abc12345678" "" "t=10" "")
              "abc12345678" "" _ _ _ _ _) _ _);
      try reflexivity; try done. by left.
  - refine (proj2 (@extract_youtube_id_path model_lib
              "https://www.youtube-nocookie.com/embed/abc12345678/x?rel=0"
              (mkParseResult "https" "www.youtube-nocookie.com" "/embed/abc12345678/x"
                 "" "rel=0" "")
              "abc12345678" "/x" _ _ _ _ _) _ _ _);
      try reflexivity; try done. right. by exists "x".
Defined.

(* ===================================================================== *)
(** ** Slugs *)
(* ===================================================================== *)

(** [re.sub] with a pattern that is one character class: every
character of the class is removed *)
Fixpoint sub_class (cls : ascii → bool) (s : string) : string :=
  match s with
  | EmptyString => EmptyString
  | String c s' => if cls c then sub_class cls s' else String c (sub_class cls s')
  end.

(** [re.sub] with a pattern that is a character class followed by [+]
and the replacement [-]: every maximal run of characters of the class
becomes one hyphen; [in_run] tells whether the character before was of
the class *)
Fixpoint sub_runs (cls : ascii → bool) (in_run : bool) (s : string) : string :=
  match s with
  | EmptyString => EmptyString
  | String c s' =>
      if cls c then
        if in_run then sub_runs cls true s' else String "-" (sub_runs cls true s')
      else String c (sub_runs cls false s')
  end.

(** [s.endswith("-")] *)
Fixpoint endswith_hyphen (s : string) : bool :=
  match s with
  | EmptyString => false
  | String c EmptyString => bool_decide (c = "-"%char)
  | String _ s' => endswith_hyphen s'
  end.

Section Slug.
Context `{PyLib}.
(** the classes [\w] and [\s] of the regular expressions *)
Variable word space : ascii → bool.

(** [_create_slug] (mal_scraper.py) *)
Definition _create_slug (title : string) : string :=
  let slug :=
    sub_class (λ c, negb (word c || space c || bool_decide (c = "-"%char)))
              (lower title) in
  let slug := sub_runs (λ c, space c || bool_decide (c = "_"%char)) false slug in
  let slug := sub_runs (λ c, bool_decide (c = "-"%char)) false slug in
  Py.strip "-" slug.

End Slug.

Section SlugFacts.
Context `{PyLib}.
Variable word space : ascii → bool.

Local Abbreviation every := Py.all_chars.
Local Abbreviation hyphen := (λ c : ascii, bool_decide (c = "-"%char)).

Lemma startswith_hyphen a o : Py.startswith "-" (String a o) = bool_decide (a = "-"%char).
Proof. cbn. case_decide; subst; [by rewrite bool_decide_eq_true_2|].
  rewrite bool_decide_eq_false_2; [done|congruence]. Qed.

Lemma startswith_hyphens a o :
  Py.startswith "--" (String a o) = bool_decide (a = "-"%char) && Py.startswith "-" o.
Proof.
  cbn [Py.startswith]. case_decide; subst.
  - rewrite bool_decide_eq_true_2 by done. by destruct o.
  - rewrite bool_decide_eq_false_2; [done|congruence].
Qed.

Lemma contains_hyphens a o :
  Py.contains "--" (String a o)
  = bool_decide (a = "-"%char) && Py.startswith "-" o || Py.contains "--" o.
Proof. by rewrite contains_cons, startswith_hyphens. Qed.

Lemma every_impl (p q : ascii → bool) s :
  (∀ c, p c = true → q c = true) → every p s = true → every q s = true.
Proof.
  intros Hpq. induction s as [|c s IH]; [done|]. cbn.
  intros [Hc Hs]%andb_true_iff. by rewrite (Hpq _ Hc), IH.
Qed.

Lemma every_and (p q : ascii → bool) s :
  every p s = true → every q s = true → every (λ c, p c && q c) s = true.
Proof.
  induction s as [|c s IH]; [done|]. cbn.
  intros [-> Hs]%andb_true_iff [-> Hs']%andb_true_iff. by rewrite IH.
Qed.

Lemma lowered_hyphen : lowered "-" = true.
Proof. rewrite lowered_ascii; [done|]. by apply Nat.ltb_lt. Qed.

Lemma every_sub_class (cls p : ascii → bool) s :
  every p s = true → every (λ c, p c && negb (cls c)) (sub_class cls s) = true.
Proof.
  induction s as [|c s IH]; [done|]. cbn.
  intros [Hc Hs]%andb_true_iff. destruct (cls c) eqn:E; [by apply IH|].
  cbn. by rewrite Hc, E, IH.
Qed.

Lemma sub_class_fixed (cls : ascii → bool) s :
  every (λ c, negb (cls c)) s = true → sub_class cls s = s.
Proof.
  induction s as [|c s IH]; [done|]. cbn.
  intros [Hc%negb_true_iff Hs]%andb_true_iff. by rewrite Hc, IH.
Qed.

Lemma every_sub_runs (cls p : ascii → bool) b s :
  every p s = true →
  every (λ c, bool_decide (c = "-"%char) || p c && negb (cls c)) (sub_runs cls b s) = true.
Proof.
  revert b. induction s as [|c s IH]; intros b; [done|]. cbn.
  intros [Hc Hs]%andb_true_iff. destruct (cls c) eqn:E.
  - destruct b; [by apply IH|]. cbn. by rewrite IH.
  - cbn. rewrite Hc, E, IH by done. by rewrite orb_true_r.
Qed.

Lemma sub_runs_fixed (cls : ascii → bool) b s :
  every (λ c, negb (cls c)) s = true → sub_runs cls b s = s.
Proof.
  revert b. induction s as [|c s IH]; intros b; [done|]. cbn.
  intros [Hc%negb_true_iff Hs]%andb_true_iff. by rewrite Hc, IH.
Qed.

Lemma sub_runs_hyphen b s :
  Py.contains "--" (sub_runs hyphen b s) = false
  ∧ (b = true → Py.startswith "-" (sub_runs hyphen b s) = false).
Proof.
  revert b. induction s as [|c s IH]; intros b; [done|]. cbn [sub_runs].
  destruct (bool_decide (c = "-"%char)) eqn:E.
  - destruct b; [apply IH|]. destruct (IH true) as [Hc Hs]. split; [|done].
    by rewrite contains_hyphens, Hs, Hc, andb_false_r.
  - destruct (IH false) as [Hc _]. split.
    + by rewrite contains_hyphens, E, Hc.
    + intros _. by rewrite startswith_hyphen.
Qed.

Lemma sub_runs_hyphen_fixed b s :
  Py.contains "--" s = false → (b = true → Py.startswith "-" s = false) →
  sub_runs hyphen b s = s.
Proof.
  revert b. induction s as [|c s IH]; intros b; [done|].
  rewrite contains_hyphens, startswith_hyphen. cbn [sub_runs].
  intros [Hd Hc]%orb_false_iff Hb. destruct (bool_decide (c = "-"%char)) eqn:E.
  - destruct b; [by specialize (Hb eq_refl)|].
    apply bool_decide_eq_true in E as ->. f_equal. apply IH; [done|]. by intros _.
  - f_equal. apply IH; [done|]. by intros [=].
Qed.

(** the facts that the three substitutions establish and that
[strip] keeps *)
Lemma lstrip_suffix (p : ascii → bool) s :
  (every p s = true → every p (Py.lstrip "-" s) = true)
  ∧ (Py.contains "--" s = false → Py.contains "--" (Py.lstrip "-" s) = false)
  ∧ Py.startswith "-" (Py.lstrip "-" s) = false.
Proof.
  induction s as [|c s (IH1 & IH2 & IH3)]; [done|]. cbn [Py.lstrip]. case_decide as Hc.
  - split; [|split; [|done]].
    + cbn. intros [_ Hs]%andb_true_iff. by apply IH1.
    + rewrite contains_hyphens. intros [_ Hs]%orb_false_iff. by apply IH2.
  - split; [done|split; [done|]]. rewrite startswith_hyphen. by apply bool_decide_eq_false_2.
Qed.

Lemma lstrip_fixed s : Py.startswith "-" s = false → Py.lstrip "-" s = s.
Proof.
  destruct s as [|c s]; [done|]. rewrite startswith_hyphen. cbn [Py.lstrip].
  intros Hc%bool_decide_eq_false. by rewrite decide_False.
Qed.

Lemma rstrip_hyphen c s :
  Py.rstrip "-" (String c s)
  = match Py.rstrip "-" s with
    | EmptyString => if bool_decide (c = "-"%char) then EmptyString else String c EmptyString
    | r => String c r
    end.
Proof.
  cbn [Py.rstrip]. destruct (Py.rstrip "-" s); [|done].
  case_decide; subst; [done|]. by rewrite bool_decide_eq_false_2.
Qed.

Lemma rstrip_prefix (p : ascii → bool) s :
  (every p s = true → every p (Py.rstrip "-" s) = true)
  ∧ (Py.contains "--" s = false → Py.contains "--" (Py.rstrip "-" s) = false)
  ∧ (Py.startswith "-" s = false → Py.startswith "-" (Py.rstrip "-" s) = false)
  ∧ (Py.startswith "-" (Py.rstrip "-" s) = true → Py.startswith "-" s = true)
  ∧ endswith_hyphen (Py.rstrip "-" s) = false.
Proof.
  induction s as [|c s (IH1 & IH2 & IH3 & IH4 & IH5)]; [done|]. rewrite rstrip_hyphen.
  destruct (Py.rstrip "-" s) as [|a r] eqn:Er.
  - destruct (bool_decide (c = "-"%char)) eqn:E; [done|].
    split; [|split; [|split; [|split]]].
    + cbn. intros [-> _]%andb_true_iff. done.
    + intros _. rewrite contains_hyphens, E. done.
    + intros _. by rewrite startswith_hyphen.
    + by rewrite startswith_hyphen, E.
    + cbn. done.
  - split; [|split; [|split; [|split]]].
    + cbn. intros [-> Hs]%andb_true_iff. by apply IH1.
    + rewrite (contains_hyphens c s), (contains_hyphens c (String a r)).
      intros [Hd Hs]%orb_false_iff. rewrite (IH2 Hs), orb_false_r.
      destruct (bool_decide (c = "-"%char)); [|done]. cbn [andb] in *.
      destruct (Py.startswith "-" (String a r)) eqn:Ea; [|done].
      by rewrite IH4 in Hd.
    + by rewrite !startswith_hyphen.
    + by rewrite !startswith_hyphen.
    + exact IH5.
Qed.

Lemma rstrip_fixed s : endswith_hyphen s = false → Py.rstrip "-" s = s.
Proof.
  induction s as [|c s IH]; [done|]. rewrite rstrip_hyphen.
  destruct s as [|a r].
  - cbn. by intros ->.
  - intros He. rewrite IH by exact He. done.
Qed.

(** X12.  A slug neither starts nor ends with a hyphen and has no two
hyphens in a row; each of its characters is a hyphen or a lower-cased
word character other than the underscore ([lowered]: a character that
[str.lower] leaves alone, which for an ASCII character means that it is
no upper-case letter); and a slug is its own slug.  This holds for every
title, the empty one included, whatever the two character classes are,
as long as the hyphen is not a whitespace character. *)
Theorem create_slug_shape (title : string) :
  space "-"%char = false →
  let slug := _create_slug word space title in
  Py.startswith "-" slug = false
  ∧ endswith_hyphen slug = false
  ∧ Py.contains "--" slug = false
  ∧ every (λ c, bool_decide (c = "-"%char)
               || word c && negb (space c) && negb (bool_decide (c = "_"%char))
                  && lowered c) slug = true
  ∧ _create_slug word space slug = slug.
Proof.
  intros Hsp slug.
  set (keep := λ c, word c || space c || bool_decide (c = "-"%char)).
  set (gap := λ c, space c || bool_decide (c = "_"%char)).
  set (low := lowered).
  set (ok := λ c, bool_decide (c = "-"%char) || word c && negb (space c) && negb (bool_decide (c = "_"%char))
                              && low c).
  set (s1 := sub_class (λ c, negb (keep c)) (lower title)).
  set (s2 := sub_runs gap false s1).
  set (s3 := sub_runs hyphen false s2).
  assert (H1 : every (λ c, low c && keep c) s1 = true).
  { eapply every_impl; [|apply (every_sub_class _ low), lower_lowered].
    intros c. cbn. by rewrite negb_involutive. }
  assert (H2 : every ok s2 = true).
  { eapply every_impl; [|apply (every_sub_runs gap (λ c, low c && keep c) false), H1].
    intros c. unfold ok, keep, gap, low. cbn.
    destruct (bool_decide (c = "-"%char)); [done|]. cbn.
    destruct (lowered c); [|done].
    destruct (word c), (space c), (bool_decide (c = "_"%char)); done. }
  assert (H3 : every ok s3 = true).
  { eapply every_impl; [|apply (every_sub_runs hyphen ok false), H2].
    intros c. cbn. destruct (bool_decide (c = "-"%char)) eqn:E; [by unfold ok; rewrite E|].
    cbn. by rewrite andb_true_r. }
  destruct (sub_runs_hyphen false s2) as [Hd _]. fold s3 in Hd.
  destruct (lstrip_suffix ok s3) as (L1 & L2 & L3).
  destruct (rstrip_prefix ok (Py.lstrip "-" s3)) as (R1 & R2 & R3 & _ & R5).
  assert (Hslug : slug = Py.rstrip "-" (Py.lstrip "-" s3)) by reflexivity.
  assert (Hs : Py.startswith "-" slug = false) by (rewrite Hslug; by apply R3).
  assert (He : endswith_hyphen slug = false) by (by rewrite Hslug).
  assert (Hc : Py.contains "--" slug = false) by (rewrite Hslug; by apply R2, L2).
  assert (Ho : every ok slug = true) by (rewrite Hslug; by apply R1, L1).
  split; [done|split; [done|split; [done|split; [done|]]]].
  unfold _create_slug.
  rewrite (lowered_fixed slug).
  2:{ eapply every_impl; [|exact Ho]. intros c. unfold ok, low.
      destruct (bool_decide (c = "-"%char)) eqn:E.
      - apply bool_decide_eq_true in E as ->. intros _. apply lowered_hyphen.
      - cbn. by intros [_ ?]%andb_true_iff. }
  rewrite sub_class_fixed.
  2:{ eapply every_impl; [|exact Ho]. intros c. unfold ok. rewrite negb_involutive.
      destruct (bool_decide (c = "-"%char)); [by rewrite orb_true_r|].
      cbn. destruct (word c); [done|]. done. }
  rewrite (sub_runs_fixed (λ c, space c || bool_decide (c = "_"%char)) false slug).
  2:{ eapply every_impl; [|exact Ho]. intros c. unfold ok.
      destruct (bool_decide (c = "-"%char)) eqn:E.
      - apply bool_decide_eq_true in E as ->. by rewrite Hsp.
      - cbn. destruct (word c), (space c), (bool_decide (c = "_"%char)); done. }
  rewrite sub_runs_hyphen_fixed by done.
  unfold Py.strip. by rewrite lstrip_fixed, rstrip_fixed.
Qed.

End SlugFacts.

Module AsciiClasses.

(** the ASCII part of [\w]: letters, digits and the underscore *)
Definition word (c : ascii) : bool :=
  let n := nat_of_ascii c in
  ((97 <=? n) && (n <=? 122) || (65 <=? n) && (n <=? 90)
   || (48 <=? n) && (n <=? 57) || (n =? 95))%nat.

(** the ASCII part of [\s] *)
Definition space (c : ascii) : bool :=
  let n := nat_of_ascii c in
  ((n =? 32) || (9 <=? n) && (n <=? 13) || (28 <=? n) && (n <=? 31))%nat.

End AsciiClasses.

(** X12 at a title with punctuation, underscores and hyphens. *)
Lemma create_slug_shape_witness :
  @_create_slug model_lib AsciiClasses.word AsciiClasses.space
    "- Re:ZERO  -Starting_Life- (2nd) --"
    = "rezero-starting-life-2nd"
  ∧ @_create_slug model_lib AsciiClasses.word AsciiClasses.space
      "rezero-starting-life-2nd"
    = "rezero-starting-life-2nd".
Proof.
  split; [reflexivity|].
  exact (proj2 (proj2 (proj2 (proj2
    (@create_slug_shape model_lib AsciiClasses.word AsciiClasses.space
       "- Re:ZERO  -Starting_Life- (2nd) --" eq_refl))))).
Defined.

(* ===================================================================== *)
(** ** The export converter (convert_mal_export.py) *)
(* ===================================================================== *)

(** One record of [parse_mal_export].  The text of an XML element is a
string or [None]. *)
Record export_row := mkRow {
  r_mal_id : Z;
  r_title : option string;
  r_type : option string;
  r_episodes : Z;
  r_status : option string;
  r_score : option Z
}.

(** truth value of an [Optional[int]]: [None] and [0] are falsy *)
Definition int_truthy (n : option Z) : bool :=
  match n with
  | Some n => negb (n =? 0)
  | None => false
  end.

(** [filter_anime] *)
Definition filter_anime (anime_list : list export_row)
    (status anime_type : option string) (min_episodes : option Z) : list export_row :=
  let filtered := anime_list in
  let filtered :=
    if Py.truthy status then filter (λ a, r_status a = status) filtered else filtered in
  let filtered :=
    if Py.truthy anime_type then filter (λ a, r_type a = anime_type) filtered
    else filtered in
  if int_truthy min_episodes
  then filter (λ a, default 0 min_episodes ≤ r_episodes a) filtered
  else filtered.

(** the command line of convert_mal_export.py, as far as the selection
reads it *)
Record export_args := mkArgs {
  a_status : option string;
  a_anime_type : option string;
  a_min_episodes : option Z;
  a_limit : option Z;
  a_exclude_existing : bool
}.

(** [l[:n]]: a negative [n] counts from the end *)
Definition slice_to {A} (n : Z) (l : list A) : list A :=
  if 0 <=? n then take (Z.to_nat n) l
  else take (Z.to_nat (Z.of_nat (length l) + n)) l.

(** [existing_mal_ids]: the truthy [malId]s of the database entries *)
Definition existing_mal_ids (database : list (option Z)) : gset Z :=
  list_to_set (omap (λ i, if int_truthy i then i else None) database).

(** The selection of [main], from the parsed export to the list that is
written.  [database] is [None] when the database file does not exist,
and else holds [anime.get("malId")] for each entry of the database. *)
Definition export (a : export_args) (anime_list : list export_row)
    (database : option (list (option Z))) : list (Z * option string) :=
  let filtered :=
    filter_anime anime_list (a_status a) (a_anime_type a) (a_min_episodes a) in
  let filtered :=
    if a_exclude_existing a then
      match database with
      | Some db => filter (λ r, r_mal_id r ∉ existing_mal_ids db) filtered
      | None => filtered
      end
    else filtered in
  let filtered :=
    if int_truthy (a_limit a) then slice_to (default 0 (a_limit a)) filtered
    else filtered in
  (λ r, (r_mal_id r, r_title r)) <$> filtered.

Section ExportFacts.

Lemma filter_anime_sublist l s t m : filter_anime l s t m `sublist_of` l.
Proof.
  unfold filter_anime.
  assert (H1 : (if Py.truthy s then filter (λ a, r_status a = s) l else l) `sublist_of` l).
  { destruct (Py.truthy s); [apply sublist_filter|done]. }
  assert (H2 : (if Py.truthy t
                then filter (λ a, r_type a = t)
                       (if Py.truthy s then filter (λ a, r_status a = s) l else l)
                else (if Py.truthy s then filter (λ a, r_status a = s) l else l))
               `sublist_of` l).
  { destruct (Py.truthy t); [|done]. etrans; [apply sublist_filter|done]. }
  destruct (int_truthy m); [|done]. etrans; [apply sublist_filter|done].
Qed.

Lemma filter_anime_meets l s t m r :
  r ∈ filter_anime l s t m →
  (Py.truthy s = true → r_status r = s)
  ∧ (Py.truthy t = true → r_type r = t)
  ∧ (∀ n, m = Some n → n ≠ 0 → n ≤ r_episodes r).
Proof.
  unfold filter_anime. intros Hr.
  assert (H3 : ∀ n, m = Some n → n ≠ 0 → n ≤ r_episodes r).
  { intros n -> Hn. cbn in Hr. rewrite (proj2 (Z.eqb_neq n 0) Hn) in Hr. cbn in Hr.
    by apply list_elem_of_filter in Hr as [? _]. }
  assert (Hr2 : r ∈ (if Py.truthy t
                then filter (λ a, r_type a = t)
                       (if Py.truthy s then filter (λ a, r_status a = s) l else l)
                else (if Py.truthy s then filter (λ a, r_status a = s) l else l))).
  { destruct (int_truthy m); [|done]. by apply list_elem_of_filter in Hr as [_ ?]. }
  assert (H2 : Py.truthy t = true → r_type r = t).
  { intros E. rewrite E in Hr2. by apply list_elem_of_filter in Hr2 as [? _]. }
  assert (Hr1 : r ∈ (if Py.truthy s then filter (λ a, r_status a = s) l else l)).
  { destruct (Py.truthy t); [|done]. by apply list_elem_of_filter in Hr2 as [_ ?]. }
  split; [|done]. intros E. rewrite E in Hr1. by apply list_elem_of_filter in Hr1 as [? _].
Qed.

Lemma slice_to_sublist {A} n (l : list A) : slice_to n l `sublist_of` l.
Proof. unfold slice_to. destruct (0 <=? n); apply sublist_take. Qed.

Lemma elem_of_existing_mal_ids i db :
  i ∈ existing_mal_ids db ↔ Some i ∈ db ∧ i ≠ 0.
Proof.
  unfold existing_mal_ids. rewrite elem_of_list_to_set, list_elem_of_omap. split.
  - intros ([j|] & Hin & Hj); [|done]. cbn in Hj.
    destruct (j =? 0) eqn:E; [done|]. cbn in Hj. injection Hj as ->.
    split; [done|]. by apply Z.eqb_neq.
  - intros [Hin Hi]. exists (Some i). split; [done|]. cbn.
    by rewrite (proj2 (Z.eqb_neq i 0) Hi).
Qed.

(** X13.  What convert_mal_export.py writes is taken from the parsed
export in its order, nothing is invented or repeated beyond the export;
each row written meets every criterion that is switched on, where an
empty status or type and a minimum of [0] count as switched off; with
[--exclude-existing] and a database that exists, no row carries a
non-zero id of the database; a positive limit keeps that many rows from
the front of what would be written without a limit (all of them when
there are fewer), a limit of [0] is no limit, and a negative limit drops
that many rows from the end (all of them when there are fewer). *)
Theorem export_selection (a : export_args) (anime_list : list export_row)
    (database : option (list (option Z))) :
  let out := export a anime_list database in
  let unlimited :=
    export (mkArgs (a_status a) (a_anime_type a) (a_min_episodes a) None
                   (a_exclude_existing a)) anime_list database in
  out `sublist_of` ((λ r, (r_mal_id r, r_title r)) <$> anime_list)
  ∧ (∀ x, x ∈ out →
       ∃ r, r ∈ anime_list ∧ x = (r_mal_id r, r_title r)
            ∧ (Py.truthy (a_status a) = true → r_status r = a_status a)
            ∧ (Py.truthy (a_anime_type a) = true → r_type r = a_anime_type a)
            ∧ (∀ n, a_min_episodes a = Some n → n ≠ 0 → n ≤ r_episodes r)
            ∧ (∀ db, a_exclude_existing a = true → database = Some db →
                 r_mal_id r ≠ 0 → Some (r_mal_id r) ∉ db))
  ∧ (∀ n, a_limit a = Some n →
       (0 < n →
        out = take (Z.to_nat n) unlimited
        ∧ Z.of_nat (length out) = Z.min n (Z.of_nat (length unlimited)))
       ∧ (n = 0 → out = unlimited)
       ∧ (n < 0 →
          out = take (length unlimited - Z.to_nat (- n)) unlimited
          ∧ Z.of_nat (length out) = Z.max 0 (Z.of_nat (length unlimited) + n))).
Proof.
  intros out unlimited. unfold out, unlimited, export. cbn [a_status a_anime_type
    a_min_episodes a_limit a_exclude_existing int_truthy].
  set (f := filter_anime anime_list (a_status a) (a_anime_type a) (a_min_episodes a)).
  set (g := if a_exclude_existing a
            then match database with
                 | Some db => filter (λ r, r_mal_id r ∉ existing_mal_ids db) f
                 | None => f
                 end
            else f).
  set (h := if int_truthy (a_limit a) then slice_to (default 0 (a_limit a)) g else g).
  assert (Hg : g `sublist_of` f).
  { unfold g. destruct (a_exclude_existing a); [|done].
    destruct database; [apply sublist_filter|done]. }
  assert (Hh : h `sublist_of` g).
  { unfold h. destruct (int_truthy (a_limit a)); [apply slice_to_sublist|done]. }
  split; [|split].
  - apply fmap_sublist. etrans; [exact Hh|]. etrans; [exact Hg|].
    apply filter_anime_sublist.
  - intros x Hx. apply list_elem_of_fmap in Hx as (r & -> & Hr).
    pose proof (elem_of_sublist _ _ _ Hr Hh) as Hrg.
    pose proof (elem_of_sublist _ _ _ Hrg Hg) as Hrf.
    destruct (filter_anime_meets _ _ _ _ _ Hrf) as (M1 & M2 & M3).
    exists r. split; [by eapply elem_of_sublist, filter_anime_sublist|].
    split; [done|]. split; [done|]. split; [done|]. split; [done|].
    intros db He -> Hid Hin. unfold g in Hrg. rewrite He in Hrg.
    apply list_elem_of_filter in Hrg as [Hno _]. apply Hno.
    by apply elem_of_existing_mal_ids.
  - intros n Hn. unfold h. rewrite Hn. cbn [int_truthy default from_option].
    unfold id. split; [|split].
    + intros Hpos. rewrite (proj2 (Z.eqb_neq n 0)) by lia. cbn [negb].
      unfold slice_to. rewrite (proj2 (Z.leb_le 0 n)) by lia.
      split; [by rewrite fmap_take|]. rewrite !length_fmap, length_take. lia.
    + intros ->. reflexivity.
    + intros Hneg. rewrite (proj2 (Z.eqb_neq n 0)) by lia. cbn [negb].
      unfold slice_to. rewrite (proj2 (Z.leb_gt 0 n)) by lia.
      split; [|rewrite !length_fmap, length_take; lia].
      rewrite fmap_take, length_fmap. f_equal. lia.
Qed.

End ExportFacts.

(** X13 on a sample export: a limit of [-1] drops the last of the three
rows, a limit of [2] keeps the first two. *)
Example export_selection_sample :
  let rows := [mkRow 1 (Some "A") (Some "TV") 12 (Some "Completed") None;
               mkRow 2 (Some "B") (Some "TV") 24 (Some "Completed") None;
               mkRow 3 (Some "C") (Some "TV") 1 (Some "Completed") None] in
  export (mkArgs None None None (Some (-1)) false) rows None
  = [(1, Some "A"); (2, Some "B")]
  ∧ export (mkArgs None None None (Some 2) false) rows None
    = [(1, Some "A"); (2, Some "B")]
  ∧ export (mkArgs None None None (Some (-5)) false) rows None = [].
Proof. repeat split; reflexivity. Qed.
